(** * snowmigrate: the migration engine and its job model

    A shallow embedding of [snowmigrate/models/migration.py],
    [snowmigrate/models/connection.py], [snowmigrate/models/staging.py],
    [snowmigrate/services/connection_manager.py] and
    [snowmigrate/services/migration_engine.py], and of what the screens and
    widgets call on them, with the properties of the orchestration core
    stated and proved over it.

    Conventions of the embedding.
    - Python [int] is [Z].  A Python [float] is an IEEE 754 double: a finite
      one is the rational it denotes, and every arithmetic operation rounds
      its exact result to the nearest double, ties to even, overflowing to an
      infinity ([binary64]).  The sign of a zero is not kept; no operation
      of the program tells the two zeros apart.  A float read from JSON is
      finite: the literals [Infinity] and [NaN], which [json.loads] accepts,
      are left out of [json].
    - [datetime] values are microseconds on a [Z] time line; every
      [datetime.now()] in the source is an explicit [now] argument.
    - A value that comes out of [json.loads] is a [json]; the pydantic models
      do not validate on assignment, so the fields the engine assigns from a
      decoded payload hold a [json] value, whatever the annotation says.
    - A raised exception is a value of [exn]; a function that may raise
      returns a [result].
    - The engine object is a record; its methods take the engine and return
      the engine after the call.  Jobs are mutated through the reference the
      registry holds, which is an update of the registry entry here.
    - The background coroutine [_run_migration] is cut at its [await]
      points: one handler per thing that can happen to it there, which is
      what the child process does next or the cancellation of the task.
      The clock readings taken within one handler coincide. *)

From Stdlib Require Import ZArith QArith Qround Qabs String List Lia Lqa.
From stdpp Require Import gmap strings list fin_maps pretty.
Close Scope Q_scope.
Open Scope Z_scope.
Set Warnings "-register-all".

(** ** Decoded JSON and the Python operations applied to it *)

Inductive json : Type :=
  | JNull
  | JBool (b : bool)
  | JInt (n : Z)
  | JFloat (x : Q)
  | JStr (s : string)
  | JArr (items : list json)
  | JObj (fields : list (string * json)).

(** [type(v).__name__] *)
Definition type_name (v : json) : string :=
  match v with
  | JNull => "NoneType"
  | JBool _ => "bool"
  | JInt _ => "int"
  | JFloat _ => "float"
  | JStr _ => "str"
  | JArr _ => "list"
  | JObj _ => "dict"
  end.

(** [bool(v)] *)
Definition truthy (v : json) : bool :=
  match v with
  | JNull => false
  | JBool b => b
  | JInt n => negb (n =? 0)
  | JFloat x => negb (Qeq_bool x 0)
  | JStr s => negb (String.eqb s "")
  | JArr items => match items with [] => false | _ => true end
  | JObj fields => match fields with [] => false | _ => true end
  end.

(** The numeric value of an [int], [float] or [bool]; nothing else takes part
    in arithmetic or ordering with a number. *)
Definition as_number (v : json) : option Q :=
  match v with
  | JInt n => Some (inject_Z n)
  | JFloat x => Some x
  | JBool b => Some (if b then 1%Q else 0%Q)
  | _ => None
  end.

(** [v == s] for a string literal [s] *)
Definition eq_str (v : json) (s : string) : bool :=
  match v with
  | JStr s' => String.eqb s' s
  | _ => false
  end.

(** [v == 0] *)
Definition eq_zero (v : json) : bool :=
  match as_number v with
  | Some x => Qeq_bool x 0
  | None => false
  end.

(** The dict read from a JSON object, as the list of its items (one per
    key). *)
Fixpoint dict_lookup (fields : list (string * json)) (key : string) : option json :=
  match fields with
  | [] => None
  | (k, v) :: rest => if String.eqb k key then Some v else dict_lookup rest key
  end.

(** [d.get(key, default)] *)
Definition dict_get (fields : list (string * json)) (key : string) (default : json) : json :=
  match dict_lookup fields key with
  | Some v => v
  | None => default
  end.

(** [int(x)] of a float: truncation towards zero. *)
Definition int_of_float (x : Q) : Z :=
  if Qle_bool 0 x then Qfloor x else Qceiling x.

(** ** Exceptions *)

Inductive exn_class : Type :=
  | KeyError
  | ValueError
  | AttributeError
  | TypeError
  | UnicodeDecodeError
  | FileNotFoundError
  | OverflowError
  | ZeroDivisionError
  | OtherError.

Record exn : Type := Raise { exn_type : exn_class; exn_arg : string }.

(** [str(e)]: the argument, which [KeyError] shows quoted. *)
Definition exn_str (e : exn) : string :=
  match exn_type e with
  | KeyError => "'" +:+ exn_arg e +:+ "'"
  | _ => exn_arg e
  end.

Inductive result (A : Type) : Type :=
  | Ok (a : A)
  | Raised (e : exn).
Arguments Ok {A} a.
Arguments Raised {A} e.

#[global] Instance result_ret : MRet result := fun A a => Ok a.

#[global] Instance result_bind : MBind result := fun A B k r =>
  match r with
  | Ok a => k a
  | Raised e => Raised e
  end.

(** [v > 0] *)
Definition gt_zero (v : json) : result bool :=
  match as_number v with
  | Some x => Ok (negb (Qle_bool x 0))
  | None =>
      Raised (Raise TypeError
        ("'>' not supported between instances of '" +:+ type_name v +:+ "' and 'int'"))
  end.

(** ** Floats *)

Inductive float : Type :=
  | Finite (x : Q)
  | Infinite (negative : bool)
  | NaN.

Coercion Finite : Q >-> float.

(** The integer nearest to [n / d], for [d > 0]; a tie goes to the even
    one. *)
Definition round_half_even (n d : Z) : Z :=
  let q := n / d in
  let r := n mod d in
  if 2 * r <? d then q
  else if d <? 2 * r then q + 1
  else if Z.even q then q else q + 1.

(** [floor (log2 (n / d))], for positive [n] and [d]. *)
Definition ilog2 (n d : Z) : Z :=
  let k := Z.log2 n - Z.log2 d in
  if n * 2 ^ Z.max 0 (- k) <? d * 2 ^ Z.max 0 k then k - 1 else k.

(** The exponent of the unit in the last place of the double nearest to
    [n / d]: 53 bits of precision, and no exponent below that of the
    subnormal numbers. *)
Definition ulp_exponent (n d : Z) : Z := Z.max (ilog2 n d - 52) (-1074).

(** The double nearest to [n / d], for positive [n] and [d], ties to even,
    as if no double were too large: the nearest multiple of the unit in the
    last place. *)
Definition nearest_positive (n d : Z) : Q :=
  let e := ulp_exponent n d in
  if 0 <=? e then inject_Z (round_half_even n (d * 2 ^ e) * 2 ^ e)
  else Qred (round_half_even (n * 2 ^ (- e)) d # Z.to_pos (2 ^ (- e))).

(** The same for any [x]: rounding is symmetric. *)
Definition nearest_double (x : Q) : Q :=
  let n := Z.abs (Qnum x) in
  if n =? 0 then 0%Q
  else
    let y := nearest_positive n (Zpos (Qden x)) in
    if Qnum x <? 0 then (- y)%Q else y.

(** The float an operation with exact result [x] returns. *)
Definition binary64 (x : Q) : float :=
  let y := nearest_double x in
  if Qle_bool (inject_Z (2 ^ 1024)) (Qabs y) then Infinite (Qnum x <? 0) else Finite y.

Definition Qnegative (x : Q) : bool := Qnum x <? 0.

(** [a - b] on floats *)
Definition float_sub (a b : float) : float :=
  match a, b with
  | NaN, _ | _, NaN => NaN
  | Finite x, Finite y => binary64 (x - y)
  | Infinite s, Finite _ => Infinite s
  | Finite _, Infinite t => Infinite (negb t)
  | Infinite s, Infinite t => if Bool.eqb s t then NaN else Infinite s
  end.

(** [a * b] on floats *)
Definition float_mul (a b : float) : float :=
  match a, b with
  | NaN, _ | _, NaN => NaN
  | Finite x, Finite y => binary64 (x * y)
  | Infinite s, Finite y | Finite y, Infinite s =>
      if Qeq_bool y 0 then NaN else Infinite (xorb s (Qnegative y))
  | Infinite s, Infinite t => Infinite (xorb s t)
  end.

(** [a / b] on floats, for [b] other than zero *)
Definition float_div (a b : float) : float :=
  match a, b with
  | NaN, _ | _, NaN => NaN
  | Finite x, Finite y => binary64 (x / y)
  | Infinite s, Finite y => Infinite (xorb s (Qnegative y))
  | Finite _, Infinite _ => Finite 0
  | Infinite _, Infinite _ => NaN
  end.

(** [a > 0] and [a == 0] on a float *)
Definition float_gt_zero (a : float) : bool :=
  match a with
  | Finite x => negb (Qle_bool x 0)
  | Infinite negative => negb negative
  | NaN => false
  end.

Definition float_eq_zero (a : float) : bool :=
  match a with
  | Finite x => Qeq_bool x 0
  | _ => false
  end.

(** [int(a)] *)
Definition float_to_int (a : float) : result Z :=
  match a with
  | Finite x => Ok (int_of_float x)
  | Infinite _ => Raised (Raise OverflowError "cannot convert float infinity to integer")
  | NaN => Raised (Raise ValueError "cannot convert float NaN to integer")
  end.

(** ** Numbers: the operands of Python's arithmetic *)

Inductive number : Type :=
  | Int (n : Z)
  | Float (x : float).

(** An [int], a [bool] (which is an [int]) or a [float]; nothing else takes
    part in arithmetic. *)
Definition number_of (v : json) : option number :=
  match v with
  | JInt n => Some (Int n)
  | JBool b => Some (Int (if b then 1 else 0))
  | JFloat x => Some (Float (Finite x))
  | _ => None
  end.

(** The conversion of an operand to [float] that mixed arithmetic makes. *)
Definition to_float (a : number) : result float :=
  match a with
  | Float x => Ok x
  | Int n =>
      match binary64 (inject_Z n) with
      | Infinite _ => Raised (Raise OverflowError "int too large to convert to float")
      | x => Ok x
      end
  end.

(** [a - b]: exact on two integers, in floats otherwise. *)
Definition number_sub (a b : number) : result number :=
  match a, b with
  | Int m, Int n => Ok (Int (m - n))
  | _, _ =>
      x ← to_float a;
      y ← to_float b;
      Ok (Float (float_sub x y))
  end.

(** [a / b]: the quotient of two integers is rounded once; otherwise both
    operands become floats first. *)
Definition number_truediv (a b : number) : result float :=
  match a, b with
  | Int m, Int n =>
      if n =? 0 then Raised (Raise ZeroDivisionError "division by zero")
      else
        match binary64 (inject_Z m / inject_Z n) with
        | Infinite _ =>
            Raised (Raise OverflowError "integer division result too large for a float")
        | q => Ok q
        end
  | _, _ =>
      x ← to_float a;
      y ← to_float b;
      if float_eq_zero y then Raised (Raise ZeroDivisionError "float division by zero")
      else Ok (float_div x y)
  end.

(** [a * b] for a float [a] and an integer [b] *)
Definition float_times (a : float) (b : Z) : result float :=
  y ← to_float (Int b);
  Ok (float_mul a y).

Definition unsupported_operands (operator : string) (a b : json) : exn :=
  Raise TypeError
    ("unsupported operand type(s) for " +:+ operator +:+ ": '" +:+ type_name a
       +:+ "' and '" +:+ type_name b +:+ "'").

(** [a - b] on decoded values *)
Definition py_sub (a b : json) : result number :=
  match number_of a, number_of b with
  | Some x, Some y => number_sub x y
  | _, _ => Raised (unsupported_operands "-" a b)
  end.

(** [a / b] on decoded values *)
Definition py_truediv (a b : json) : result float :=
  match number_of a, number_of b with
  | Some x, Some y => number_truediv x y
  | _, _ => Raised (unsupported_operands "/" a b)
  end.

(** ** models/migration.py *)

Inductive MigrationStatus : Type :=
  | QUEUED
  | RUNNING
  | PAUSED
  | COMPLETED
  | FAILED
  | CANCELLED.

#[global] Instance MigrationStatus_eq_dec : EqDecision MigrationStatus.
Proof. solve_decision. Defined.

Module TableSelection.
Record t : Type := Build {
  schema_name : string;
  table_name : string;
  row_count : option Z;
  size_bytes : option Z
}.

Definition full_name (self : t) : string :=
  schema_name self +:+ "." +:+ table_name self.
End TableSelection.

Module MigrationProgress.
Record t : Type := Build {
  total_tables : Z;
  completed_tables : Z;
  current_table : json;
  current_table_progress : json;
  total_rows : json;
  migrated_rows : json;
  rows_per_second : float;
  eta_seconds : option Z
}.

(** [MigrationProgress(total_tables=n)] *)
Definition new (n : Z) : t :=
  {| total_tables := n; completed_tables := 0; current_table := JNull;
     current_table_progress := JFloat 0; total_rows := JInt 0;
     migrated_rows := JInt 0; rows_per_second := 0%Q; eta_seconds := None |}.

Definition percentage (self : t) : result float :=
  if eq_zero (total_rows self) then
    if total_tables self =? 0 then Ok (Finite 0)
    else
      q ← number_truediv (Int (completed_tables self)) (Int (total_tables self));
      float_times q 100
  else
    q ← py_truediv (migrated_rows self) (total_rows self);
    float_times q 100.
End MigrationProgress.

Module MigrationConfig.
Record t : Type := Build {
  source_connection_id : string;
  target_connection_id : string;
  staging_area_id : string;
  tables : list TableSelection.t;
  target_schema : option string;
  table_prefix : string;
  table_suffix : string
}.
End MigrationConfig.

Module Migration.
Record t : Type := Build {
  id : string;
  source_connection_id : string;
  target_connection_id : string;
  staging_area_id : string;
  tables : list TableSelection.t;
  target_schema : option string;
  status : MigrationStatus;
  progress : MigrationProgress.t;
  started_at : option Z;
  completed_at : option Z;
  error : json;
  cli_process_id : option Z
}.

Definition set_status (s : MigrationStatus) (m : t) : t :=
  Build (id m) (source_connection_id m) (target_connection_id m)
    (staging_area_id m) (tables m) (target_schema m) s (progress m)
    (started_at m) (completed_at m) (error m) (cli_process_id m).

Definition set_progress (p : MigrationProgress.t) (m : t) : t :=
  Build (id m) (source_connection_id m) (target_connection_id m)
    (staging_area_id m) (tables m) (target_schema m) (status m) p
    (started_at m) (completed_at m) (error m) (cli_process_id m).

Definition set_started_at (ts : option Z) (m : t) : t :=
  Build (id m) (source_connection_id m) (target_connection_id m)
    (staging_area_id m) (tables m) (target_schema m) (status m) (progress m)
    ts (completed_at m) (error m) (cli_process_id m).

Definition set_completed_at (ts : option Z) (m : t) : t :=
  Build (id m) (source_connection_id m) (target_connection_id m)
    (staging_area_id m) (tables m) (target_schema m) (status m) (progress m)
    (started_at m) ts (error m) (cli_process_id m).

Definition set_error (msg : json) (m : t) : t :=
  Build (id m) (source_connection_id m) (target_connection_id m)
    (staging_area_id m) (tables m) (target_schema m) (status m) (progress m)
    (started_at m) (completed_at m) msg (cli_process_id m).

Definition set_cli_process_id (pid : option Z) (m : t) : t :=
  Build (id m) (source_connection_id m) (target_connection_id m)
    (staging_area_id m) (tables m) (target_schema m) (status m) (progress m)
    (started_at m) (completed_at m) (error m) pid.
End Migration.

(** ** models/connection.py

    Only the fields the engine reads are kept; the connection-test state
    ([status], [last_tested], [error_message]) and [jdbc_options] play no part
    in a migration. *)

Inductive SourceType : Type :=
  | POSTGRES
  | MYSQL
  | ORACLE
  | SQLSERVER
  | JDBC.

Definition SourceType_value (ty : SourceType) : string :=
  match ty with
  | POSTGRES => "postgres"
  | MYSQL => "mysql"
  | ORACLE => "oracle"
  | SQLSERVER => "sqlserver"
  | JDBC => "jdbc"
  end.

Record SecretStr : Type := Secret { get_secret_value : string }.

Module SourceConnection.
Record t : Type := Build {
  id : string;
  name : string;
  type : SourceType;
  host : string;
  port : Z;
  database : string;
  username : string;
  password : SecretStr
}.
End SourceConnection.

Module SnowflakeConnection.
Record t : Type := Build {
  id : string;
  name : string;
  account : string;
  warehouse : string;
  database : string;
  schema_name : string;
  username : string;
  password : SecretStr;
  role : option string
}.
End SnowflakeConnection.

(** ** services/connection_manager.py *)

Record ConnectionManager : Type := {
  _source_connections : gmap string SourceConnection.t;
  _snowflake_connections : gmap string SnowflakeConnection.t
}.

Definition get_source_connection (self : ConnectionManager) (connection_id : string)
    : option SourceConnection.t :=
  _source_connections self !! connection_id.

Definition get_snowflake_connection (self : ConnectionManager) (connection_id : string)
    : option SnowflakeConnection.t :=
  _snowflake_connections self !! connection_id.

(** ** config.py *)

Record CLIConfig : Type := { path : string; timeout_seconds : Z }.

Record PerformanceConfig : Type := {
  max_concurrent_migrations : Z;
  progress_poll_interval_ms : Z
}.

Record AppConfig : Type := { cli : CLIConfig; performance : PerformanceConfig }.

(** ** services/migration_engine.py: the engine object *)

Inductive signal : Type :=
  | SIGINT
  | SIGTERM
  | SIGKILL.

(** A process handle as [_processes] would hold it. *)
Record Popen : Type := { pid : Z }.

(** What [asyncio.create_task(self._run_migration(migration_id, args, env))]
    hands to the event loop. *)
Record invocation : Type := {
  inv_migration_id : string;
  inv_args : list string;
  inv_env : gmap string string
}.

(** The attributes of [MigrationEngine], followed by two logs of what the
    engine did to the outside world: the coroutines it scheduled and the
    signals it delivered (process id and signal, oldest first). *)
Record MigrationEngine : Type := Engine {
  _connection_manager : ConnectionManager;
  _migrations : gmap string Migration.t;
  _processes : gmap string Popen;
  _config : AppConfig;
  _progress_queues : gmap string (list MigrationProgress.t);
  scheduled : list invocation;
  delivered : list (Z * signal)
}.

Definition set_migrations (ms : gmap string Migration.t) (self : MigrationEngine)
    : MigrationEngine :=
  Engine (_connection_manager self) ms (_processes self) (_config self)
    (_progress_queues self) (scheduled self) (delivered self).

Definition set_processes (ps : gmap string Popen) (self : MigrationEngine)
    : MigrationEngine :=
  Engine (_connection_manager self) (_migrations self) ps (_config self)
    (_progress_queues self) (scheduled self) (delivered self).

Definition set_progress_queues (qs : gmap string (list MigrationProgress.t))
    (self : MigrationEngine) : MigrationEngine :=
  Engine (_connection_manager self) (_migrations self) (_processes self)
    (_config self) qs (scheduled self) (delivered self).

Definition create_task (inv : invocation) (self : MigrationEngine) : MigrationEngine :=
  Engine (_connection_manager self) (_migrations self) (_processes self)
    (_config self) (_progress_queues self) (scheduled self ++ [inv]) (delivered self).

Definition deliver (p : Popen) (sig : signal) (self : MigrationEngine) : MigrationEngine :=
  Engine (_connection_manager self) (_migrations self) (_processes self)
    (_config self) (_progress_queues self) (scheduled self)
    (delivered self ++ [(pid p, sig)]).

(** [MigrationEngine(connection_manager)] under configuration [cfg] *)
Definition __init__ (connection_manager : ConnectionManager) (cfg : AppConfig)
    : MigrationEngine :=
  Engine connection_manager ∅ ∅ cfg ∅ [] [].

(** [create_migration]; [new_id] is the [uuid4] the [Migration] constructor
    draws.  Returns the job and the engine that now holds it. *)
Definition create_migration (config : MigrationConfig.t) (new_id : string)
    (self : MigrationEngine) : Migration.t * MigrationEngine :=
  let migration :=
    Migration.Build new_id
      (MigrationConfig.source_connection_id config)
      (MigrationConfig.target_connection_id config)
      (MigrationConfig.staging_area_id config)
      (MigrationConfig.tables config)
      (MigrationConfig.target_schema config)
      QUEUED
      (MigrationProgress.new (Z.of_nat (length (MigrationConfig.tables config))))
      None None JNull None in
  (migration,
   set_progress_queues (<[new_id := []]> (_progress_queues self))
     (set_migrations (<[new_id := migration]> (_migrations self)) self)).

Definition get_migration (migration_id : string) (self : MigrationEngine)
    : option Migration.t :=
  _migrations self !! migration_id.

(** [list_migrations]: the registry's values.  Python lists them in insertion
    order, the map in key order; nothing below depends on the order. *)
Definition list_migrations (self : MigrationEngine) : list Migration.t :=
  (map_to_list (_migrations self)).*2.

Definition is_active (s : MigrationStatus) : bool :=
  match s with
  | RUNNING | QUEUED | PAUSED => true
  | _ => false
  end.

Definition list_active_migrations (self : MigrationEngine) : list Migration.t :=
  filter (fun m => is_active (Migration.status m) = true) (list_migrations self).

(** [sep.join(parts)] *)
Fixpoint join (sep : string) (parts : list string) : string :=
  match parts with
  | [] => ""
  | [p] => p
  | p :: rest => p +:+ sep +:+ join sep rest
  end.

(** [a or b] on an optional string: [None] and the empty string are falsy. *)
Definition or_else (a : option string) (b : string) : string :=
  match a with
  | Some s => if String.eqb s "" then b else s
  | None => b
  end.

(** The argument list [start_migration] builds. *)
Definition migrate_args (source_conn : SourceConnection.t)
    (target_conn : SnowflakeConnection.t) (migration : Migration.t) : list string :=
  let tables_str := join "," (map TableSelection.full_name (Migration.tables migration)) in
  [ "migrate";
    "--source-type"; SourceType_value (SourceConnection.type source_conn);
    "--source-host"; SourceConnection.host source_conn;
    "--source-port"; pretty (SourceConnection.port source_conn);
    "--source-database"; SourceConnection.database source_conn;
    "--source-user"; SourceConnection.username source_conn;
    "--tables"; tables_str;
    "--target-account"; SnowflakeConnection.account target_conn;
    "--target-warehouse"; SnowflakeConnection.warehouse target_conn;
    "--target-database"; SnowflakeConnection.database target_conn;
    "--target-schema";
      or_else (Migration.target_schema migration)
        (SnowflakeConnection.schema_name target_conn);
    "--target-user"; SnowflakeConnection.username target_conn;
    "--staging-id"; Migration.staging_area_id migration;
    "--progress-format"; "json" ].

(** The credential map [start_migration] builds. *)
Definition migrate_env (source_conn : SourceConnection.t)
    (target_conn : SnowflakeConnection.t) : gmap string string :=
  <["SNOWMIGRATE_TARGET_PASSWORD" :=
      get_secret_value (SnowflakeConnection.password target_conn)]>
  (<["SNOWMIGRATE_SOURCE_PASSWORD" :=
      get_secret_value (SourceConnection.password source_conn)]> ∅).

(** [process_env = os.environ.copy(); if env: process_env.update(env)] *)
Definition process_env (os_environ : gmap string string) (env : gmap string string)
    : gmap string string :=
  env ∪ os_environ.

(** The exceptions the control operations raise. *)
Definition MigrationNotFound (migration_id : string) : exn :=
  Raise KeyError ("Migration not found: " +:+ migration_id).

Definition status_str (s : MigrationStatus) : string :=
  match s with
  | QUEUED => "MigrationStatus.QUEUED"
  | RUNNING => "MigrationStatus.RUNNING"
  | PAUSED => "MigrationStatus.PAUSED"
  | COMPLETED => "MigrationStatus.COMPLETED"
  | FAILED => "MigrationStatus.FAILED"
  | CANCELLED => "MigrationStatus.CANCELLED"
  end.

Definition CannotStart (s : MigrationStatus) : exn :=
  Raise ValueError ("Cannot start migration in " +:+ status_str s +:+ " state").

Definition ConnectionNotFound : exn :=
  Raise ValueError "Source or target connection not found".

Definition ConcurrencyLimitExceeded (limit : Z) : exn :=
  Raise ValueError ("Maximum concurrent migrations (" +:+ pretty limit +:+ ") reached").

Definition CanOnlyPauseRunning : exn :=
  Raise ValueError "Can only pause running migrations".

Definition startable (s : MigrationStatus) : bool :=
  match s with
  | QUEUED | PAUSED => true
  | _ => false
  end.

(** [start_migration] *)
Definition start_migration (migration_id : string) (now : Z) (self : MigrationEngine)
    : result unit * MigrationEngine :=
  match _migrations self !! migration_id with
  | None => (Raised (MigrationNotFound migration_id), self)
  | Some migration =>
      if negb (startable (Migration.status migration)) then
        (Raised (CannotStart (Migration.status migration)), self)
      else
        match get_source_connection (_connection_manager self)
                (Migration.source_connection_id migration),
              get_snowflake_connection (_connection_manager self)
                (Migration.target_connection_id migration) with
        | Some source_conn, Some target_conn =>
            let migration :=
              Migration.set_started_at (Some now) (Migration.set_status RUNNING migration) in
            let self :=
              set_migrations (<[migration_id := migration]> (_migrations self)) self in
            let active_count := Z.of_nat (length (list_active_migrations self)) in
            let limit := max_concurrent_migrations (performance (_config self)) in
            if limit <? active_count then
              (Raised (ConcurrencyLimitExceeded limit),
               set_migrations
                 (<[migration_id := Migration.set_status QUEUED migration]>
                    (_migrations self)) self)
            else
              (Ok (),
               create_task
                 {| inv_migration_id := migration_id;
                    inv_args := migrate_args source_conn target_conn migration;
                    inv_env := migrate_env source_conn target_conn |} self)
        | _, _ => (Raised ConnectionNotFound, self)
        end
  end.

(** [pause_migration] *)
Definition pause_migration (migration_id : string) (self : MigrationEngine)
    : result unit * MigrationEngine :=
  match _migrations self !! migration_id with
  | None => (Raised (MigrationNotFound migration_id), self)
  | Some migration =>
      if negb (bool_decide (Migration.status migration = RUNNING)) then
        (Raised CanOnlyPauseRunning, self)
      else
        let self :=
          match _processes self !! migration_id with
          | Some process => deliver process SIGINT self
          | None => self
          end in
        (Ok (),
         set_migrations
           (<[migration_id := Migration.set_status PAUSED migration]> (_migrations self))
           self)
  end.

(** [resume_migration] *)
Definition resume_migration (migration_id : string) (now : Z) (self : MigrationEngine)
    : result unit * MigrationEngine :=
  start_migration migration_id now self.

(** [cancel_migration].  [timed_out] tells whether [process.wait(timeout=5)]
    raises [TimeoutExpired], that is, whether the child is still alive five
    seconds after [terminate()]; it is consulted only when a process handle
    is found. *)
Definition cancel_migration (migration_id : string) (now : Z) (timed_out : bool)
    (self : MigrationEngine) : result unit * MigrationEngine :=
  match _migrations self !! migration_id with
  | None => (Raised (MigrationNotFound migration_id), self)
  | Some migration =>
      let self :=
        match _processes self !! migration_id with
        | Some process =>
            let self := deliver process SIGTERM self in
            if timed_out then deliver process SIGKILL self else self
        | None => self
        end in
      (Ok (),
       set_migrations
         (<[migration_id :=
              Migration.set_completed_at (Some now)
                (Migration.set_status CANCELLED migration)]> (_migrations self))
         self)
  end.

(** ** services/migration_engine.py: the progress parser *)

(** The [if]/[elif] chain of [_parse_progress] on the message type. *)
Definition apply_message (msg_type : json) (data : list (string * json))
    (progress : MigrationProgress.t) : MigrationProgress.t :=
  let (total_tables, completed_tables, current_table, current_table_progress,
       total_rows, migrated_rows, rows_per_second, eta_seconds) := progress in
  if eq_str msg_type "progress" then
    MigrationProgress.Build total_tables completed_tables
      (dict_get data "table" JNull)
      (dict_get data "percentage" (JInt 0))
      (dict_get data "total_rows" total_rows)
      (dict_get data "rows_migrated" migrated_rows)
      rows_per_second eta_seconds
  else if eq_str msg_type "table_complete" then
    MigrationProgress.Build total_tables (completed_tables + 1) JNull
      current_table_progress total_rows migrated_rows rows_per_second eta_seconds
  else if eq_str msg_type "complete" then
    MigrationProgress.Build total_tables total_tables current_table
      current_table_progress total_rows total_rows rows_per_second eta_seconds
  else progress.

(** [timedelta.total_seconds()] of a difference in microseconds: the
    quotient of two integers, rounded once.  A [timedelta] is less than
    [10 ^ 9] days, so the quotient is never too large for a float. *)
Definition total_seconds (delta : Z) : Q := nearest_double (inject_Z delta / 1000000).

(** The throughput and ETA block that closes [_parse_progress]. *)
Definition estimate (progress : MigrationProgress.t) (started_at : option Z) (now : Z)
    : result MigrationProgress.t :=
  let (total_tables, completed_tables, current_table, current_table_progress,
       total_rows, migrated_rows, rows_per_second, eta_seconds) := progress in
  moving ← gt_zero migrated_rows;
  match moving, started_at with
  | true, Some started =>
      let elapsed := total_seconds (now - started) in
      if negb (Qle_bool elapsed 0) then
        rows_per_second ← py_truediv migrated_rows (JFloat elapsed);
        remaining_rows ← py_sub total_rows migrated_rows;
        if float_gt_zero rows_per_second then
          eta ← number_truediv remaining_rows (Float rows_per_second) ≫= float_to_int;
          Ok (MigrationProgress.Build total_tables completed_tables current_table
                current_table_progress total_rows migrated_rows rows_per_second
                (Some eta))
        else
          Ok (MigrationProgress.Build total_tables completed_tables current_table
                current_table_progress total_rows migrated_rows rows_per_second
                eta_seconds)
      else Ok progress
  | _, _ => Ok progress
  end.

Definition no_attribute_get (data : json) : exn :=
  Raise AttributeError ("'" +:+ type_name data +:+ "' object has no attribute 'get'").

(** [_parse_progress(data, migration)], the clock reading [now]. *)
Definition _parse_progress (data : json) (migration : Migration.t) (now : Z)
    : result MigrationProgress.t :=
  let progress := Migration.progress migration in
  match data with
  | JObj fields =>
      let msg_type := dict_get fields "type" (JStr "") in
      estimate (apply_message msg_type fields progress) (Migration.started_at migration) now
  | _ => Raised (no_attribute_get data)
  end.

(** ** services/migration_engine.py: the background run *)

(** One line of a child stream, by what [json.loads(line.decode().strip())]
    does with it. *)
Inductive line : Type :=
  | Undecodable (msg : string)   (* [decode] raises [UnicodeDecodeError] *)
  | NotJson                      (* [json.loads] raises [JSONDecodeError] *)
  | Decoded (data : json).

(** Body of the loop in [read_progress], for one line of stdout.  The result
    tells whether an exception leaves the reader. *)
Definition read_progress (migration_id : string) (l : line) (now : Z)
    (self : MigrationEngine) : result unit * MigrationEngine :=
  match _migrations self !! migration_id with
  | None => (Ok (), self)
  | Some migration =>
      match l with
      | Undecodable msg => (Raised (Raise UnicodeDecodeError msg), self)
      | NotJson => (Ok (), self)
      | Decoded data =>
          match _parse_progress data migration now with
          | Raised e => (Raised e, self)
          | Ok progress =>
              let self :=
                set_migrations
                  (<[migration_id := Migration.set_progress progress migration]>
                     (_migrations self)) self in
              match _progress_queues self !! migration_id with
              | Some queue =>
                  (Ok (),
                   set_progress_queues
                     (<[migration_id := queue ++ [progress]]> (_progress_queues self))
                     self)
              | None => (Ok (), self)
              end
          end
      end
  end.

(** Body of the loop in [read_errors], for one line of stderr. *)
Definition read_errors (migration_id : string) (l : line) (self : MigrationEngine)
    : result unit * MigrationEngine :=
  match _migrations self !! migration_id with
  | None => (Ok (), self)
  | Some migration =>
      match l with
      | Undecodable msg => (Raised (Raise UnicodeDecodeError msg), self)
      | NotJson => (Ok (), self)
      | Decoded (JObj fields) =>
          if eq_str (dict_get fields "type" JNull) "error" then
            (Ok (),
             set_migrations
               (<[migration_id :=
                    Migration.set_error (dict_get fields "message" (JStr "Unknown error"))
                      migration]> (_migrations self)) self)
          else (Ok (), self)
      | Decoded data => (Raised (no_attribute_get data), self)
      end
  end.

(** The [finally] clause of [_run_migration]. *)
Definition finalize (migration_id : string) (now : Z) (self : MigrationEngine)
    : MigrationEngine :=
  match _migrations self !! migration_id with
  | None => self
  | Some migration =>
      set_processes (delete migration_id (_processes self))
        (set_migrations
           (<[migration_id := Migration.set_completed_at (Some now) migration]>
              (_migrations self)) self)
  end.

(** An [except] clause of [_run_migration] followed by [finally]: the job
    fails with [message]. *)
Definition fail (migration_id : string) (message : string) (now : Z)
    (self : MigrationEngine) : MigrationEngine :=
  match _migrations self !! migration_id with
  | None => self
  | Some migration =>
      finalize migration_id now
        (set_migrations
           (<[migration_id :=
                Migration.set_error (JStr message) (Migration.set_status FAILED migration)]>
              (_migrations self)) self)
  end.

(** What follows [await proc.wait()]: the exit code decides the status. *)
Definition on_exit (migration_id : string) (returncode : Z) (now : Z)
    (self : MigrationEngine) : MigrationEngine :=
  match _migrations self !! migration_id with
  | None => self
  | Some migration =>
      let migration :=
        if returncode =? 0 then Migration.set_status COMPLETED migration
        else
          let migration := Migration.set_status FAILED migration in
          if negb (truthy (Migration.error migration)) then
            Migration.set_error (JStr ("CLI exited with code " +:+ pretty returncode))
              migration
          else migration in
      finalize migration_id now
        (set_migrations (<[migration_id := migration]> (_migrations self)) self)
  end.

(** What the child process does next, as [_run_migration] observes it. *)
Inductive launch : Type :=
  | LaunchOk (child_pid : Z)     (* [create_subprocess_exec] returns *)
  | LaunchNotFound               (* it raises [FileNotFoundError] *)
  | LaunchError (e : exn).       (* it raises something else *)

(** What happens next to the coroutine at the [await] it is suspended at.
    [TaskCancelled] is the cancellation of its task: [asyncio.CancelledError]
    is raised there, which derives from [BaseException], so neither [except]
    clause handles it and only the [finally] clause runs. *)
Inductive child_event : Type :=
  | Launch (outcome : launch)
  | Stdout (l : line)
  | Stderr (l : line)
  | Exit (returncode : Z)
  | TaskCancelled.

(** [_run_migration] from one [await] to the next.  The flag tells whether
    the coroutine is still running afterwards.  An exception that leaves a
    reader leaves [asyncio.gather] and is handled by [except Exception]. *)
Definition _run_migration_step (migration_id : string) (ev : child_event) (now : Z)
    (self : MigrationEngine) : bool * MigrationEngine :=
  match _migrations self !! migration_id with
  | None => (false, self)
  | Some migration =>
      match ev with
      | Launch (LaunchOk child_pid) =>
          (true,
           set_migrations
             (<[migration_id := Migration.set_cli_process_id (Some child_pid) migration]>
                (_migrations self)) self)
      | Launch LaunchNotFound =>
          (false,
           fail migration_id ("CLI tool not found at " +:+ path (cli (_config self))) now self)
      | Launch (LaunchError e) => (false, fail migration_id (exn_str e) now self)
      | Stdout l =>
          match read_progress migration_id l now self with
          | (Ok _, self) => (true, self)
          | (Raised e, self) => (false, fail migration_id (exn_str e) now self)
          end
      | Stderr l =>
          match read_errors migration_id l self with
          | (Ok _, self) => (true, self)
          | (Raised e, self) => (false, fail migration_id (exn_str e) now self)
          end
      | Exit returncode => (false, on_exit migration_id returncode now self)
      | TaskCancelled => (false, finalize migration_id now self)
      end
  end.

(** A whole run of [_run_migration] against a child that behaves as [events]
    says, each event with the clock reading at which it is handled; the two
    streams appear in the order the event loop serves them. *)
Fixpoint _run_migration (migration_id : string) (events : list (child_event * Z))
    (self : MigrationEngine) : MigrationEngine :=
  match events with
  | [] => self
  | (ev, now) :: rest =>
      let (running, self) := _run_migration_step migration_id ev now self in
      if running then _run_migration migration_id rest self else self
  end.

(** ** The engine as a transition system *)

(** Everything that can happen to an engine: a call of one of its public
    methods, a change made to the connection manager it shares with the
    screens, or progress of one of its background runs. *)
Inductive op : Type :=
  | Create (config : MigrationConfig.t) (new_id : string)
  | Start (migration_id : string) (now : Z)
  | Pause (migration_id : string)
  | Resume (migration_id : string) (now : Z)
  | Cancel (migration_id : string) (now : Z) (timed_out : bool)
  | Connections (manager : ConnectionManager)
  | Child (migration_id : string) (ev : child_event) (now : Z).

Definition step (o : op) (self : MigrationEngine) : MigrationEngine :=
  match o with
  | Create config new_id => snd (create_migration config new_id self)
  | Start migration_id now => snd (start_migration migration_id now self)
  | Pause migration_id => snd (pause_migration migration_id self)
  | Resume migration_id now => snd (resume_migration migration_id now self)
  | Cancel migration_id now timed_out =>
      snd (cancel_migration migration_id now timed_out self)
  | Connections manager =>
      Engine manager (_migrations self) (_processes self) (_config self)
        (_progress_queues self) (scheduled self) (delivered self)
  | Child migration_id ev now => snd (_run_migration_step migration_id ev now self)
  end.

Definition run (ops : list op) (self : MigrationEngine) : MigrationEngine :=
  fold_left (fun e o => step o e) ops self.

(** [uuid4] draws an id the registry does not hold yet. *)
Definition admissible (o : op) (self : MigrationEngine) : Prop :=
  match o with
  | Create _ new_id => _migrations self !! new_id = None
  | _ => True
  end.

(** The engines a program can hold: a fresh one, and whatever one operation
    makes of one it can hold. *)
Inductive reachable : MigrationEngine -> Prop :=
  | reachable_init manager cfg : reachable (__init__ manager cfg)
  | reachable_step o self :
      reachable self -> admissible o self -> reachable (step o self).

(** A list of operations draws fresh ids at each of its [Create]s. *)
Fixpoint fresh_ids (ops : list op) (self : MigrationEngine) : bool :=
  match ops with
  | [] => true
  | o :: rest =>
      match o with
      | Create _ new_id =>
          match _migrations self !! new_id with None => true | Some _ => false end
      | _ => true
      end && fresh_ids rest (step o self)
  end.

(** ** A small installation used in the examples

    One PostgreSQL source, one Snowflake target, a ceiling of one concurrent
    migration, and job specifications over one and two tables. *)

Module Demo.
Definition source : SourceConnection.t :=
  SourceConnection.Build "src-1" "Orders DB" POSTGRES "db.internal" 5432 "orders"
    "etl" (Secret "s3cr3t-src").

Definition target : SnowflakeConnection.t :=
  SnowflakeConnection.Build "tgt-1" "Warehouse" "acme-eu" "LOAD_WH" "ANALYTICS"
    "PUBLIC" "loader" (Secret "s3cr3t-tgt") None.

Definition manager : ConnectionManager :=
  {| _source_connections := {[ "src-1" := source ]};
     _snowflake_connections := {[ "tgt-1" := target ]} |}.

Definition cfg (limit : Z) : AppConfig :=
  {| cli := {| path := "/usr/local/bin/migrate-tool"; timeout_seconds := 3600 |};
     performance :=
       {| max_concurrent_migrations := limit; progress_poll_interval_ms := 1000 |} |}.

Definition users : TableSelection.t := TableSelection.Build "public" "users" None None.
Definition orders : TableSelection.t := TableSelection.Build "public" "orders" None None.

Definition spec (tables : list TableSelection.t) : MigrationConfig.t :=
  MigrationConfig.Build "src-1" "tgt-1" "s3-default" tables None "" "".

Definition engine (limit : Z) : MigrationEngine := __init__ manager (cfg limit).

(** Job ["a"] over one table, created. *)
Definition created : MigrationEngine :=
  run [Create (spec [users]) "a"] (engine 10).

Definition job_created : Migration.t :=
  Migration.Build "a" "src-1" "tgt-1" "s3-default" [users] None QUEUED
    (MigrationProgress.new 1) None None JNull None.

(** The same job started and with its child launched as process 4242. *)
Definition running : MigrationEngine :=
  run [Create (spec [users]) "a"; Start "a" 1000000; Child "a" (Launch (LaunchOk 4242)) 1000001]
    (engine 10).

(** The same job after its child exited with code 0. *)
Definition completed : MigrationEngine :=
  run [Child "a" (Exit 0) 9000000] running.

(** Job ["a"] as the two engines hold it. *)
Definition job_running : Migration.t :=
  Migration.Build "a" "src-1" "tgt-1" "s3-default" [users] None RUNNING
    (MigrationProgress.new 1) (Some 1000000) None JNull (Some 4242).

Definition job_completed : Migration.t :=
  Migration.Build "a" "src-1" "tgt-1" "s3-default" [users] None COMPLETED
    (MigrationProgress.new 1) (Some 1000000) (Some 9000000) JNull (Some 4242).

(** Ceiling 1: job ["a"] started, then job ["b"] created. *)
Definition one_running_one_queued : MigrationEngine :=
  run [Create (spec [users]) "a"; Start "a" 1000000; Create (spec [orders]) "b"]
    (engine 1).

(** Ceiling 1: job ["a"] started and paused, then job ["b"] created. *)
Definition one_paused_one_queued : MigrationEngine :=
  run [Create (spec [users]) "a"; Start "a" 1000000; Pause "a";
       Create (spec [orders]) "b"] (engine 1).

Definition job_queued : Migration.t :=
  Migration.Build "b" "src-1" "tgt-1" "s3-default" [orders] None QUEUED
    (MigrationProgress.new 1) None None JNull None.
End Demo.

(** The job registered under [migration_id], field by field. *)
Definition status_of (migration_id : string) (self : MigrationEngine)
    : option MigrationStatus :=
  Migration.status <$> _migrations self !! migration_id.

Definition progress_of (migration_id : string) (self : MigrationEngine)
    : option MigrationProgress.t :=
  Migration.progress <$> _migrations self !! migration_id.

Definition error_of (migration_id : string) (self : MigrationEngine) : option json :=
  Migration.error <$> _migrations self !! migration_id.

Definition completed_at_of (migration_id : string) (self : MigrationEngine)
    : option (option Z) :=
  Migration.completed_at <$> _migrations self !! migration_id.

(** ** Vocabulary of the properties *)

Definition terminal (s : MigrationStatus) : bool :=
  match s with
  | COMPLETED | FAILED | CANCELLED => true
  | _ => false
  end.

(** A status a job can only have after it was [RUNNING] and left it through
    a pause or the end of a run (or through a cancel). *)
Definition left_running (s : MigrationStatus) : bool :=
  match s with
  | PAUSED | COMPLETED | FAILED | CANCELLED => true
  | _ => false
  end.

Definition running_or_queued (s : MigrationStatus) : bool :=
  match s with
  | RUNNING | QUEUED => true
  | _ => false
  end.

Definition is_running (s : MigrationStatus) : bool :=
  match s with
  | RUNNING => true
  | _ => false
  end.

(** The number of registered jobs whose status satisfies [f]. *)
Definition count_status (f : MigrationStatus -> bool) (ms : gmap string Migration.t) : Z :=
  Z.of_nat (length (filter (fun m => f (Migration.status m) = true) (map_to_list ms).*2)).

(** [needle] occurs in [s]. *)
Definition contains (needle s : string) : Prop :=
  exists before after, s = before +:+ needle +:+ after.

(** The bounds a snapshot is expected to respect: no more tables completed
    than there are, and, when both row counters hold integers and the total
    is known to be positive, no more rows migrated than there are. *)
Definition tables_bounded (p : MigrationProgress.t) : Prop :=
  MigrationProgress.completed_tables p <= MigrationProgress.total_tables p.

Definition rows_bounded (p : MigrationProgress.t) : Prop :=
  forall total migrated,
    MigrationProgress.total_rows p = JInt total ->
    MigrationProgress.migrated_rows p = JInt migrated ->
    0 < total -> migrated <= total.

Definition snapshot_bounded (p : MigrationProgress.t) : Prop :=
  tables_bounded p /\ rows_bounded p.

(** No process handle is registered and no signal was ever delivered. *)
Definition unbound (self : MigrationEngine) : Prop :=
  _processes self = ∅ /\ delivered self = [].

(** The fixed words of the command line, and the values it takes from the
    two connections and the job: none of them is a password field. *)
Definition flags : list string :=
  [ "migrate"; "--source-type"; "--source-host"; "--source-port"; "--source-database";
    "--source-user"; "--tables"; "--target-account"; "--target-warehouse";
    "--target-database"; "--target-schema"; "--target-user"; "--staging-id";
    "--progress-format"; "json" ].

Definition nonsecret_values (source_conn : SourceConnection.t)
    (target_conn : SnowflakeConnection.t) (migration : Migration.t) : list string :=
  [ SourceType_value (SourceConnection.type source_conn);
    SourceConnection.host source_conn;
    pretty (SourceConnection.port source_conn);
    SourceConnection.database source_conn;
    SourceConnection.username source_conn;
    join "," (map TableSelection.full_name (Migration.tables migration));
    SnowflakeConnection.account target_conn;
    SnowflakeConnection.warehouse target_conn;
    SnowflakeConnection.database target_conn;
    or_else (Migration.target_schema migration)
      (SnowflakeConnection.schema_name target_conn);
    SnowflakeConnection.username target_conn;
    Migration.staging_area_id migration ].

(** A connection with its password replaced, all else equal. *)
Definition set_source_password (secret : SecretStr) (c : SourceConnection.t)
    : SourceConnection.t :=
  SourceConnection.Build (SourceConnection.id c) (SourceConnection.name c)
    (SourceConnection.type c) (SourceConnection.host c) (SourceConnection.port c)
    (SourceConnection.database c) (SourceConnection.username c) secret.

Definition set_target_password (secret : SecretStr) (c : SnowflakeConnection.t)
    : SnowflakeConnection.t :=
  SnowflakeConnection.Build (SnowflakeConnection.id c) (SnowflakeConnection.name c)
    (SnowflakeConnection.account c) (SnowflakeConnection.warehouse c)
    (SnowflakeConnection.database c) (SnowflakeConnection.schema_name c)
    (SnowflakeConnection.username c) secret (SnowflakeConnection.role c).

(** A stderr line that records an error message on the job. *)
Definition records_error (ev : child_event) : bool :=
  match ev with
  | Stderr (Decoded (JObj fields)) => eq_str (dict_get fields "type" JNull) "error"
  | _ => false
  end.

(** *** Readings of the specification that the engine does not satisfy

    Each is stated here as the specification words it and refuted below. *)

(** "Once a job has entered a terminal status its record is immutable." *)
Definition terminal_jobs_immutable : Prop :=
  forall self o migration_id migration,
    reachable self -> admissible o self ->
    _migrations self !! migration_id = Some migration ->
    terminal (Migration.status migration) = true ->
    _migrations (step o self) !! migration_id = Some migration.

(** "Once a job leaves Running, its snapshot no longer changes." *)
Definition snapshot_frozen_after_running : Prop :=
  forall self o migration_id migration,
    reachable self -> admissible o self ->
    _migrations self !! migration_id = Some migration ->
    left_running (Migration.status migration) = true ->
    progress_of migration_id (step o self) = Some (Migration.progress migration).

(** "A start is admitted iff the count of jobs already Running/Queued does
    not strictly exceed the ceiling", for a start that gets as far as the
    admission check. *)
Definition admitted_iff_running_queued_within_ceiling : Prop :=
  forall self migration_id now migration source_conn target_conn,
    reachable self ->
    _migrations self !! migration_id = Some migration ->
    startable (Migration.status migration) = true ->
    get_source_connection (_connection_manager self)
      (Migration.source_connection_id migration) = Some source_conn ->
    get_snowflake_connection (_connection_manager self)
      (Migration.target_connection_id migration) = Some target_conn ->
    (fst (start_migration migration_id now self) = Ok () <->
     count_status running_or_queued (_migrations self)
       <= max_concurrent_migrations (performance (_config self))).

(** "Every observed progress snapshot satisfies
    completed_tables <= total_tables", and "migrated_rows <= total_rows once
    total_rows is known and nonzero". *)
Definition tables_always_bounded : Prop :=
  forall self migration_id migration,
    reachable self ->
    _migrations self !! migration_id = Some migration ->
    tables_bounded (Migration.progress migration).

Definition rows_always_bounded : Prop :=
  forall self migration_id migration,
    reachable self ->
    _migrations self !! migration_id = Some migration ->
    rows_bounded (Migration.progress migration).

(** *** What the child has to respect for the bounds to hold

    A decoded stdout object [fields], met by a job whose snapshot is
    [p], keeps within the bounds when: a [table_complete] arrives only while
    a table is still outstanding, and a [progress] message leaves the row
    counters (those it carries, the current ones for those it omits) with
    no more rows migrated than the total. *)
Definition respects_bounds (fields : list (string * json)) (p : MigrationProgress.t)
    : Prop :=
  let msg_type := dict_get fields "type" (JStr "") in
  (eq_str msg_type "table_complete" = true ->
     MigrationProgress.completed_tables p < MigrationProgress.total_tables p) /\
  (eq_str msg_type "progress" = true ->
     forall total migrated,
       dict_get fields "total_rows" (MigrationProgress.total_rows p) = JInt total ->
       dict_get fields "rows_migrated" (MigrationProgress.migrated_rows p) = JInt migrated ->
       0 < total -> migrated <= total).

(** The snapshots a job goes through when its stdout reader decodes the
    objects [events] one after the other (each with the clock reading at
    which it is parsed), up to the first one on which the parser raises. *)
Fixpoint snapshots (migration : Migration.t) (events : list (list (string * json) * Z))
    : list MigrationProgress.t :=
  match events with
  | [] => []
  | (fields, now) :: rest =>
      match _parse_progress (JObj fields) migration now with
      | Ok p => p :: snapshots (Migration.set_progress p migration) rest
      | Raised _ => []
      end
  end.

(** Every object of [events] respects the bounds when it arrives. *)
Fixpoint conforming (migration : Migration.t) (events : list (list (string * json) * Z))
    : Prop :=
  match events with
  | [] => True
  | (fields, now) :: rest =>
      respects_bounds fields (Migration.progress migration) /\
      match _parse_progress (JObj fields) migration now with
      | Ok p => conforming (Migration.set_progress p migration) rest
      | Raised _ => True
      end
  end.

(** *** The overall percentage *)

(** [a / b * 100] on two integers, as Python computes it. *)
Definition percent (a b : Z) : result float :=
  q ← number_truediv (Int a) (Int b);
  float_times q 100.

(** "If total_rows > 0, migrated_rows / total_rows * 100; else if
    total_tables > 0, completed_tables / total_tables * 100; else 0": the
    percentage as the specification words it. *)
Definition spec_percentage (total_rows migrated_rows total_tables completed_tables : Z)
    : result float :=
  if 0 <? total_rows then percent migrated_rows total_rows
  else if 0 <? total_tables then percent completed_tables total_tables
  else Ok (Finite 0).

(** "For every progress snapshot the overall percentage equals" the
    above, for the snapshots a job can hold whose row counters are
    integers. *)
Definition percentage_by_positive_totals : Prop :=
  forall self migration_id p total migrated,
    reachable self ->
    progress_of migration_id self = Some p ->
    MigrationProgress.total_rows p = JInt total ->
    MigrationProgress.migrated_rows p = JInt migrated ->
    MigrationProgress.percentage p
    = spec_percentage total migrated (MigrationProgress.total_tables p)
        (MigrationProgress.completed_tables p).

(** ** The life of one job

    What the engine can do to a registered job in one operation, read off
    the assignments to [migration.*] in [migration_engine.py]. *)

(** The status and error the exit handler leaves on a job. *)
Definition exited (returncode : Z) (migration : Migration.t) : Migration.t :=
  if returncode =? 0 then Migration.set_status COMPLETED migration
  else
    let migration := Migration.set_status FAILED migration in
    if negb (truthy (Migration.error migration)) then
      Migration.set_error (JStr ("CLI exited with code " +:+ pretty returncode)) migration
    else migration.

Inductive job_step : Migration.t -> Migration.t -> Prop :=
  | job_started m now :
      startable (Migration.status m) = true ->
      job_step m (Migration.set_started_at (Some now) (Migration.set_status RUNNING m))
  | job_refused m now :
      startable (Migration.status m) = true ->
      job_step m
        (Migration.set_status QUEUED
           (Migration.set_started_at (Some now) (Migration.set_status RUNNING m)))
  | job_paused m :
      Migration.status m = RUNNING ->
      job_step m (Migration.set_status PAUSED m)
  | job_cancelled m now :
      job_step m (Migration.set_completed_at (Some now) (Migration.set_status CANCELLED m))
  | job_launched m child_pid :
      job_step m (Migration.set_cli_process_id (Some child_pid) m)
  | job_snapshot m p :
      MigrationProgress.total_tables p
        = MigrationProgress.total_tables (Migration.progress m) ->
      job_step m (Migration.set_progress p m)
  | job_error m msg :
      job_step m (Migration.set_error msg m)
  | job_failed m message now :
      job_step m
        (Migration.set_completed_at (Some now)
           (Migration.set_error (JStr message) (Migration.set_status FAILED m)))
  | job_exited m returncode now :
      job_step m (Migration.set_completed_at (Some now) (exited returncode m))
  | job_interrupted m now :
      job_step m (Migration.set_completed_at (Some now) m).

(** The job a call of [create_migration] builds. *)
Definition new_job (config : MigrationConfig.t) (new_id : string) : Migration.t :=
  Migration.Build new_id
    (MigrationConfig.source_connection_id config)
    (MigrationConfig.target_connection_id config)
    (MigrationConfig.staging_area_id config)
    (MigrationConfig.tables config)
    (MigrationConfig.target_schema config)
    QUEUED
    (MigrationProgress.new (Z.of_nat (length (MigrationConfig.tables config))))
    None None JNull None.

(** What an operation of an existing job, named [named], does to the
    registry: nothing, or one step of the registered job it names.
    ([create_migration] adds [new_job] under its fresh id.) *)
Inductive registry_step (ms : gmap string Migration.t)
    : option string -> gmap string Migration.t -> Prop :=
  | registry_same named : registry_step ms named ms
  | registry_job migration_id m m' :
      ms !! migration_id = Some m ->
      job_step m m' ->
      registry_step ms (Some migration_id) (<[migration_id := m']> ms).

(** The job an operation names, if it names one. *)
Definition target (o : op) : option string :=
  match o with
  | Create _ new_id => Some new_id
  | Start migration_id _ => Some migration_id
  | Pause migration_id => Some migration_id
  | Resume migration_id _ => Some migration_id
  | Cancel migration_id _ _ => Some migration_id
  | Connections _ => None
  | Child migration_id _ _ => Some migration_id
  end.

(** The part of a job that is fixed when it is created. *)
Definition spec_of (m : Migration.t)
    : string * string * string * string * list TableSelection.t * option string :=
  (Migration.id m, Migration.source_connection_id m, Migration.target_connection_id m,
   Migration.staging_area_id m, Migration.tables m, Migration.target_schema m).

Definition is_set {A : Type} (x : option A) : bool :=
  match x with Some _ => true | None => false end.

(** A job is consistent when it is registered under its own id, its
    snapshot counts the tables of its specification, it carries a completion
    time once its status is terminal, and it carries a start time whenever
    it is running or paused. *)
Definition job_consistent (key : string) (m : Migration.t) : Prop :=
  Migration.id m = key
  /\ MigrationProgress.total_tables (Migration.progress m)
     = Z.of_nat (length (Migration.tables m))
  /\ (terminal (Migration.status m) = true -> is_set (Migration.completed_at m) = true)
  /\ (Migration.status m = RUNNING \/ Migration.status m = PAUSED ->
      is_set (Migration.started_at m) = true).

Definition consistent (self : MigrationEngine) : Prop :=
  forall key m,
    _migrations self !! key = Some m ->
    job_consistent key m /\ is_Some (_progress_queues self !! key).

(** The progress queue of a job, when it is not empty, ends with the
    snapshot the job currently holds. *)
Definition queue_tracks_snapshot (self : MigrationEngine) : Prop :=
  forall migration_id m queue,
    _migrations self !! migration_id = Some m ->
    _progress_queues self !! migration_id = Some queue ->
    queue = [] \/ last queue = Some (Migration.progress m).

(** Only registered jobs have a progress queue. *)
Definition queues_of_jobs (self : MigrationEngine) : Prop :=
  forall migration_id,
    _migrations self !! migration_id = None ->
    _progress_queues self !! migration_id = None.

(** The result of a subscription, by component. *)
Definition yielded (r : list MigrationProgress.t * bool * MigrationEngine)
    : list MigrationProgress.t := fst (fst r).

Definition finished (r : list MigrationProgress.t * bool * MigrationEngine) : bool :=
  snd (fst r).

(** ** services/migration_engine.py: [subscribe_progress]

    The generator shares the job's queue with the stdout reader and with
    every other subscriber; [queue.get()] removes the item it returns.  The
    queue object is the one the registry binds to the id: the registry never
    rebinds or drops an id, so looking it up at each turn reads the queue the
    generator fetched when it started. *)

(** What one turn of the generator gives its consumer. *)
Inductive turn : Type :=
  | Yielded (progress : MigrationProgress.t)   (* [yield progress] *)
  | Waiting                                    (* timeout, the loop goes round *)
  | Finished.                                  (* [return] or [break] *)

(** One turn: the [queue is None] test when there is no queue, else one
    [wait_for(queue.get(), timeout=1.0)].  On an empty queue the wait times
    out (whatever is put within the second is an operation of the engine
    that precedes the turn), and the job's status decides. *)
Definition subscribe_turn (migration_id : string) (self : MigrationEngine)
    : turn * MigrationEngine :=
  match _progress_queues self !! migration_id with
  | None => (Finished, self)
  | Some (progress :: rest) =>
      (Yielded progress,
       set_progress_queues (<[migration_id := rest]> (_progress_queues self)) self)
  | Some [] =>
      match _migrations self !! migration_id with
      | Some migration =>
          if negb (running_or_queued (Migration.status migration)) then (Finished, self)
          else (Waiting, self)
      | None => (Waiting, self)
      end
  end.

(** A subscription consumed for [fuel] turns while nothing else touches the
    engine: what it yields, whether it has finished, and the engine it
    leaves. *)
Fixpoint subscribe_progress (fuel : nat) (migration_id : string) (self : MigrationEngine)
    : list MigrationProgress.t * bool * MigrationEngine :=
  match fuel with
  | O => ([], false, self)
  | S fuel =>
      match subscribe_turn migration_id self with
      | (Finished, self) => ([], true, self)
      | (Waiting, self) => subscribe_progress fuel migration_id self
      | (Yielded progress, self) =>
          let '(yielded, finished, self) := subscribe_progress fuel migration_id self in
          (progress :: yielded, finished, self)
      end
  end.

(** ** services/connection_manager.py: the registry of connections

    [update_*] writes [connection_id] into the [id] of the object it is
    given before it stores it; the value stored is that object. *)

Definition set_source_id (connection_id : string) (c : SourceConnection.t)
    : SourceConnection.t :=
  SourceConnection.Build connection_id (SourceConnection.name c) (SourceConnection.type c)
    (SourceConnection.host c) (SourceConnection.port c) (SourceConnection.database c)
    (SourceConnection.username c) (SourceConnection.password c).

Definition set_snowflake_id (connection_id : string) (c : SnowflakeConnection.t)
    : SnowflakeConnection.t :=
  SnowflakeConnection.Build connection_id (SnowflakeConnection.name c)
    (SnowflakeConnection.account c) (SnowflakeConnection.warehouse c)
    (SnowflakeConnection.database c) (SnowflakeConnection.schema_name c)
    (SnowflakeConnection.username c) (SnowflakeConnection.password c)
    (SnowflakeConnection.role c).

Definition SourceConnectionNotFound (connection_id : string) : exn :=
  Raise KeyError ("Source connection not found: " +:+ connection_id).

Definition SnowflakeConnectionNotFound (connection_id : string) : exn :=
  Raise KeyError ("Snowflake connection not found: " +:+ connection_id).

Definition add_source_connection (connection : SourceConnection.t)
    (self : ConnectionManager) : string * ConnectionManager :=
  (SourceConnection.id connection,
   {| _source_connections :=
        <[SourceConnection.id connection := connection]> (_source_connections self);
      _snowflake_connections := _snowflake_connections self |}).

Definition add_snowflake_connection (connection : SnowflakeConnection.t)
    (self : ConnectionManager) : string * ConnectionManager :=
  (SnowflakeConnection.id connection,
   {| _source_connections := _source_connections self;
      _snowflake_connections :=
        <[SnowflakeConnection.id connection := connection]>
          (_snowflake_connections self) |}).

Definition update_source_connection (connection_id : string)
    (connection : SourceConnection.t) (self : ConnectionManager)
    : result unit * ConnectionManager :=
  match _source_connections self !! connection_id with
  | None => (Raised (SourceConnectionNotFound connection_id), self)
  | Some _ =>
      (Ok (),
       {| _source_connections :=
            <[connection_id := set_source_id connection_id connection]>
              (_source_connections self);
          _snowflake_connections := _snowflake_connections self |})
  end.

Definition update_snowflake_connection (connection_id : string)
    (connection : SnowflakeConnection.t) (self : ConnectionManager)
    : result unit * ConnectionManager :=
  match _snowflake_connections self !! connection_id with
  | None => (Raised (SnowflakeConnectionNotFound connection_id), self)
  | Some _ =>
      (Ok (),
       {| _source_connections := _source_connections self;
          _snowflake_connections :=
            <[connection_id := set_snowflake_id connection_id connection]>
              (_snowflake_connections self) |})
  end.

Definition delete_source_connection (connection_id : string) (self : ConnectionManager)
    : ConnectionManager :=
  match _source_connections self !! connection_id with
  | Some _ =>
      {| _source_connections := delete connection_id (_source_connections self);
         _snowflake_connections := _snowflake_connections self |}
  | None => self
  end.

Definition delete_snowflake_connection (connection_id : string) (self : ConnectionManager)
    : ConnectionManager :=
  match _snowflake_connections self !! connection_id with
  | Some _ =>
      {| _source_connections := _source_connections self;
         _snowflake_connections := delete connection_id (_snowflake_connections self) |}
  | None => self
  end.

(** ** screens/migration_config.py: the wizard's last step

    [_create_and_start_migration] builds an engine of its own around the
    shared connection manager, creates the job in it and starts it.  The
    result is what reaches the [except] clause; the engine is the one the
    job lives in. *)
Definition _create_and_start_migration (connection_manager : ConnectionManager)
    (cfg : AppConfig) (config : MigrationConfig.t) (new_id : string) (now : Z)
    : result unit * MigrationEngine :=
  let engine := __init__ connection_manager cfg in
  let (migration, engine) := create_migration config new_id engine in
  start_migration (Migration.id migration) now engine.

(** The invocation a start of [migration] schedules. *)
Definition invocation_of (source_conn : SourceConnection.t)
    (target_conn : SnowflakeConnection.t) (migration : Migration.t) : invocation :=
  {| inv_migration_id := Migration.id migration;
     inv_args := migrate_args source_conn target_conn migration;
     inv_env := migrate_env source_conn target_conn |}.

(** ** Lines the external tool is expected to write *)

(** [{"type": "table_complete"}] on stdout. *)
Definition table_complete : line :=
  Decoded (JObj [("type", JStr "table_complete")]).

(** One [table_complete] per clock reading of [times]. *)
Definition table_completions (times : list Z) : list (child_event * Z) :=
  map (fun now => (Stdout table_complete, now)) times.

(** ** Ranges *)

(** An integer that fits 64 bits, sign included. *)
Definition int64 (n : Z) : Prop := - 2 ^ 63 <= n < 2 ^ 63.

(** Less than [2 ^ 63] microseconds lie between the start, if there was
    one, and the clock reading [now]. *)
Definition clock_in_range (started_at : option Z) (now : Z) : Prop :=
  forall started, started_at = Some started -> now - started < 2 ^ 63.

(** ** models/migration.py: what the dashboard shows of a job *)

(** [f"{n:02d}"] *)
Definition pad2 (n : Z) : string :=
  if (0 <=? n) && (n <? 10) then "0" +:+ pretty n else pretty n.

(** [MigrationProgress.eta_display] *)
Definition eta_display (self : MigrationProgress.t) : string :=
  match MigrationProgress.eta_seconds self with
  | None => "Calculating..."
  | Some eta_seconds =>
      if eta_seconds <? 60 then pretty eta_seconds +:+ "s"
      else if eta_seconds <? 3600 then
        let minutes := eta_seconds / 60 in
        let seconds := eta_seconds mod 60 in
        pretty minutes +:+ "m " +:+ pretty seconds +:+ "s"
      else
        let hours := eta_seconds / 3600 in
        let minutes := eta_seconds mod 3600 / 60 in
        pretty hours +:+ "h " +:+ pretty minutes +:+ "m"
  end.

(** [Migration.duration_seconds], the clock reading [now] *)
Definition duration_seconds (self : Migration.t) (now : Z) : option Z :=
  match Migration.started_at self with
  | None => None
  | Some started_at =>
      let end_ := match Migration.completed_at self with
                  | Some completed_at => completed_at
                  | None => now
                  end in
      Some (int_of_float (total_seconds (end_ - started_at)))
  end.

(** [Migration.duration_display] *)
Definition duration_display (self : Migration.t) (now : Z) : string :=
  match duration_seconds self now with
  | None => "--:--"
  | Some seconds =>
      let hours := seconds / 3600 in
      let remainder := seconds mod 3600 in
      let minutes := remainder / 60 in
      let secs := remainder mod 60 in
      if 0 <? hours then pad2 hours +:+ ":" +:+ pad2 minutes +:+ ":" +:+ pad2 secs
      else pad2 minutes +:+ ":" +:+ pad2 secs
  end.

(** [Migration.source_display] *)
Definition source_display (self : Migration.t) : string :=
  match Migration.tables self with
  | [] => "No tables"
  | [table] => TableSelection.full_name table
  | tables => pretty (Z.of_nat (length tables)) +:+ " tables"
  end.

(** ** widgets/migration_row.py: the controls of a row *)

Inductive control : Type :=
  | PauseButton
  | ResumeButton
  | CancelButton
  | LogsButton.

#[global] Instance control_eq_dec : EqDecision control.
Proof. solve_decision. Defined.

(** The buttons [MigrationRow.compose] yields for a job in [status]. *)
Definition controls (status : MigrationStatus) : list control :=
  match status with
  | RUNNING => [PauseButton; CancelButton]
  | PAUSED => [ResumeButton; CancelButton]
  | QUEUED => [CancelButton]
  | _ => []
  end
  ++ match status with
     | RUNNING | COMPLETED | FAILED => [LogsButton]
     | _ => []
     end.

(** What the dashboard calls on the engine when a button of the row of
    [migration_id] is pressed; the log viewer calls nothing. *)
Definition press (button : control) (migration_id : string) (now : Z) (timed_out : bool)
    (self : MigrationEngine) : result unit * MigrationEngine :=
  match button with
  | PauseButton => pause_migration migration_id self
  | ResumeButton => resume_migration migration_id now self
  | CancelButton => cancel_migration migration_id now timed_out self
  | LogsButton => (Ok (), self)
  end.

(** ** models/staging.py *)

Inductive StagingType : Type :=
  | S3
  | ADLS
  | GCS
  | INTERNAL.

Module StagingArea.
Record t : Type := Build {
  id : string;
  name : string;
  type : StagingType;
  path : string;
  available : bool;
  description : string
}.
End StagingArea.

(** [StagingArea.type_display] *)
Definition type_display (self : StagingArea.t) : string :=
  match StagingArea.type self with
  | S3 => "AWS S3"
  | ADLS => "Azure Data Lake"
  | GCS => "Google Cloud Storage"
  | INTERNAL => "Snowflake Internal Stage"
  end.

(** ** services/migration_engine.py: the staging areas

    [list_staging_areas] reads and writes no attribute of the engine but
    [_staging_areas] (and the path of the tool), so that attribute is the
    whole of its state.  Whatever [Exception] is raised between [try] and
    [except Exception] has the same effect, so the steps in between return
    an [option]: [None] stands for any of them.  The coroutine is cut at its
    one [await], where it waits for the tool: the test of [_staging_areas]
    comes before it, the assignment after it, and other calls may run in
    between. *)

(** What the external tool does when [_run_cli_command] runs it; an output
    stream is [None] when its bytes do not decode. *)
Inductive cli_run : Type :=
  | CliNotLaunched (e : exn)
  | CliExited (returncode : Z) (stdout stderr : option string).

(** [_run_cli_command]; [RuntimeError] is rendered as [OtherError]. *)
Definition _run_cli_command (tool : cli_run) : result string :=
  match tool with
  | CliNotLaunched e => Raised e
  | CliExited returncode stdout stderr =>
      if negb (returncode =? 0) then
        match stderr with
        | Some text => Raised (Raise OtherError ("CLI command failed: " +:+ text))
        | None => Raised (Raise UnicodeDecodeError "")
        end
      else
        match stdout with
        | Some text => Ok text
        | None => Raised (Raise UnicodeDecodeError "")
        end
  end.

(** The fallback of the [except] clause. *)
Definition default_staging_areas : list StagingArea.t :=
  [ StagingArea.Build "s3-default" "Default S3 Staging" S3 "s3://snowmigrate-staging/"
      true "";
    StagingArea.Build "internal-default" "Snowflake Internal Stage" INTERNAL
      "@MIGRATION_STAGE" true "" ].

(** [StagingType(v)] *)
Definition StagingType_of (v : json) : option StagingType :=
  if eq_str v "s3" then Some S3
  else if eq_str v "adls" then Some ADLS
  else if eq_str v "gcs" then Some GCS
  else if eq_str v "internal" then Some INTERNAL
  else None.

(** What [for s in v] goes through: the items of a list, the keys of a
    dict, the characters of a string; anything else is not iterable. *)
Definition iterate (v : json) : option (list json) :=
  match v with
  | JArr items => Some items
  | JObj fields => Some (map (fun field => JStr (fst field)) fields)
  | JStr s => Some (map (fun c => JStr (String c "")) (list_ascii_of_string s))
  | _ => None
  end.

(** A string field of a pydantic model accepts a string and nothing else
    that [json.loads] can produce. *)
Definition validate_str (v : json) : option string :=
  match v with
  | JStr s => Some s
  | _ => None
  end.

Section Staging.
(** [json.loads], [None] when it raises. *)
Variable loads : string -> option json.
(** pydantic's validation of a [bool] field, [None] when it rejects. *)
Variable validate_bool : json -> option bool.

(** One element of the list comprehension: [s["id"]], [s["name"]],
    [StagingType(s["type"])], [s["path"]], [s.get("available", True)], and
    the validation of the model ([name] has [min_length=1]). *)
Definition staging_area_of (s : json) : option StagingArea.t :=
  match s with
  | JObj fields =>
      id ← dict_lookup fields "id" ≫= validate_str;
      name ← dict_lookup fields "name" ≫= validate_str;
      type ← dict_lookup fields "type" ≫= StagingType_of;
      path ← dict_lookup fields "path" ≫= validate_str;
      available ← validate_bool (dict_get fields "available" (JBool true));
      if String.eqb name "" then None
      else Some (StagingArea.Build id name type path available "")
  | _ => None
  end.

(** The body of the [try] block, from the text the tool wrote. *)
Definition parse_staging_areas (text : string) : option (list StagingArea.t) :=
  data ← loads text;
  match data with
  | JObj fields =>
      items ← iterate (dict_get fields "staging_areas" (JArr []));
      mapM staging_area_of items
  | _ => None
  end.

(** [list_staging_areas] up to its [await]: the cached list is returned at
    once, else the tool is run. *)
Definition list_staging_areas_begin (_staging_areas : option (list StagingArea.t))
    : option (list StagingArea.t) :=
  _staging_areas.

(** [list_staging_areas] from its [await] on, when [tool] is what the tool
    did: the list it assigns to [_staging_areas], which is the list it
    returns. *)
Definition list_staging_areas_resume (tool : cli_run) : list StagingArea.t :=
  let listed :=
    match _run_cli_command tool with
    | Ok text => parse_staging_areas text
    | Raised _ => None
    end in
  match listed with
  | Some areas => areas
  | None => default_staging_areas
  end.

(** A call of [list_staging_areas] during which no other call runs: the
    list returned and [_staging_areas] after the call; [tool] is what the
    external tool does if it is run. *)
Definition list_staging_areas (tool : cli_run) (_staging_areas : option (list StagingArea.t))
    : list StagingArea.t * option (list StagingArea.t) :=
  match list_staging_areas_begin _staging_areas with
  | Some areas => (areas, _staging_areas)
  | None =>
      let areas := list_staging_areas_resume tool in
      (areas, Some areas)
  end.

(** *** Calls that overlap

    The engine as [list_staging_areas] sees it, with two counters beside the
    attribute: how often the tool has been run, and how many calls are
    waiting for it. *)
Record staging : Type := Staging {
  cached : option (list StagingArea.t);
  tool_runs : nat;
  waiting : nat
}.

(** What can happen next: a call begins; a waiting call gets the tool's
    answer and finishes; a waiting call is cancelled
    ([asyncio.CancelledError] is no [Exception]: nothing is assigned). *)
Inductive staging_op : Type :=
  | CallBegins
  | CallResumes (tool : cli_run)
  | CallCancelled.

(** One step: the list a call returns in it, if one returns, and the state
    after it. *)
Definition staging_step (o : staging_op) (self : staging)
    : option (list StagingArea.t) * staging :=
  match o with
  | CallBegins =>
      match list_staging_areas_begin (cached self) with
      | Some areas => (Some areas, self)
      | None => (None, Staging (cached self) (S (tool_runs self)) (S (waiting self)))
      end
  | CallResumes tool =>
      match waiting self with
      | O => (None, self)
      | S others =>
          let areas := list_staging_areas_resume tool in
          (Some areas, Staging (Some areas) (tool_runs self) others)
      end
  | CallCancelled => (None, Staging (cached self) (tool_runs self) (pred (waiting self)))
  end.

(** A sequence of steps: the lists returned, in order, and the final
    state. *)
Fixpoint staging_run (ops : list staging_op) (self : staging)
    : list (list StagingArea.t) * staging :=
  match ops with
  | [] => ([], self)
  | o :: rest =>
      let (returned, self) := staging_step o self in
      let (later, self) := staging_run rest self in
      (match returned with Some areas => areas :: later | None => later end, self)
  end.
End Staging.

(** * Properties *)

(** ** Registry lookups after an update *)

Lemma lookup_set_migrations (self : MigrationEngine) (ms : gmap string Migration.t)
    (migration_id : string) :
  _migrations (set_migrations ms self) !! migration_id = ms !! migration_id.
Proof. reflexivity. Qed.

Lemma status_of_insert (self : MigrationEngine) (migration_id : string) (m : Migration.t) :
  status_of migration_id
    (set_migrations (<[migration_id := m]> (_migrations self)) self)
  = Some (Migration.status m).
Proof. unfold status_of. cbn. by rewrite lookup_insert_eq. Qed.

(** Case split on whether [migration_id] is registered; the unknown-id
    branch of every handler returns the engine as it is. *)
Ltac known_job self migration_id :=
  destruct (_migrations self !! migration_id) as [?migration|] eqn:?Hjob; [|done].

(** ** The process registry is never filled

    [__init__] creates [_processes] empty, and the only statement of the
    engine that writes to it is the [pop] in the [finally] clause of
    [_run_migration]: the handle [create_subprocess_exec] returns is kept in
    a local variable only.  So no signal is ever delivered either. *)

Lemma finalize_unbound (migration_id : string) (now : Z) (self : MigrationEngine) :
  unbound self -> unbound (finalize migration_id now self).
Proof.
  unfold unbound, finalize. intros [Hp Hd].
  known_job self migration_id; cbn.
  rewrite Hp, delete_empty. done.
Qed.

Lemma set_migrations_unbound (ms : gmap string Migration.t) (self : MigrationEngine) :
  unbound self -> unbound (set_migrations ms self).
Proof. unfold unbound. cbn. done. Qed.

Lemma set_progress_queues_unbound (qs : gmap string (list MigrationProgress.t))
    (self : MigrationEngine) :
  unbound self -> unbound (set_progress_queues qs self).
Proof. unfold unbound. cbn. done. Qed.

Lemma create_task_unbound (inv : invocation) (self : MigrationEngine) :
  unbound self -> unbound (create_task inv self).
Proof. unfold unbound. cbn. done. Qed.

Create HintDb unbound.
#[local] Hint Resolve finalize_unbound set_migrations_unbound
  set_progress_queues_unbound create_task_unbound : unbound.

Lemma fail_unbound (migration_id message : string) (now : Z) (self : MigrationEngine) :
  unbound self -> unbound (fail migration_id message now self).
Proof.
  intros H. unfold fail. known_job self migration_id.
  auto with unbound.
Qed.

Lemma on_exit_unbound (migration_id : string) (returncode now : Z) (self : MigrationEngine) :
  unbound self -> unbound (on_exit migration_id returncode now self).
Proof.
  intros H. unfold on_exit. known_job self migration_id.
  auto with unbound.
Qed.

#[local] Hint Resolve fail_unbound on_exit_unbound : unbound.

Lemma read_progress_unbound (migration_id : string) (l : line) (now : Z)
    (self : MigrationEngine) :
  unbound self -> unbound (snd (read_progress migration_id l now self)).
Proof.
  intros H. unfold read_progress.
  known_job self migration_id.
  destruct l as [msg| |data]; try done.
  destruct (_parse_progress data migration now) as [p|e]; [|done].
  cbn [_progress_queues set_migrations].
  destruct (_progress_queues self !! migration_id); cbn [snd]; auto with unbound.
Qed.

Lemma read_errors_unbound (migration_id : string) (l : line) (self : MigrationEngine) :
  unbound self -> unbound (snd (read_errors migration_id l self)).
Proof.
  intros H. unfold read_errors.
  known_job self migration_id.
  destruct l as [msg| |[]]; try done.
  destruct (eq_str _ _); cbn [snd]; auto with unbound.
Qed.

Lemma _run_migration_step_unbound (migration_id : string) (ev : child_event) (now : Z)
    (self : MigrationEngine) :
  unbound self -> unbound (snd (_run_migration_step migration_id ev now self)).
Proof.
  intros H. unfold _run_migration_step.
  known_job self migration_id.
  destruct ev as [[pid| |e]|l|l|rc|]; cbn [snd]; auto with unbound.
  - pose proof (read_progress_unbound migration_id l now self H) as H'.
    destruct (read_progress migration_id l now self) as [[[]|e] self']; cbn [snd] in *;
      auto with unbound.
  - pose proof (read_errors_unbound migration_id l self H) as H'.
    destruct (read_errors migration_id l self) as [[[]|e] self']; cbn [snd] in *;
      auto with unbound.
Qed.

Lemma start_migration_unbound (migration_id : string) (now : Z) (self : MigrationEngine) :
  unbound self -> unbound (snd (start_migration migration_id now self)).
Proof.
  intros H. unfold start_migration.
  known_job self migration_id.
  destruct (negb _); [done|].
  destruct (get_source_connection _ _); [|done].
  destruct (get_snowflake_connection _ _); [|done].
  destruct (_ <? _); cbn [snd]; auto with unbound.
Qed.

Lemma pause_migration_unbound (migration_id : string) (self : MigrationEngine) :
  unbound self -> unbound (snd (pause_migration migration_id self)).
Proof.
  intros H. unfold pause_migration.
  known_job self migration_id.
  destruct (negb _); [done|].
  destruct H as [Hp Hd]. rewrite Hp, lookup_empty. cbn. done.
Qed.

Lemma cancel_migration_unbound (migration_id : string) (now : Z) (timed_out : bool)
    (self : MigrationEngine) :
  unbound self -> unbound (snd (cancel_migration migration_id now timed_out self)).
Proof.
  intros H. unfold cancel_migration.
  known_job self migration_id.
  destruct H as [Hp Hd]. rewrite Hp, lookup_empty. cbn. done.
Qed.

Lemma step_unbound (o : op) (self : MigrationEngine) :
  unbound self -> unbound (step o self).
Proof.
  intros H. destruct o; cbn [step].
  - unfold create_migration. cbn [snd].
    by apply set_progress_queues_unbound, set_migrations_unbound.
  - by apply start_migration_unbound.
  - by apply pause_migration_unbound.
  - by apply start_migration_unbound.
  - by apply cancel_migration_unbound.
  - exact H.
  - by apply _run_migration_step_unbound.
Qed.

Lemma reachable_unbound (self : MigrationEngine) : reachable self -> unbound self.
Proof.
  induction 1 as [manager cfg|o self _ IH _].
  - done.
  - by apply step_unbound.
Qed.

Lemma reachable_run (ops : list op) (self : MigrationEngine) :
  reachable self -> fresh_ids ops self = true -> reachable (run ops self).
Proof.
  revert self. induction ops as [|o ops IH]; intros self Hr Hops; [done|].
  cbn in Hops. apply andb_prop in Hops as [Ho Hops].
  cbn. apply IH; [|done].
  apply reachable_step; [done|].
  destruct o; try exact I. cbn in *.
  by destruct (_migrations self !! new_id).
Qed.

Lemma demo_running_reachable : reachable Demo.running.
Proof. apply reachable_run; [apply reachable_init|]. vm_compute. reflexivity. Qed.

Lemma demo_completed_reachable : reachable Demo.completed.
Proof. apply reachable_run; [apply demo_running_reachable|]. vm_compute. reflexivity. Qed.

(** ** Rounding to the nearest double *)

Lemma round_half_even_bounds (n d lo hi : Z) :
  0 < d -> lo * d <= n <= hi * d ->
  lo <= round_half_even n d <= hi.
Proof.
  intros Hd [Hlo Hhi]. unfold round_half_even.
  pose proof (Z.div_mod n d ltac:(lia)) as Hdm.
  pose proof (Z.mod_pos_bound n d Hd) as Hr.
  assert (Hq1 : lo <= n / d) by (apply Z.div_le_lower_bound; lia).
  assert (Hq2 : n / d <= hi) by (apply Z.div_le_upper_bound; lia).
  assert (Hedge : n / d = hi -> n mod d = 0) by nia.
  repeat case_match; lia.
Qed.

(** The rounded quotient is within one half of the exact one. *)
Lemma round_half_even_error (n d : Z) :
  0 < d -> Z.abs (2 * (round_half_even n d * d - n)) <= d.
Proof.
  intros Hd. unfold round_half_even.
  pose proof (Z.div_mod n d ltac:(lia)) as Hdm.
  pose proof (Z.mod_pos_bound n d Hd) as Hr.
  repeat case_match; nia.
Qed.

Lemma ilog2_lower (n d : Z) :
  0 < n -> 0 < d ->
  d * 2 ^ Z.max 0 (ilog2 n d) <= n * 2 ^ Z.max 0 (- ilog2 n d).
Proof.
  intros Hn Hd. unfold ilog2.
  pose proof (Z.log2_spec n Hn) as [Hn1 Hn2].
  pose proof (Z.log2_spec d Hd) as [Hd1 Hd2].
  pose proof (Z.log2_nonneg n) as Hln. pose proof (Z.log2_nonneg d) as Hld.
  set (ln := Z.log2 n) in *. set (ld := Z.log2 d) in *.
  destruct (Z.ltb_spec (n * 2 ^ Z.max 0 (- (ln - ld))) (d * 2 ^ Z.max 0 (ln - ld)))
    as [Hlt|Hge]; [|lia].
  destruct (Z.le_gt_cases 1 (ln - ld)) as [Hk|Hk].
  - rewrite !Z.max_r by lia. rewrite Z.max_l by lia. rewrite Z.pow_0_r.
    assert (2 ^ Z.succ ld * 2 ^ (ln - ld - 1) = 2 ^ ln)
      by (rewrite <- Z.pow_add_r by lia; f_equal; lia).
    assert (0 < 2 ^ (ln - ld - 1)) by (apply Z.pow_pos_nonneg; lia).
    nia.
  - rewrite Z.max_l by lia. rewrite Z.max_r by lia. rewrite Z.pow_0_r.
    assert (2 ^ ln * 2 ^ (- (ln - ld - 1)) = 2 ^ Z.succ ld)
      by (rewrite <- Z.pow_add_r by lia; f_equal; lia).
    assert (0 < 2 ^ (- (ln - ld - 1))) by (apply Z.pow_pos_nonneg; lia).
    nia.
Qed.

Lemma ilog2_upper (n d : Z) :
  0 < n -> 0 < d ->
  n * 2 ^ Z.max 0 (- (ilog2 n d + 1)) < d * 2 ^ Z.max 0 (ilog2 n d + 1).
Proof.
  intros Hn Hd. unfold ilog2.
  pose proof (Z.log2_spec n Hn) as [Hn1 Hn2].
  pose proof (Z.log2_spec d Hd) as [Hd1 Hd2].
  pose proof (Z.log2_nonneg n) as Hln. pose proof (Z.log2_nonneg d) as Hld.
  set (ln := Z.log2 n) in *. set (ld := Z.log2 d) in *.
  destruct (Z.ltb_spec (n * 2 ^ Z.max 0 (- (ln - ld))) (d * 2 ^ Z.max 0 (ln - ld)))
    as [Hlt|Hge].
  - replace (ln - ld - 1 + 1) with (ln - ld) by lia. done.
  - destruct (Z.le_gt_cases 0 (ln - ld + 1)) as [Hk|Hk].
    + rewrite Z.max_l by lia. rewrite Z.max_r by lia. rewrite Z.pow_0_r.
      assert (2 ^ ld * 2 ^ (ln - ld + 1) = 2 ^ Z.succ ln)
        by (rewrite <- Z.pow_add_r by lia; f_equal; lia).
      assert (0 < 2 ^ (ln - ld + 1)) by (apply Z.pow_pos_nonneg; lia).
      nia.
    + rewrite Z.max_r by lia. rewrite Z.max_l by lia. rewrite Z.pow_0_r.
      assert (2 ^ Z.succ ln * 2 ^ (- (ln - ld + 1)) = 2 ^ ld)
        by (rewrite <- Z.pow_add_r by lia; f_equal; lia).
      assert (0 < 2 ^ (- (ln - ld + 1))) by (apply Z.pow_pos_nonneg; lia).
      nia.
Qed.

(** The unit in the last place is no more than the number rounded. *)
Lemma ulp_le (n d : Z) :
  0 < n -> 0 < d -> d <= n * 2 ^ 1074 ->
  let e := ulp_exponent n d in
  d * 2 ^ Z.max 0 e <= n * 2 ^ Z.max 0 (- e).
Proof.
  intros Hn Hd Hsub e. subst e. unfold ulp_exponent.
  pose proof (ilog2_lower n d Hn Hd) as Hk.
  set (k := ilog2 n d) in *.
  destruct (Z.le_gt_cases (-1074) (k - 52)) as [Hnormal|Hsubnormal].
  - rewrite (Z.max_l (k - 52)) by lia.
    destruct (Z.le_gt_cases 0 (k - 52)) as [He|He].
    + rewrite (Z.max_r 0 (k - 52)) by lia. rewrite (Z.max_l 0 (- (k - 52))) by lia.
      rewrite (Z.max_r 0 k) in Hk by lia. rewrite (Z.max_l 0 (- k)) in Hk by lia.
      rewrite Z.pow_0_r in *.
      assert (2 ^ (k - 52) <= 2 ^ k) by (apply Z.pow_le_mono_r; lia).
      nia.
    + rewrite (Z.max_l 0 (k - 52)) by lia. rewrite (Z.max_r 0 (- (k - 52))) by lia.
      rewrite Z.pow_0_r.
      destruct (Z.le_gt_cases 0 k) as [Hk0|Hk0].
      * rewrite (Z.max_r 0 k) in Hk by lia. rewrite (Z.max_l 0 (- k)) in Hk by lia.
        rewrite Z.pow_0_r in Hk.
        assert (0 < 2 ^ k) by (apply Z.pow_pos_nonneg; lia).
        assert (0 < 2 ^ (- (k - 52))) by (apply Z.pow_pos_nonneg; lia).
        nia.
      * rewrite (Z.max_l 0 k) in Hk by lia. rewrite (Z.max_r 0 (- k)) in Hk by lia.
        rewrite Z.pow_0_r in Hk.
        assert (2 ^ (- k) <= 2 ^ (- (k - 52))) by (apply Z.pow_le_mono_r; lia).
        nia.
  - rewrite (Z.max_r (k - 52)) by lia.
    change (Z.max 0 (-1074)) with 0. change (Z.max 0 (- -1074)) with 1074.
    rewrite Z.pow_0_r. lia.
Qed.

(** The double nearest to a positive number is within half of it. *)
Lemma nearest_positive_crude (n d : Z) :
  0 < n -> 0 < d -> d <= n * 2 ^ 1074 ->
  (inject_Z n <= 2 * nearest_positive n d * inject_Z d)%Q
  /\ (2 * nearest_positive n d * inject_Z d <= 3 * inject_Z n)%Q.
Proof.
  intros Hn Hd Hsub. pose proof (ulp_le n d Hn Hd Hsub) as Hulp. cbn zeta in Hulp.
  unfold nearest_positive. set (e := ulp_exponent n d) in *.
  destruct (Z.leb_spec 0 e) as [He|He].
  - rewrite (Z.max_r 0 e) in Hulp by lia. rewrite (Z.max_l 0 (- e)) in Hulp by lia.
    rewrite Z.pow_0_r in Hulp.
    assert (Hp : 0 < 2 ^ e) by (apply Z.pow_pos_nonneg; lia).
    pose proof (round_half_even_error n (d * 2 ^ e) ltac:(nia)) as Herr.
    set (m := round_half_even n (d * 2 ^ e)) in *.
    unfold Qle, Qmult, inject_Z. cbn. split; nia.
  - rewrite (Z.max_l 0 e) in Hulp by lia. rewrite (Z.max_r 0 (- e)) in Hulp by lia.
    rewrite Z.pow_0_r in Hulp.
    assert (Hp : 0 < 2 ^ (- e)) by (apply Z.pow_pos_nonneg; lia).
    pose proof (round_half_even_error (n * 2 ^ (- e)) d Hd) as Herr.
    set (m := round_half_even (n * 2 ^ (- e)) d) in *.
    rewrite Qred_correct.
    unfold Qle, Qmult, inject_Z. cbn.
    rewrite ?Pos.mul_1_l, ?Pos.mul_1_r, Z2Pos.id by lia. split; nia.
Qed.

(** Rounding does not cross an integer of at most 53 bits. *)
Lemma nearest_positive_le (n d bound : Z) :
  0 < n -> 0 < d -> 0 < bound < 2 ^ 53 -> n <= bound * d ->
  (0 <= nearest_positive n d)%Q /\ (nearest_positive n d <= inject_Z bound)%Q.
Proof.
  intros Hn Hd Hb Hle.
  pose proof (ilog2_lower n d Hn Hd) as Hk.
  unfold nearest_positive, ulp_exponent. set (k := ilog2 n d) in *.
  assert (Hk52 : k <= 52).
  { destruct (Z.le_gt_cases k 52) as [|Hbig]; [done|exfalso].
    rewrite (Z.max_l 0 (- k)) in Hk by lia.
    rewrite (Z.max_r 0 k) in Hk by lia. rewrite Z.pow_0_r in Hk.
    assert (2 ^ 53 <= 2 ^ k) by (apply Z.pow_le_mono_r; lia).
    nia. }
  destruct (Z.leb_spec 0 (Z.max (k - 52) (-1074))) as [He|He].
  - assert (He0 : Z.max (k - 52) (-1074) = 0) by lia. rewrite He0.
    rewrite Z.pow_0_r, !Z.mul_1_r.
    pose proof (round_half_even_bounds n d 0 bound Hd ltac:(lia)) as Hm.
    unfold Qle, inject_Z. cbn. lia.
  - set (e := Z.max (k - 52) (-1074)) in *.
    assert (Hp : 0 < 2 ^ (- e)) by (apply Z.pow_pos_nonneg; lia).
    pose proof (round_half_even_bounds (n * 2 ^ (- e)) d 0 (bound * 2 ^ (- e)) Hd
                  ltac:(nia)) as Hm.
    rewrite Qred_correct. unfold Qle, inject_Z. cbn.
    rewrite ?Pos.mul_1_l, ?Pos.mul_1_r, Z2Pos.id by lia. lia.
Qed.

Lemma Qabs_nonneg_le (y : Q) (bound : Z) :
  (0 <= y)%Q -> (y <= inject_Z bound)%Q -> bound < 2 ^ 1024 ->
  Qle_bool (inject_Z (2 ^ 1024)) (Qabs y) = false.
Proof.
  intros Hy Hb Hbound. destruct (Qle_bool _ _) eqn:Hle; [exfalso|done].
  apply Qle_bool_iff in Hle. rewrite Qabs_pos in Hle by done.
  assert (Hlt : (inject_Z bound < inject_Z (2 ^ 1024))%Q) by (by rewrite <- Zlt_Qlt).
  apply (Qlt_irrefl (inject_Z bound)).
  eapply Qlt_le_trans; [exact Hlt|]. by eapply Qle_trans.
Qed.

(** An operation whose exact result lies between 0 and an integer of at
    most 53 bits returns a finite float between the two. *)
Lemma binary64_bounded (x : Q) (bound : Z) :
  (0 <= x)%Q -> (x <= inject_Z bound)%Q -> 0 < bound < 2 ^ 53 ->
  binary64 x = Finite (nearest_double x)
  /\ (0 <= nearest_double x)%Q /\ (nearest_double x <= inject_Z bound)%Q.
Proof.
  intros Hx Hb Hbound.
  assert (Hy : (0 <= nearest_double x)%Q /\ (nearest_double x <= inject_Z bound)%Q).
  { unfold nearest_double. destruct x as [n d]. unfold Qle in Hx, Hb. cbn in Hx, Hb.
    cbn [Qnum Qden].
    destruct (Z.eqb_spec (Z.abs n) 0) as [Hz|Hnz].
    - unfold Qle. cbn. lia.
    - destruct (Z.ltb_spec n 0) as [|_]; [lia|].
      apply nearest_positive_le; lia. }
  split; [|done]. unfold binary64.
  rewrite (Qabs_nonneg_le _ bound); [done|tauto|tauto|].
  assert (2 ^ 53 < 2 ^ 1024) by (apply Z.pow_lt_mono_r; lia). lia.
Qed.

Lemma Qle_bool_false (x y : Q) : (y < x)%Q -> Qle_bool x y = false.
Proof.
  intros Hlt. destruct (Qle_bool x y) eqn:Hle; [|done].
  apply Qle_bool_iff in Hle. exfalso. by apply (Qlt_not_le y x).
Qed.

Lemma Qeq_bool_false (x y : Q) : (y < x)%Q -> Qeq_bool x y = false.
Proof.
  intros Hlt. destruct (Qeq_bool x y) eqn:Heq; [|done].
  apply Qeq_bool_iff in Heq. rewrite Heq in Hlt. exfalso. by apply (Qlt_irrefl y).
Qed.

(** The double nearest to a number that is not below the least positive
    double is within half of it. *)
Lemma nearest_double_positive (x : Q) :
  (1 <= x * inject_Z (2 ^ 1074))%Q ->
  (x <= 2 * nearest_double x)%Q /\ (2 * nearest_double x <= 3 * x)%Q.
Proof.
  intros Hsub. destruct x as [n d]. unfold Qle in Hsub. cbn in Hsub.
  rewrite ?Pos.mul_1_r, ?Z.mul_1_r, ?Z.mul_1_l in Hsub.
  assert (Hp : 0 < 2 ^ 1074) by (by apply Z.pow_pos_nonneg).
  assert (Hn : 0 < n) by nia.
  unfold nearest_double. cbn [Qnum Qden].
  destruct (Z.eqb_spec (Z.abs n) 0) as [|_]; [lia|].
  destruct (Z.ltb_spec n 0) as [|_]; [lia|].
  rewrite Z.abs_eq by lia.
  destruct (nearest_positive_crude n (Z.pos d) Hn ltac:(lia) ltac:(lia)) as [Hlo Hhi].
  set (y := nearest_positive n (Z.pos d)) in *. destruct y as [yn yd].
  unfold Qle, Qmult, inject_Z in *. cbn in *.
  rewrite ?Pos.mul_1_r, ?Z.mul_1_r, ?Z.mul_1_l in *. split; nia.
Qed.

Lemma nearest_double_negative (x : Q) :
  Qnum x < 0 -> nearest_double x = (- nearest_double (- x))%Q.
Proof.
  intros Hneg. destruct x as [n d]. cbn [Qnum] in Hneg.
  unfold nearest_double, Qopp. cbn [Qnum Qden].
  rewrite Z.abs_opp.
  destruct (Z.eqb_spec (Z.abs n) 0) as [|_]; [lia|].
  destruct (Z.ltb_spec n 0) as [_|]; [|lia].
  destruct (Z.ltb_spec (- n) 0) as [|_]; [lia|]. done.
Qed.

(** An operation whose exact result is 0, or lies in absolute value between
    the least positive double and [2 ^ 1022], returns a finite float of the
    same sign, between half and twice the exact result. *)
Lemma binary64_crude (x : Q) :
  (Qabs x <= inject_Z (2 ^ 1022))%Q ->
  Qnum x = 0 \/ (1 <= Qabs x * inject_Z (2 ^ 1074))%Q ->
  exists y,
    binary64 x = Finite y
    /\ (Qabs x <= 2 * Qabs y)%Q /\ (Qabs y <= 2 * Qabs x)%Q
    /\ (0 <= x -> 0 <= y)%Q /\ (x <= 0 -> y <= 0)%Q.
Proof.
  intros Hbound Hsub.
  assert (Hbig : (inject_Z (2 ^ 1022) * 2 < inject_Z (2 ^ 1024))%Q).
  { unfold Qlt, Qmult, inject_Z. cbn [Qnum Qden]. rewrite !Z.mul_1_r.
    change (2 ^ 1024) with (2 ^ 1022 * 4).
    assert (0 < 2 ^ 1022) by (by apply Z.pow_pos_nonneg). lia. }
  assert (Hfinite : forall y, (Qabs y <= 2 * Qabs x)%Q ->
            Qle_bool (inject_Z (2 ^ 1024)) (Qabs y) = false).
  { intros y Hy. destruct (Qle_bool _ _) eqn:Hle; [exfalso|done].
    apply Qle_bool_iff in Hle. lra. }
  destruct Hsub as [Hzero|Hsub].
  - exists 0%Q. unfold binary64, nearest_double. rewrite Hzero. cbn [Z.abs Z.eqb].
    split; [by vm_compute|].
    destruct x as [n d]. cbn in Hzero. subst n.
    repeat split; unfold Qle; cbn; lia.
  - destruct (Z.ltb_spec (Qnum x) 0) as [Hneg|Hpos].
    + assert (Hx : (x < 0)%Q) by (unfold Qlt; cbn; lia).
      rewrite Qabs_neg in Hsub, Hbound by lra.
      destruct (nearest_double_positive (- x) Hsub) as [Hlo Hhi].
      exists (- nearest_double (- x))%Q. unfold binary64.
      rewrite (nearest_double_negative x Hneg).
      rewrite Qabs_opp.
      assert (Hy : (0 <= nearest_double (- x))%Q) by lra.
      rewrite (Qabs_pos (nearest_double (- x))) by done.
      rewrite (Qabs_neg x) by lra.
      assert (Hle : Qle_bool (inject_Z (2 ^ 1024)) (nearest_double (- x)) = false).
      { destruct (Qle_bool _ _) eqn:Hle; [exfalso|done].
        apply Qle_bool_iff in Hle. lra. }
      rewrite Hle. repeat split; try lra.
    + destruct (Qlt_le_dec x 0) as [Hx|Hx]; [unfold Qlt in Hx; cbn in Hx; lia|].
      rewrite Qabs_pos in Hsub, Hbound by done.
      destruct (nearest_double_positive x Hsub) as [Hlo Hhi].
      exists (nearest_double x). unfold binary64.
      assert (Hy : (0 <= nearest_double x)%Q) by lra.
      rewrite (Qabs_pos (nearest_double x)) by done.
      rewrite (Qabs_pos x) by done.
      assert (Hle : Qle_bool (inject_Z (2 ^ 1024)) (nearest_double x) = false).
      { destruct (Qle_bool _ _) eqn:Hle; [exfalso|done].
        apply Qle_bool_iff in Hle. lra. }
      rewrite Hle. repeat split; try lra.
Qed.

(** ** Floats within range *)

Lemma above_least_double (x lo : Q) :
  Qle_bool 1 (lo * inject_Z (2 ^ 1074)) = true -> (lo <= x)%Q ->
  (1 <= x * inject_Z (2 ^ 1074))%Q.
Proof.
  intros Hlo Hx. apply Qle_bool_iff in Hlo.
  eapply Qle_trans; [exact Hlo|]. apply Qmult_le_compat_r; [done|].
  unfold Qle, inject_Z. cbn [Qnum Qden]. rewrite Z.mul_1_r.
  assert (0 < 2 ^ 1074) by (by apply Z.pow_pos_nonneg). lia.
Qed.

Lemma below_largest_double (x hi : Q) :
  Qle_bool hi (inject_Z (2 ^ 1022)) = true -> (x <= hi)%Q ->
  (x <= inject_Z (2 ^ 1022))%Q.
Proof. intros Hhi Hx. apply Qle_bool_iff in Hhi. by eapply Qle_trans. Qed.

(** The conversion of an integer of at most 64 bits to a float. *)
Lemma to_float_int64 (n : Z) :
  Z.abs n < 2 ^ 64 ->
  exists y,
    to_float (Int n) = Ok (Finite y)
    /\ (Qabs (inject_Z n) <= 2 * Qabs y)%Q /\ (Qabs y <= 2 * Qabs (inject_Z n))%Q
    /\ (0 <= n -> (0 <= y)%Q) /\ (n <= 0 -> (y <= 0)%Q).
Proof.
  intros Hn.
  assert (Habs : Qabs (inject_Z n) = inject_Z (Z.abs n)) by done.
  destruct (binary64_crude (inject_Z n)) as (y & Hy & Hlo & Hhi & Hpos & Hneg).
  - rewrite Habs, <- Zle_Qle.
    assert (2 ^ 64 <= 2 ^ 1022) by (apply Z.pow_le_mono_r; lia). lia.
  - destruct (Z.eq_dec n 0) as [->|Hnz]; [by left|right].
    rewrite Habs. apply above_least_double with 1%Q; [by vm_compute|].
    change 1%Q with (inject_Z 1). rewrite <- Zle_Qle. lia.
  - exists y. unfold to_float. rewrite Hy. repeat split; try done.
    + intros H. apply Hpos. change 0%Q with (inject_Z 0). by rewrite <- Zle_Qle.
    + intros H. apply Hneg. change 0%Q with (inject_Z 0). by rewrite <- Zle_Qle.
Qed.

Lemma int_of_float_sign (x : Q) :
  ((0 <= x)%Q -> 0 <= int_of_float x) /\ ((x <= 0)%Q -> int_of_float x <= 0).
Proof.
  unfold int_of_float. split; intros Hx.
  - assert (Hle : Qle_bool 0 x = true) by (by apply Qle_bool_iff).
    rewrite Hle. change 0 with (Qfloor 0). by apply Qfloor_resp_le.
  - destruct (Qle_bool 0 x).
    + change 0 with (Qfloor 0). by apply Qfloor_resp_le.
    + change 0 with (Qceiling 0). by apply Qceiling_resp_le.
Qed.

(** A quotient of floats whose exact value is 0, or lies between [lo] and
    [hi], both well inside the range of the doubles. *)
Lemma float_div_crude (a b lo hi : Q) :
  (0 < b)%Q ->
  Qle_bool 1 (lo * inject_Z (2 ^ 1074)) = true ->
  Qle_bool hi (inject_Z (2 ^ 1022)) = true ->
  (Qabs a <= hi * b)%Q ->
  Qnum a = 0 \/ (lo * b <= Qabs a)%Q ->
  exists q,
    float_div (Finite a) (Finite b) = Finite q
    /\ (Qabs a <= 2 * Qabs q * b)%Q /\ (Qabs q * b <= 2 * Qabs a)%Q
    /\ ((0 <= a)%Q -> (0 <= q)%Q) /\ ((a <= 0)%Q -> (q <= 0)%Q).
Proof.
  intros Hb Hlo Hhi Ha Hnz.
  assert (Habs : (Qabs (a / b) == Qabs a / b)%Q).
  { unfold Qdiv. rewrite Qabs_Qmult, Qabs_Qinv, (Qabs_pos b); [done|lra]. }
  destruct (binary64_crude (a / b)) as (q & Hq & Hqlo & Hqhi & Hpos & Hneg).
  - rewrite Habs. apply below_largest_double with hi; [done|].
    by apply Qle_shift_div_r.
  - destruct Hnz as [Hzero|Hnz]; [left|right].
    + unfold Qdiv, Qmult. cbn [Qnum]. rewrite Hzero. lia.
    + rewrite Habs. apply above_least_double with lo; [done|].
      by apply Qle_shift_div_l.
  - exists q. split; [exact Hq|]. rewrite Habs in Hqlo, Hqhi.
    assert (Hmul : (Qabs a / b * b == Qabs a)%Q) by (field; lra).
    split; [|split; [|split]].
    + assert (H1 : (Qabs a / b * b <= 2 * Qabs q * b)%Q)
        by (apply Qmult_le_compat_r; [exact Hqlo|lra]).
      by rewrite Hmul in H1.
    + assert (H2 : (Qabs q * b <= 2 * (Qabs a / b) * b)%Q)
        by (apply Qmult_le_compat_r; [exact Hqhi|lra]).
      assert (E : (2 * (Qabs a / b) * b == 2 * Qabs a)%Q) by (field; lra).
      by rewrite E in H2.
    + intros Hnonneg. apply Hpos. apply Qle_shift_div_l; [done|lra].
    + intros Hnonpos. apply Hneg. apply Qle_shift_div_r; [done|lra].
Qed.

Lemma nearest_positive_nonneg (n d : Z) :
  0 < n -> 0 < d -> (0 <= nearest_positive n d)%Q.
Proof.
  intros Hn Hd. unfold nearest_positive. set (e := ulp_exponent n d).
  destruct (Z.leb_spec 0 e) as [He|He].
  - assert (Hp : 0 < 2 ^ e) by (by apply Z.pow_pos_nonneg).
    assert (HD : 1 <= d * 2 ^ e) by nia.
    pose proof (round_half_even_bounds n (d * 2 ^ e) 0 n ltac:(lia) ltac:(nia)) as Hm.
    set (m := round_half_even _ _) in *.
    unfold Qle, inject_Z. cbn [Qnum Qden]. nia.
  - assert (Hp : 0 < 2 ^ (- e)) by (apply Z.pow_pos_nonneg; lia).
    pose proof (round_half_even_bounds (n * 2 ^ (- e)) d 0 (n * 2 ^ (- e)) Hd
                  ltac:(nia)) as Hm.
    set (m := round_half_even _ _) in *.
    rewrite Qred_correct. unfold Qle. cbn [Qnum Qden]. lia.
Qed.

(** The clock has not advanced: no time has elapsed. *)
Lemma total_seconds_nonpos (delta : Z) :
  delta <= 0 -> Qle_bool (total_seconds delta) 0 = true.
Proof.
  intros Hd. apply Qle_bool_iff. unfold total_seconds, nearest_double.
  cbn [Qdiv Qmult Qinv inject_Z Qnum Qden]. rewrite Z.mul_1_r.
  destruct (Z.eqb_spec (Z.abs delta) 0) as [|Hnz]; [done|].
  destruct (Z.ltb_spec delta 0) as [_|]; [|lia].
  pose proof (nearest_positive_nonneg (Z.abs delta) (Z.pos (1 * 1000000))
                ltac:(lia) ltac:(lia)) as Hy.
  set (y := nearest_positive _ _) in *. lra.
Qed.

(** The clock has advanced by less than [2 ^ 63] microseconds. *)
Lemma total_seconds_range (delta : Z) :
  0 < delta < 2 ^ 63 ->
  (1 # 2000000 <= total_seconds delta)%Q
  /\ (total_seconds delta <= 13835058055283)%Q.
Proof.
  intros Hd. unfold total_seconds.
  set (x := (inject_Z delta / 1000000)%Q).
  assert (Hx : (1 # 1000000 <= x)%Q /\ (x <= 9223372036855)%Q).
  { subst x. unfold Qle, Qdiv, Qmult, Qinv, inject_Z. cbn. lia. }
  destruct (nearest_double_positive x) as [Hlo Hhi].
  { apply above_least_double with (1 # 1000000)%Q; [by vm_compute|tauto]. }
  split; lra.
Qed.

(** A finite result is the double nearest to the exact one. *)
Lemma binary64_finite (x y : Q) : binary64 x = Finite y -> y = nearest_double x.
Proof. unfold binary64. destruct (Qle_bool _ _); [discriminate|]. by intros [= <-]. Qed.

Lemma to_float_finite (n : Z) (y : Q) :
  to_float (Int n) = Ok (Finite y) -> y = nearest_double (inject_Z n).
Proof.
  unfold to_float. destruct (binary64 (inject_Z n)) as [x| |] eqn:E; try discriminate.
  intros [= <-]. by apply binary64_finite.
Qed.

(** More than 0 rows migrated, and the clock has advanced since the start:
    the throughput block sets both the rate and the ETA. *)
Lemma estimate_in_range (p : MigrationProgress.t) (started now total migrated : Z) :
  MigrationProgress.total_rows p = JInt total ->
  MigrationProgress.migrated_rows p = JInt migrated ->
  0 < migrated < 2 ^ 63 ->
  - 2 ^ 63 <= total < 2 ^ 63 ->
  0 < now - started < 2 ^ 63 ->
  exists (rate : Q) (eta : Z),
    estimate p (Some started) now
    = Ok (MigrationProgress.Build (MigrationProgress.total_tables p)
            (MigrationProgress.completed_tables p) (MigrationProgress.current_table p)
            (MigrationProgress.current_table_progress p) (JInt total) (JInt migrated)
            (Finite rate) (Some eta))
    /\ rate = nearest_double (nearest_double (inject_Z migrated)
                               / total_seconds (now - started))
    /\ eta = int_of_float (nearest_double (nearest_double (inject_Z (total - migrated))
                                          / rate))
    /\ (0 < rate)%Q
    /\ (migrated <= total -> 0 <= eta)
    /\ (total <= migrated -> eta <= 0).
Proof.
  intros Ht Hm Hmig Htot Hclock.
  destruct p as [tt ct cur curp tr mr rps eta0]. cbn in Ht, Hm. subst tr mr.
  cbn [MigrationProgress.total_tables MigrationProgress.completed_tables
       MigrationProgress.current_table MigrationProgress.current_table_progress].
  destruct (total_seconds_range (now - started) Hclock) as [Hel1 Hel2].
  set (elapsed := total_seconds (now - started)) in *.
  assert (Hp63 : 2 ^ 63 = 9223372036854775808) by reflexivity.
  assert (Hp64 : 2 ^ 64 = 18446744073709551616) by reflexivity.
  (* the rows migrated, as a float *)
  destruct (to_float_int64 migrated ltac:(lia)) as (fm & Hfm & Hfm1 & Hfm2 & Hfm3 & _).
  specialize (Hfm3 ltac:(lia)).
  assert (Hmq : (1 <= inject_Z migrated)%Q /\ (inject_Z migrated <= 9223372036854775808)%Q).
  { unfold Qle, inject_Z. cbn. lia. }
  rewrite (Qabs_pos (inject_Z migrated)) in Hfm1, Hfm2 by lra.
  rewrite (Qabs_pos fm) in Hfm1, Hfm2 by done.
  (* the rate *)
  destruct (float_div_crude fm elapsed (1 # 1125899906842624) 1237940039285380274899124224
              ltac:(lra) ltac:(by vm_compute) ltac:(by vm_compute))
    as (rate & Hrate & Hr1 & Hr2 & Hr3 & _).
  { rewrite Qabs_pos by done. lra. }
  { right. rewrite Qabs_pos by done. lra. }
  specialize (Hr3 Hfm3).
  rewrite (Qabs_pos fm) in Hr1, Hr2 by done.
  rewrite (Qabs_pos rate) in Hr1, Hr2 by done.
  assert (Hrate_pos : (0 < rate)%Q) by nra.
  (* the rows that remain, as a float *)
  set (remaining := total - migrated).
  destruct (to_float_int64 remaining ltac:(lia)) as (fr & Hfr & Hfr1 & Hfr2 & Hfr3 & Hfr4).
  assert (Hrq : (Qabs (inject_Z remaining) <= 18446744073709551616)%Q).
  { change (Qabs (inject_Z remaining)) with (inject_Z (Z.abs remaining)).
    unfold Qle, inject_Z. cbn. lia. }
  (* the time that remains *)
  destruct (float_div_crude fr rate (1 # 1267650600228229401496703205376)
              1645504557321206042154969182557350504982735865633579863348609024
              Hrate_pos ltac:(by vm_compute) ltac:(by vm_compute))
    as (q & Hq & _ & _ & Hq3 & Hq4).
  { nra. }
  { destruct (Z.eq_dec remaining 0) as [Hz|Hnz].
    - left. rewrite Hz in Hfr. vm_compute in Hfr. by injection Hfr as <-.
    - right.
      assert (Hrq' : (1 <= Qabs (inject_Z remaining))%Q).
      { change (Qabs (inject_Z remaining)) with (inject_Z (Z.abs remaining)).
        unfold Qle, inject_Z. cbn. lia. }
      nra. }
  exists rate, (int_of_float q).
  split; [|split; [|split; [|split; [exact Hrate_pos|]]]].
  - unfold estimate, gt_zero. cbn [as_number].
    rewrite (Qle_bool_false (inject_Z migrated) 0) by lra.
    cbn [negb mbind result_bind]. fold elapsed.
    rewrite (Qle_bool_false elapsed 0) by lra. cbn [negb].
    unfold py_truediv, py_sub. cbn [number_of number_truediv number_sub].
    rewrite Hfm. cbn [mbind result_bind to_float float_eq_zero].
    rewrite (Qeq_bool_false elapsed 0) by lra.
    rewrite Hrate. cbn [mbind result_bind float_gt_zero].
    rewrite (Qle_bool_false rate 0) by lra. cbn [negb].
    fold remaining. cbn [number_truediv]. rewrite Hfr.
    cbn [mbind result_bind to_float float_eq_zero].
    rewrite (Qeq_bool_false rate 0) by lra.
    rewrite Hq. reflexivity.
  - apply to_float_finite in Hfm. subst fm. by apply binary64_finite.
  - apply to_float_finite in Hfr. subst fr. f_equal. by apply binary64_finite.
  - destruct (int_of_float_sign q) as [Hnonneg Hnonpos]. split; intros Hcmp.
    + apply Hnonneg, Hq3, Hfr3. lia.
    + apply Hnonpos, Hq4, Hfr4. lia.
Qed.

Example demo_running :
  status_of "a" Demo.running = Some RUNNING /\
  Migration.cli_process_id <$> _migrations Demo.running !! "a" = Some (Some 4242) /\
  _processes Demo.running = ∅.
Proof. vm_compute. auto. Qed.

Example demo_completed :
  status_of "a" Demo.completed = Some COMPLETED /\
  completed_at_of "a" Demo.completed = Some (Some 9000000).
Proof. vm_compute. auto. Qed.

Lemma demo_running_job : _migrations Demo.running !! "a" = Some Demo.job_running.
Proof. vm_compute. reflexivity. Qed.

Lemma demo_completed_job : _migrations Demo.completed !! "a" = Some Demo.job_completed.
Proof. vm_compute. reflexivity. Qed.

Lemma demo_queued_job :
  _migrations Demo.one_running_one_queued !! "b" = Some Demo.job_queued
  /\ _migrations Demo.one_paused_one_queued !! "b" = Some Demo.job_queued.
Proof. vm_compute. auto. Qed.

Lemma demo_created_job : _migrations Demo.created !! "a" = Some Demo.job_created.
Proof. vm_compute. reflexivity. Qed.

(** ** The registry entry after each handler *)

Lemma append_empty_r (s : string) : s +:+ "" = s.
Proof.
  induction s as [|c s IH]; [done|].
  change (String c (s +:+ "") = String c s). by rewrite IH.
Qed.

Lemma contains_suffix (before needle : string) : contains needle (before +:+ needle).
Proof. exists before, "". by rewrite append_empty_r. Qed.

Lemma finalize_lookup (migration_id : string) (now : Z) (self : MigrationEngine)
    (migration : Migration.t) :
  _migrations self !! migration_id = Some migration ->
  _migrations (finalize migration_id now self) !! migration_id
    = Some (Migration.set_completed_at (Some now) migration)
  /\ _processes (finalize migration_id now self) !! migration_id = None.
Proof.
  intros H. unfold finalize. rewrite H. cbn. by rewrite lookup_insert_eq, lookup_delete_eq.
Qed.

Lemma cancel_migration_lookup (self : MigrationEngine) (migration_id : string)
    (now : Z) (timed_out : bool) (migration : Migration.t) :
  _migrations self !! migration_id = Some migration ->
  _migrations (snd (cancel_migration migration_id now timed_out self)) !! migration_id
    = Some (Migration.set_completed_at (Some now)
              (Migration.set_status CANCELLED migration)).
Proof.
  intros Hm. unfold cancel_migration. rewrite Hm. cbn [snd].
  rewrite lookup_set_migrations. apply lookup_insert_eq.
Qed.

Lemma on_exit_lookup (self : MigrationEngine) (migration_id : string)
    (returncode now : Z) (migration : Migration.t) :
  _migrations self !! migration_id = Some migration ->
  exists m',
    _migrations (on_exit migration_id returncode now self) !! migration_id
      = Some (Migration.set_completed_at (Some now) m')
    /\ Migration.status m' = (if returncode =? 0 then COMPLETED else FAILED)
    /\ Migration.error m'
       = (if (returncode =? 0) || truthy (Migration.error migration)
          then Migration.error migration
          else JStr ("CLI exited with code " +:+ pretty returncode))
    /\ Migration.progress m' = Migration.progress migration
    /\ Migration.started_at m' = Migration.started_at migration
    /\ _processes (on_exit migration_id returncode now self) !! migration_id = None.
Proof.
  intros Hm. unfold on_exit. rewrite Hm.
  match goal with |- context [finalize _ _ (set_migrations (<[_ := ?m']> _) _)] =>
    exists m';
    destruct (finalize_lookup migration_id now
                (set_migrations (<[migration_id := m']> (_migrations self)) self) m')
      as [Hl Hp]; [cbn; apply lookup_insert_eq|]
  end.
  split; [exact Hl|]. repeat split; try exact Hp;
    (destruct (returncode =? 0); cbn; [done|];
     by destruct (truthy (Migration.error migration))).
Qed.

(** ** Cancel *)

(** C10. [cancel_migration] looks at no status.  For a registered job, in
    whatever status, it returns normally and leaves the job with
    [status = CANCELLED] and [completed_at = now] (all its other fields as
    they were); it raises only for an id the registry does not hold, and then
    it is the not-found [KeyError], with the engine untouched. *)
Theorem cancel_migration_any_status (self : MigrationEngine) (migration_id : string)
    (now : Z) (timed_out : bool) :
  match _migrations self !! migration_id with
  | Some migration =>
      fst (cancel_migration migration_id now timed_out self) = Ok () /\
      _migrations (snd (cancel_migration migration_id now timed_out self)) !! migration_id
        = Some (Migration.set_completed_at (Some now)
                  (Migration.set_status CANCELLED migration)) /\
      status_of migration_id (snd (cancel_migration migration_id now timed_out self))
        = Some CANCELLED /\
      completed_at_of migration_id (snd (cancel_migration migration_id now timed_out self))
        = Some (Some now)
  | None =>
      cancel_migration migration_id now timed_out self
        = (Raised (MigrationNotFound migration_id), self)
  end.
Proof.
  destruct (_migrations self !! migration_id) as [migration|] eqn:Hm.
  - pose proof (cancel_migration_lookup self migration_id now timed_out migration Hm)
      as Hl.
    unfold status_of, completed_at_of. rewrite Hl.
    repeat split. unfold cancel_migration. by rewrite Hm.
  - unfold cancel_migration. by rewrite Hm.
Qed.

(** ** Overall percentage *)

(** What [percentage] computes when both row counters hold integers, with
    no assumption on their signs: the tests are [== 0], not [> 0]. *)
Lemma percentage_int (p : MigrationProgress.t) (total migrated : Z) :
  MigrationProgress.total_rows p = JInt total ->
  MigrationProgress.migrated_rows p = JInt migrated ->
  MigrationProgress.percentage p =
    if total =? 0 then
      if MigrationProgress.total_tables p =? 0 then Ok (Finite 0)
      else percent (MigrationProgress.completed_tables p) (MigrationProgress.total_tables p)
    else percent migrated total.
Proof.
  intros Ht Hm. unfold MigrationProgress.percentage, eq_zero, py_truediv, percent.
  rewrite Ht, Hm. cbn [as_number number_of].
  assert (Hz : Qeq_bool (inject_Z total) 0 = (total =? 0)).
  { unfold Qeq_bool, inject_Z. cbn. rewrite Z.mul_1_r. reflexivity. }
  rewrite Hz. destruct (total =? 0); reflexivity.
Qed.

(** C9 (as amended). The branch of the percentage is chosen by whether a
    total is zero, not by whether it is positive.  On a snapshot whose row
    counters hold integers the overall percentage is
    [migrated_rows / total_rows * 100] when [total_rows] is not 0, else
    [completed_tables / total_tables * 100] when [total_tables] is not 0,
    else 0, the quotient and the product being those of Python on two
    integers.  When neither total is negative this is the rule of the
    specification.  With [total_rows = 0], [total_tables = 4] and
    [completed_tables = 2] it is 50, whatever [migrated_rows] and the other
    fields hold. *)
Theorem percentage_by_nonzero_totals (p : MigrationProgress.t) (total migrated : Z) :
  MigrationProgress.total_rows p = JInt total ->
  MigrationProgress.migrated_rows p = JInt migrated ->
  MigrationProgress.percentage p =
    (if negb (total =? 0) then percent migrated total
     else if negb (MigrationProgress.total_tables p =? 0) then
       percent (MigrationProgress.completed_tables p) (MigrationProgress.total_tables p)
     else Ok (Finite 0))
  /\ (0 <= total -> 0 <= MigrationProgress.total_tables p ->
      MigrationProgress.percentage p
      = spec_percentage total migrated (MigrationProgress.total_tables p)
          (MigrationProgress.completed_tables p))
  /\ (forall current_table current_table_progress rows rate eta,
        MigrationProgress.percentage
          (MigrationProgress.Build 4 2 current_table current_table_progress
             (JInt 0) rows rate eta) = Ok (Finite 50)).
Proof.
  intros Ht Hm. rewrite (percentage_int p total migrated Ht Hm). split; [|split].
  - destruct (total =? 0); [|done].
    by destruct (MigrationProgress.total_tables p =? 0).
  - intros Htot Htab. unfold spec_percentage.
    destruct (Z.eqb_spec total 0) as [->|Hne].
    + cbn [Z.ltb Z.compare].
      destruct (Z.eqb_spec (MigrationProgress.total_tables p) 0) as [->|Hne'].
      * reflexivity.
      * destruct (Z.ltb_spec 0 (MigrationProgress.total_tables p)); [reflexivity|lia].
    + destruct (Z.ltb_spec 0 total); [reflexivity|lia].
  - intros. vm_compute. reflexivity.
Qed.

Lemma percentage_by_nonzero_totals_witness :
  MigrationProgress.percentage
    (MigrationProgress.Build 4 2 JNull (JFloat 0) (JInt 1000) (JInt 500) 0%Q None)
  = Ok (Finite 50)
  /\ MigrationProgress.percentage
       (MigrationProgress.Build 4 2 JNull (JFloat 0) (JInt (-4)) (JInt 1) 0%Q None)
     = Ok (Finite (-25)).
Proof.
  split.
  - rewrite (proj1 (percentage_by_nonzero_totals
      (MigrationProgress.Build 4 2 JNull (JFloat 0) (JInt 1000) (JInt 500) 0%Q None)
      1000 500 eq_refl eq_refl)). vm_compute. reflexivity.
  - rewrite (proj1 (percentage_by_nonzero_totals
      (MigrationProgress.Build 4 2 JNull (JFloat 0) (JInt (-4)) (JInt 1) 0%Q None)
      (-4) 1 eq_refl eq_refl)). vm_compute. reflexivity.
Defined.

(** C9 (as the specification words it) fails on a negative total.  A job
    over four tables whose child reports two tables complete and then a
    progress line with [total_rows = -4] and [rows_migrated = 1] holds a
    snapshot whose percentage is [1 / -4 * 100 = -25]; the rule of the
    specification, which tests [total_rows > 0], gives the table ratio
    50. *)
Lemma negative_total_takes_row_branch : ~ percentage_by_positive_totals.
Proof.
  intros H.
  set (self :=
    run [Create (Demo.spec [Demo.users; Demo.orders; Demo.users; Demo.orders]) "a";
         Start "a" 1000000;
         Child "a" (Launch (LaunchOk 4242)) 1000001;
         Child "a" (Stdout (Decoded (JObj [("type", JStr "table_complete")]))) 2000000;
         Child "a" (Stdout (Decoded (JObj [("type", JStr "table_complete")]))) 3000000;
         Child "a" (Stdout (Decoded (JObj [("type", JStr "progress");
                                           ("total_rows", JInt (-4));
                                           ("rows_migrated", JInt 1)]))) 4000000]
      (Demo.engine 10)).
  assert (Hr : reachable self)
    by (apply reachable_run; [apply reachable_init|vm_compute; reflexivity]).
  destruct (progress_of "a" self) as [p|] eqn:Hp; [|vm_compute in Hp; discriminate].
  specialize (H self "a" p (-4) 1 Hr Hp).
  vm_compute in Hp. injection Hp as <-.
  specialize (H eq_refl eq_refl). vm_compute in H. discriminate.
Qed.

(** ** Process exit *)



(** While a run goes on, the job's error message is written by an error
    event on stderr and by nothing else. *)
Lemma error_written_by_error_events (self self' : MigrationEngine) (migration_id : string)
    (ev : child_event) (now : Z) :
  _run_migration_step migration_id ev now self = (true, self') ->
  records_error ev = false ->
  error_of migration_id self' = error_of migration_id self.
Proof.
  unfold _run_migration_step, error_of.
  destruct (_migrations self !! migration_id) as [m|] eqn:Hm; [|discriminate].
  destruct ev as [[pid| |e]|l|l|rc|]; try discriminate.
  - intros [= <-] _. cbn. by rewrite lookup_insert_eq.
  - unfold read_progress. rewrite Hm.
    destruct l as [msg| |data]; try discriminate.
    + intros [= <-] _. by rewrite Hm.
    + destruct (_parse_progress data m now) as [p|e]; [|discriminate].
      cbn [_progress_queues set_migrations].
      destruct (_progress_queues self !! migration_id);
        intros [= <-] _; cbn; by rewrite lookup_insert_eq.
  - unfold read_errors. rewrite Hm.
    destruct l as [msg| |data]; try discriminate.
    + intros [= <-] _. by rewrite Hm.
    + destruct data; try discriminate. cbn [records_error].
      destruct (eq_str _ _); [intros _ [=]|].
      intros [= <-] _. by rewrite Hm.
Qed.

(** The scenario of a child that exits with code 1 without a word on
    stderr. *)
Example exit_code_1_without_error_event :
  let self := _run_migration "a" [(Exit 1, 9000000)] Demo.running in
  status_of "a" self = Some FAILED /\
  error_of "a" self = Some (JStr "CLI exited with code 1") /\
  completed_at_of "a" self = Some (Some 9000000).
Proof. vm_compute. auto. Qed.

(** ** Pause and cancel against the child process *)

(** What [pause_migration] and [cancel_migration] do with a handle they find
    in [_processes]: an interrupt for a pause; a terminate, and a kill when
    the five-second wait times out, for a cancel. *)
Lemma pause_signals_registered_process (self : MigrationEngine) (migration_id : string)
    (migration : Migration.t) (process : Popen) :
  _migrations self !! migration_id = Some migration ->
  Migration.status migration = RUNNING ->
  _processes self !! migration_id = Some process ->
  delivered (snd (pause_migration migration_id self))
    = delivered self ++ [(pid process, SIGINT)].
Proof.
  intros Hm Hs Hp. unfold pause_migration. rewrite Hm, Hp.
  by rewrite bool_decide_eq_true_2.
Qed.

Lemma cancel_signals_registered_process (self : MigrationEngine) (migration_id : string)
    (migration : Migration.t) (process : Popen) (now : Z) (timed_out : bool) :
  _migrations self !! migration_id = Some migration ->
  _processes self !! migration_id = Some process ->
  delivered (snd (cancel_migration migration_id now timed_out self))
    = delivered self ++
        (if timed_out then [(pid process, SIGTERM); (pid process, SIGKILL)]
         else [(pid process, SIGTERM)]).
Proof.
  intros Hm Hp. unfold cancel_migration. rewrite Hm, Hp.
  destruct timed_out; cbn; [|done]. by rewrite <- app_assoc.
Qed.

(** [pause_migration] refuses a job that is not [RUNNING] and changes
    nothing. *)
Lemma pause_requires_running (self : MigrationEngine) (migration_id : string)
    (migration : Migration.t) :
  _migrations self !! migration_id = Some migration ->
  Migration.status migration <> RUNNING ->
  pause_migration migration_id self = (Raised CanOnlyPauseRunning, self).
Proof.
  intros Hm Hs. unfold pause_migration. rewrite Hm.
  by rewrite bool_decide_eq_false_2.
Qed.

(** C6. On an engine a program can hold, pausing a [RUNNING] job returns
    normally and leaves it [PAUSED], with the process id of its child still
    recorded on it, but delivers no signal to that child: the list of
    delivered signals is empty afterwards.  (Pausing a job in another status
    raises the invalid-state error and changes nothing.) *)
Theorem pause_delivers_no_signal (self : MigrationEngine) (migration_id : string)
    (migration : Migration.t) :
  reachable self ->
  _migrations self !! migration_id = Some migration ->
  if bool_decide (Migration.status migration = RUNNING) then
    fst (pause_migration migration_id self) = Ok ()
    /\ _migrations (snd (pause_migration migration_id self)) !! migration_id
       = Some (Migration.set_status PAUSED migration)
    /\ delivered (snd (pause_migration migration_id self)) = []
  else pause_migration migration_id self = (Raised CanOnlyPauseRunning, self).
Proof.
  intros Hr Hm. destruct (reachable_unbound self Hr) as [Hp Hd].
  case_bool_decide as Hs.
  - unfold pause_migration. rewrite Hm, Hp, lookup_empty.
    rewrite bool_decide_eq_true_2 by done. cbn.
    by rewrite lookup_insert_eq.
  - by apply pause_requires_running with migration.
Qed.

Lemma pause_delivers_no_signal_witness :
  Migration.cli_process_id Demo.job_running = Some 4242
  /\ fst (pause_migration "a" Demo.running) = Ok ()
  /\ _migrations (snd (pause_migration "a" Demo.running)) !! "a"
     = Some (Migration.set_status PAUSED Demo.job_running)
  /\ delivered (snd (pause_migration "a" Demo.running)) = [].
Proof.
  split; [reflexivity|].
  exact (pause_delivers_no_signal Demo.running "a" Demo.job_running
           demo_running_reachable demo_running_job).
Defined.

(** C5. On an engine a program can hold, cancelling a job leaves it
    [CANCELLED] with [completed_at] set, but delivers no signal at all to its
    child, whether or not the wait would time out; and when the child exits
    later, the exit handler overwrites [CANCELLED] with [COMPLETED] or
    [FAILED]. *)
Theorem cancel_delivers_no_signal (self : MigrationEngine) (migration_id : string)
    (migration : Migration.t) (now later returncode : Z) (timed_out : bool) :
  reachable self ->
  _migrations self !! migration_id = Some migration ->
  delivered (snd (cancel_migration migration_id now timed_out self)) = []
  /\ status_of migration_id (snd (cancel_migration migration_id now timed_out self))
     = Some CANCELLED
  /\ completed_at_of migration_id (snd (cancel_migration migration_id now timed_out self))
     = Some (Some now)
  /\ status_of migration_id
       (on_exit migration_id returncode later
          (snd (cancel_migration migration_id now timed_out self)))
     = Some (if returncode =? 0 then COMPLETED else FAILED).
Proof.
  intros Hr Hm. destruct (reachable_unbound self Hr) as [Hp Hd].
  pose proof (cancel_migration_lookup self migration_id now timed_out migration Hm)
    as Hl.
  unfold status_of, completed_at_of. rewrite Hl. cbn.
  repeat split.
  - unfold cancel_migration. rewrite Hm, Hp, lookup_empty. cbn. exact Hd.
  - destruct (on_exit_lookup _ migration_id returncode later _ Hl)
      as (m' & Hl' & Hs & _).
    rewrite Hl'. cbn. by rewrite Hs.
Qed.

Lemma cancel_delivers_no_signal_witness :
  delivered (snd (cancel_migration "a" 5000000 true Demo.running)) = []
  /\ status_of "a" (snd (cancel_migration "a" 5000000 true Demo.running))
     = Some CANCELLED
  /\ completed_at_of "a" (snd (cancel_migration "a" 5000000 true Demo.running))
     = Some (Some 5000000)
  /\ status_of "a"
       (on_exit "a" 0 9000000 (snd (cancel_migration "a" 5000000 true Demo.running)))
     = Some COMPLETED.
Proof.
  exact (cancel_delivers_no_signal Demo.running "a" Demo.job_running 5000000 9000000 0
           true demo_running_reachable demo_running_job).
Defined.

(** ** Lines that are not protocol events *)

Lemma fail_lookup (self : MigrationEngine) (migration_id message : string) (now : Z)
    (migration : Migration.t) :
  _migrations self !! migration_id = Some migration ->
  _migrations (fail migration_id message now self) !! migration_id
    = Some (Migration.set_completed_at (Some now)
              (Migration.set_error (JStr message)
                 (Migration.set_status FAILED migration))).
Proof.
  intros Hm. unfold fail. rewrite Hm.
  apply finalize_lookup. cbn. apply lookup_insert_eq.
Qed.

(** A line that is not JSON is dropped by either reader: the run goes on
    and the engine is as it was. *)
Lemma malformed_line_dropped (self : MigrationEngine) (migration_id : string)
    (migration : Migration.t) (now : Z) :
  _migrations self !! migration_id = Some migration ->
  _run_migration_step migration_id (Stdout NotJson) now self = (true, self)
  /\ _run_migration_step migration_id (Stderr NotJson) now self = (true, self).
Proof.
  intros Hm. unfold _run_migration_step, read_progress, read_errors.
  by rewrite Hm.
Qed.

(** A line that is not valid UTF-8 is not absorbed either: the
    [UnicodeDecodeError] is not a [JSONDecodeError]. *)
Lemma undecodable_line_fails_job (self : MigrationEngine) (migration_id : string)
    (migration : Migration.t) (msg : string) (now : Z) :
  _migrations self !! migration_id = Some migration ->
  _run_migration_step migration_id (Stdout (Undecodable msg)) now self
    = (false, fail migration_id msg now self)
  /\ _run_migration_step migration_id (Stderr (Undecodable msg)) now self
    = (false, fail migration_id msg now self).
Proof.
  intros Hm. unfold _run_migration_step, read_progress, read_errors.
  by rewrite Hm.
Qed.

(** A JSON object on stdout, of a known type or not, leaves the status of
    the job alone whenever the run goes on after it. *)
Lemma object_line_keeps_status (self self' : MigrationEngine) (migration_id : string)
    (fields : list (string * json)) (now : Z) :
  _run_migration_step migration_id (Stdout (Decoded (JObj fields))) now self
    = (true, self') ->
  status_of migration_id self' = status_of migration_id self.
Proof.
  unfold _run_migration_step, read_progress, status_of.
  destruct (_migrations self !! migration_id) as [m|] eqn:Hm; [|discriminate].
  destruct (_parse_progress (JObj fields) m now) as [p|e]; [|discriminate].
  cbn [_progress_queues set_migrations].
  destruct (_progress_queues self !! migration_id);
    intros [= <-]; cbn; by rewrite lookup_insert_eq.
Qed.

(** C3. A line that is valid JSON but not an object (an array, a number, a
    string, [true], [null]) is not absorbed: on either stream the reader
    calls [.get] on it, the [AttributeError] is not a [JSONDecodeError], it
    ends the run, and the job is left [FAILED] with the text of the exception
    as its error message and with [completed_at] set.  No exception reaches a
    caller of the control operations: the handler returns an engine. *)
Theorem non_object_line_fails_job (self : MigrationEngine) (migration_id : string)
    (migration : Migration.t) (data : json) (now : Z) :
  _migrations self !! migration_id = Some migration ->
  (forall fields, data <> JObj fields) ->
  let message := "'" +:+ type_name data +:+ "' object has no attribute 'get'" in
  let failed :=
    Migration.set_completed_at (Some now)
      (Migration.set_error (JStr message) (Migration.set_status FAILED migration)) in
  (exists self',
     _run_migration_step migration_id (Stdout (Decoded data)) now self = (false, self')
     /\ _migrations self' !! migration_id = Some failed)
  /\ (exists self',
     _run_migration_step migration_id (Stderr (Decoded data)) now self = (false, self')
     /\ _migrations self' !! migration_id = Some failed).
Proof.
  intros Hm Hdata message failed.
  assert (Hparse : _parse_progress data migration now = Raised (no_attribute_get data)).
  { destruct data; try reflexivity. by destruct (Hdata fields). }
  split.
  - exists (fail migration_id message now self). split.
    + unfold _run_migration_step, read_progress. rewrite Hm, Hparse. reflexivity.
    + by apply fail_lookup.
  - exists (fail migration_id message now self). split.
    + unfold _run_migration_step, read_errors. rewrite Hm.
      destruct data; try reflexivity. by destruct (Hdata fields).
    + by apply fail_lookup.
Qed.

Lemma non_object_line_fails_job_witness :
  exists self',
    _run_migration_step "a" (Stdout (Decoded (JArr []))) 2000000 Demo.running
      = (false, self')
    /\ _migrations self' !! "a"
       = Some (Migration.set_completed_at (Some 2000000)
                 (Migration.set_error (JStr "'list' object has no attribute 'get'")
                    (Migration.set_status FAILED Demo.job_running))).
Proof.
  exact (proj1 (non_object_line_fails_job Demo.running "a" Demo.job_running (JArr [])
                  2000000 demo_running_job ltac:(discriminate))).
Defined.

(** ** Jobs that have left [RUNNING] *)

(** Rewriting one registry entry without touching its snapshot leaves every
    job's snapshot as it was. *)
Lemma progress_of_update (self : MigrationEngine) (migration_id other : string)
    (m m' : Migration.t) :
  _migrations self !! other = Some m ->
  Migration.progress m' = Migration.progress m ->
  progress_of migration_id (set_migrations (<[other := m']> (_migrations self)) self)
    = progress_of migration_id self.
Proof.
  intros Hm Hp. unfold progress_of. cbn. rewrite lookup_insert.
  case_decide as Heq; [|done]. subst. rewrite Hm. cbn. by rewrite Hp.
Qed.

Lemma progress_of_finalize (self : MigrationEngine) (migration_id other : string)
    (now : Z) :
  progress_of migration_id (finalize other now self) = progress_of migration_id self.
Proof.
  unfold finalize. destruct (_migrations self !! other) as [m|] eqn:Hm; [|done].
  change (progress_of migration_id
            (set_migrations
               (<[other := Migration.set_completed_at (Some now) m]> (_migrations self))
               self) = progress_of migration_id self).
  by apply progress_of_update with m.
Qed.

Lemma progress_of_fail (self : MigrationEngine) (migration_id other message : string)
    (now : Z) :
  progress_of migration_id (fail other message now self) = progress_of migration_id self.
Proof.
  unfold fail. destruct (_migrations self !! other) as [m|] eqn:Hm; [|done].
  rewrite progress_of_finalize. by apply progress_of_update with m.
Qed.

Lemma progress_of_on_exit (self : MigrationEngine) (migration_id other : string)
    (returncode now : Z) :
  progress_of migration_id (on_exit other returncode now self)
    = progress_of migration_id self.
Proof.
  unfold on_exit. destruct (_migrations self !! other) as [m|] eqn:Hm; [|done].
  rewrite progress_of_finalize. apply progress_of_update with m; [done|].
  destruct (returncode =? 0); [done|]. cbn.
  by destruct (truthy (Migration.error m)).
Qed.

Lemma progress_of_start (self : MigrationEngine) (migration_id other : string) (now : Z) :
  progress_of migration_id (snd (start_migration other now self))
    = progress_of migration_id self.
Proof.
  unfold start_migration.
  destruct (_migrations self !! other) as [m|] eqn:Hm; [|done].
  destruct (negb _); [done|].
  destruct (get_source_connection _ _); [|done].
  destruct (get_snowflake_connection _ _); [|done].
  set (m1 := Migration.set_started_at (Some now) (Migration.set_status RUNNING m)).
  set (self1 := set_migrations (<[other := m1]> (_migrations self)) self).
  assert (H1 : progress_of migration_id self1 = progress_of migration_id self)
    by (by apply progress_of_update with m).
  destruct (_ <? _); cbn [snd].
  - rewrite <- H1. apply progress_of_update with m1; [|done].
    subst self1. cbn. apply lookup_insert_eq.
  - exact H1.
Qed.

Lemma progress_of_pause (self : MigrationEngine) (migration_id other : string) :
  progress_of migration_id (snd (pause_migration other self))
    = progress_of migration_id self.
Proof.
  unfold pause_migration.
  destruct (_migrations self !! other) as [m|] eqn:Hm; [|done].
  destruct (negb _); [done|]. cbn [snd].
  destruct (_processes self !! other) as [p|].
  - by apply (progress_of_update (deliver p SIGINT self) _ _ m).
  - by apply (progress_of_update self _ _ m).
Qed.

Lemma progress_of_cancel (self : MigrationEngine) (migration_id other : string)
    (now : Z) (timed_out : bool) :
  progress_of migration_id (snd (cancel_migration other now timed_out self))
    = progress_of migration_id self.
Proof.
  unfold cancel_migration.
  destruct (_migrations self !! other) as [m|] eqn:Hm; [|done]. cbn [snd].
  destruct (_processes self !! other) as [p|]; [destruct timed_out|].
  - by apply (progress_of_update (deliver p SIGKILL (deliver p SIGTERM self)) _ _ m).
  - by apply (progress_of_update (deliver p SIGTERM self) _ _ m).
  - by apply (progress_of_update self _ _ m).
Qed.

Lemma progress_of_read_errors (self : MigrationEngine) (migration_id other : string)
    (l : line) :
  progress_of migration_id (snd (read_errors other l self))
    = progress_of migration_id self.
Proof.
  unfold read_errors.
  destruct (_migrations self !! other) as [m|] eqn:Hm; [|done].
  destruct l as [msg| |[]]; try done.
  destruct (eq_str _ _); [|done]. by apply progress_of_update with m.
Qed.

(** The snapshot of a job is written by the stdout reader of a run and by
    nothing else. *)
Lemma progress_written_by_stdout_only (self : MigrationEngine) (o : op)
    (migration_id : string) :
  admissible o self ->
  is_Some (_migrations self !! migration_id) ->
  (forall other l now, o <> Child other (Stdout l) now) ->
  progress_of migration_id (step o self) = progress_of migration_id self.
Proof.
  intros Hadm [m Hm] Hout. destruct o as [config new_id| | | | | |other ev now]; cbn [step].
  - cbn in Hadm. unfold progress_of, create_migration. cbn.
    rewrite lookup_insert_ne; [done|]. intros ->. congruence.
  - apply progress_of_start.
  - apply progress_of_pause.
  - apply progress_of_start.
  - apply progress_of_cancel.
  - done.
  - unfold _run_migration_step.
    destruct (_migrations self !! other) as [m'|] eqn:Hm'; [|done].
    destruct ev as [[child_pid| |e]|l|l|returncode|]; cbn [snd].
    + by apply progress_of_update with m'.
    + apply progress_of_fail.
    + apply progress_of_fail.
    + by destruct (Hout other l now).
    + pose proof (progress_of_read_errors self migration_id other l) as H.
      destruct (read_errors other l self) as [[[]|e] self']; cbn [snd] in *; [done|].
      by rewrite progress_of_fail.
    + apply progress_of_on_exit.
    + apply progress_of_finalize.
Qed.

(** C1 (as amended). A job in a terminal status cannot be started, resumed
    or paused: each of the three raises the invalid-state [ValueError] and
    leaves the engine exactly as it was.  And the snapshot of a job, in
    whatever status, is left alone by every operation except a stdout line
    of a run: no control operation and no exit handling writes it. *)
Theorem terminal_job_refuses_start_and_pause (self : MigrationEngine)
    (migration_id : string) (migration : Migration.t) :
  _migrations self !! migration_id = Some migration ->
  (terminal (Migration.status migration) = true ->
   (forall now,
      start_migration migration_id now self
        = (Raised (CannotStart (Migration.status migration)), self))
   /\ (forall now,
      resume_migration migration_id now self
        = (Raised (CannotStart (Migration.status migration)), self))
   /\ pause_migration migration_id self = (Raised CanOnlyPauseRunning, self))
  /\ (forall o,
     admissible o self ->
     (forall other l now, o <> Child other (Stdout l) now) ->
     progress_of migration_id (step o self) = Some (Migration.progress migration)).
Proof.
  intros Hm. split.
  - intros Ht.
    assert (Hstart : forall now,
      start_migration migration_id now self
        = (Raised (CannotStart (Migration.status migration)), self)).
    { intros now. unfold start_migration. rewrite Hm.
      by destruct (Migration.status migration). }
    repeat split; try exact Hstart.
    apply pause_requires_running with migration; [done|].
    intros Hs. by rewrite Hs in Ht.
  - intros o Hadm Hout.
    rewrite progress_written_by_stdout_only; [|done|by exists migration|done].
    unfold progress_of. by rewrite Hm.
Qed.

Lemma terminal_job_refuses_start_and_pause_witness :
  start_migration "a" 9500000 Demo.completed
    = (Raised (CannotStart COMPLETED), Demo.completed)
  /\ pause_migration "a" Demo.completed = (Raised CanOnlyPauseRunning, Demo.completed)
  /\ progress_of "a" (step (Pause "a") Demo.running)
     = Some (Migration.progress Demo.job_running).
Proof.
  destruct (terminal_job_refuses_start_and_pause Demo.completed "a" Demo.job_completed
              demo_completed_job) as [Hterminal _].
  destruct (Hterminal eq_refl) as (Hstart & _ & Hpause).
  destruct (terminal_job_refuses_start_and_pause Demo.running "a" Demo.job_running
              demo_running_job) as [_ Hsnapshot].
  split; [exact (Hstart 9500000)|]. split; [exact Hpause|].
  apply Hsnapshot; [exact I|]. intros other l now. discriminate.
Defined.

(** C1 (as the specification words it) fails: cancelling the job of
    [Demo.completed], which is [COMPLETED], rewrites its status and its
    completion time; and a paused job whose child is still writing gets its
    snapshot updated by the next stdout line. *)
Lemma terminal_job_is_rewritten :
  ~ terminal_jobs_immutable /\ ~ snapshot_frozen_after_running.
Proof.
  split.
  - intros H.
    specialize (H Demo.completed (Cancel "a" 9500000 false) "a" Demo.job_completed
                  demo_completed_reachable I demo_completed_job eq_refl).
    vm_compute in H. discriminate.
  - intros H.
    set (paused := run [Pause "a"] Demo.running).
    assert (Hr : reachable paused).
    { apply reachable_run; [apply demo_running_reachable|]. vm_compute. reflexivity. }
    assert (Hm : _migrations paused !! "a"
                 = Some (Migration.set_status PAUSED Demo.job_running))
      by (vm_compute; reflexivity).
    specialize (H paused
      (Child "a" (Stdout (Decoded (JObj [("type", JStr "table_complete")]))) 2000000)
      "a" _ Hr I Hm eq_refl).
    vm_compute in H. discriminate.
Qed.

(** ** Admission *)

Section Counting.
Variable f : MigrationStatus -> bool.
Variable ms : gmap string Migration.t.
Variable migration_id : string.

(** A registered job counts for one, or for nothing, beside the others. *)
Lemma count_status_delete (m : Migration.t) :
  ms !! migration_id = Some m ->
  count_status f ms
    = count_status f (delete migration_id ms) + (if f (Migration.status m) then 1 else 0).
Proof.
  intros Hm. unfold count_status.
  assert (Hperm : map_to_list ms ≡ₚ (migration_id, m) :: map_to_list (delete migration_id ms))
    by (symmetry; by apply map_to_list_delete).
  rewrite Hperm. cbn [fmap list_fmap snd].
  rewrite filter_cons. destruct (f (Migration.status m)) eqn:Hf.
  - rewrite decide_True by done. cbn [length]. lia.
  - rewrite decide_False by (by intros ?). lia.
Qed.
End Counting.

Lemma count_status_insert (f : MigrationStatus -> bool) (ms : gmap string Migration.t)
    (migration_id : string) (m : Migration.t) :
  count_status f (<[migration_id := m]> ms)
    = count_status f (delete migration_id ms) + (if f (Migration.status m) then 1 else 0).
Proof.
  rewrite (count_status_delete f (<[migration_id := m]> ms) migration_id m)
    by apply lookup_insert_eq.
  by rewrite delete_insert_eq.
Qed.

Lemma count_status_mono (f g : MigrationStatus -> bool) (ms : gmap string Migration.t) :
  (forall s, f s = true -> g s = true) ->
  count_status f ms <= count_status g ms.
Proof.
  intros Hfg. unfold count_status.
  induction ((map_to_list ms).*2) as [|m l IH]; [done|].
  rewrite !filter_cons.
  destruct (decide (f (Migration.status m) = true)) as [Hf|Hf].
  - rewrite decide_True by auto. cbn [length]. lia.
  - destruct (decide (g (Migration.status m) = true)); cbn [length]; lia.
Qed.

(** The length [start_migration] compares with the ceiling is the number of
    jobs that are [RUNNING], [QUEUED] or [PAUSED]. *)
Lemma active_count_spec (self : MigrationEngine) :
  Z.of_nat (length (list_active_migrations self)) = count_status is_active (_migrations self).
Proof. reflexivity. Qed.

(** What [start_migration] does once it reaches the admission check. *)
Lemma start_migration_admission (self : MigrationEngine) (migration_id : string) (now : Z)
    (migration : Migration.t) (source_conn : SourceConnection.t)
    (target_conn : SnowflakeConnection.t) :
  _migrations self !! migration_id = Some migration ->
  startable (Migration.status migration) = true ->
  get_source_connection (_connection_manager self)
    (Migration.source_connection_id migration) = Some source_conn ->
  get_snowflake_connection (_connection_manager self)
    (Migration.target_connection_id migration) = Some target_conn ->
  let limit := max_concurrent_migrations (performance (_config self)) in
  let started := Migration.set_started_at (Some now) (Migration.set_status RUNNING migration) in
  start_migration migration_id now self =
    if limit <? count_status is_active (_migrations self) then
      (Raised (ConcurrencyLimitExceeded limit),
       set_migrations
         (<[migration_id := Migration.set_status QUEUED started]>
            (<[migration_id := started]> (_migrations self))) self)
    else
      (Ok (),
       create_task
         {| inv_migration_id := migration_id;
            inv_args := migrate_args source_conn target_conn started;
            inv_env := migrate_env source_conn target_conn |}
         (set_migrations (<[migration_id := started]> (_migrations self)) self)).
Proof.
  intros Hm Hs Hsrc Htgt limit started.
  unfold start_migration. rewrite Hm, Hs, Hsrc, Htgt. cbn [negb].
  rewrite active_count_spec. cbn [_migrations set_migrations _config].
  rewrite count_status_insert.
  rewrite (count_status_delete is_active (_migrations self) migration_id migration Hm).
  assert (Ha : is_active (Migration.status migration) = true)
    by (by destruct (Migration.status migration)).
  rewrite Ha. reflexivity.
Qed.

(** C2 (as amended). A start that reaches the admission check is admitted
    iff the number of jobs that are Running, Queued or Paused (the job being
    started is one of them) does not exceed the ceiling.  A refused start
    raises the concurrency-limit [ValueError], schedules nothing and leaves
    the job [QUEUED]; an admitted one leaves it [RUNNING].  In particular,
    when as many jobs as the ceiling are already [RUNNING], the start of one
    more is refused. *)
Theorem start_admitted_iff_active_within_ceiling (self : MigrationEngine)
    (migration_id : string) (now : Z) (migration : Migration.t)
    (source_conn : SourceConnection.t) (target_conn : SnowflakeConnection.t) :
  _migrations self !! migration_id = Some migration ->
  startable (Migration.status migration) = true ->
  get_source_connection (_connection_manager self)
    (Migration.source_connection_id migration) = Some source_conn ->
  get_snowflake_connection (_connection_manager self)
    (Migration.target_connection_id migration) = Some target_conn ->
  let limit := max_concurrent_migrations (performance (_config self)) in
  let after := snd (start_migration migration_id now self) in
  (fst (start_migration migration_id now self) = Ok ()
     <-> count_status is_active (_migrations self) <= limit)
  /\ (count_status is_active (_migrations self) <= limit ->
        status_of migration_id after = Some RUNNING)
  /\ (limit < count_status is_active (_migrations self) ->
        fst (start_migration migration_id now self) = Raised (ConcurrencyLimitExceeded limit)
        /\ status_of migration_id after = Some QUEUED
        /\ scheduled after = scheduled self)
  /\ (limit <= count_status is_running (_migrations self) ->
        fst (start_migration migration_id now self) = Raised (ConcurrencyLimitExceeded limit)
        /\ status_of migration_id after = Some QUEUED).
Proof.
  intros Hm Hs Hsrc Htgt limit after.
  pose proof (start_migration_admission self migration_id now migration source_conn
                target_conn Hm Hs Hsrc Htgt) as Hstart.
  cbn zeta in Hstart. fold limit in Hstart. subst after.
  assert (Hrun : count_status is_running (_migrations self) + 1
                   <= count_status is_active (_migrations self)).
  { rewrite (count_status_delete is_running _ migration_id migration Hm).
    rewrite (count_status_delete is_active _ migration_id migration Hm).
    pose proof (count_status_mono is_running is_active
                  (delete migration_id (_migrations self))) as Hmono.
    destruct (Migration.status migration); try discriminate; cbn;
      (specialize (Hmono ltac:(by intros [])); lia). }
  rewrite Hstart.
  destruct (Z.ltb_spec limit (count_status is_active (_migrations self))) as [Hlt|Hle];
    cbn [fst snd].
  - split; [split; [discriminate|lia]|].
    split; [lia|].
    assert (Hq : status_of migration_id
      (set_migrations
         (<[migration_id :=
              Migration.set_status QUEUED
                (Migration.set_started_at (Some now)
                   (Migration.set_status RUNNING migration))]>
            (<[migration_id :=
                 Migration.set_started_at (Some now)
                   (Migration.set_status RUNNING migration)]> (_migrations self))) self)
      = Some QUEUED).
    { unfold status_of. cbn. by rewrite lookup_insert_eq. }
    split; [intros _|intros _]; repeat split; done.
  - split; [split; [done|done]|].
    split.
    + intros _. unfold status_of. cbn. by rewrite lookup_insert_eq.
    + split; intros; lia.
Qed.

Lemma start_admitted_iff_active_within_ceiling_witness :
  fst (start_migration "b" 3000000 Demo.one_running_one_queued)
    = Raised (ConcurrencyLimitExceeded 1)
  /\ status_of "b" (snd (start_migration "b" 3000000 Demo.one_running_one_queued))
     = Some QUEUED.
Proof.
  destruct (start_admitted_iff_active_within_ceiling Demo.one_running_one_queued "b"
              3000000 Demo.job_queued Demo.source Demo.target
              (proj1 demo_queued_job) eq_refl eq_refl eq_refl)
    as (_ & _ & _ & Hrefused).
  apply Hrefused. vm_compute. discriminate.
Defined.

(** C2 (as the specification words it) fails.  With a ceiling of one, job
    ["a"] paused and job ["b"] queued, one job is Running or Queued, which
    does not exceed the ceiling; the start of ["b"] is refused all the same,
    because the paused job is counted too. *)
Lemma paused_job_counts_against_ceiling : ~ admitted_iff_running_queued_within_ceiling.
Proof.
  intros H.
  assert (Hr : reachable Demo.one_paused_one_queued).
  { apply reachable_run; [apply reachable_init|]. vm_compute. reflexivity. }
  destruct (H Demo.one_paused_one_queued "b" 3000000 Demo.job_queued Demo.source
              Demo.target Hr (proj2 demo_queued_job) eq_refl eq_refl eq_refl)
    as [_ Hadmit].
  assert (Hcount :
    count_status running_or_queued (_migrations Demo.one_paused_one_queued)
      <= max_concurrent_migrations (performance (_config Demo.one_paused_one_queued)))
    by (vm_compute; discriminate).
  specialize (Hadmit Hcount). vm_compute in Hadmit. discriminate.
Qed.

(** ** Bounds on the counters *)

(** The throughput block writes the rate and the ETA only. *)
Lemma estimate_counters (p p' : MigrationProgress.t) (started_at : option Z) (now : Z) :
  estimate p started_at now = Ok p' ->
  MigrationProgress.total_tables p' = MigrationProgress.total_tables p
  /\ MigrationProgress.completed_tables p' = MigrationProgress.completed_tables p
  /\ MigrationProgress.total_rows p' = MigrationProgress.total_rows p
  /\ MigrationProgress.migrated_rows p' = MigrationProgress.migrated_rows p.
Proof.
  unfold estimate. destruct p as [tt ct cur curp tr mr rps eta]. cbn.
  destruct (gt_zero mr) as [[]|e]; cbn; try discriminate.
  - destruct started_at as [started|]; [|by intros [= <-]].
    destruct (negb (Qle_bool (total_seconds (now - started)) 0)); [|by intros [= <-]].
    destruct (py_truediv mr _) as [rate|e]; cbn; [|discriminate].
    destruct (py_sub tr mr) as [remaining|e]; cbn; [|discriminate].
    destruct (float_gt_zero rate); [|by intros [= <-]].
    destruct (number_truediv remaining (Float rate) ≫= float_to_int) as [eta'|e]; cbn;
      [|discriminate].
    by intros [= <-].
  - by intros [= <-].
Qed.

Lemma eq_str_exclusive (v : json) (s s' : string) :
  eq_str v s = true -> s <> s' -> eq_str v s' = false.
Proof.
  destruct v; try discriminate. cbn.
  intros Hs Hne. apply String.eqb_eq in Hs. subst.
  by apply String.eqb_neq.
Qed.

(** A freshly created job is within the bounds. *)
Lemma new_snapshot_bounded (config : MigrationConfig.t) (new_id : string)
    (self : MigrationEngine) :
  snapshot_bounded (Migration.progress (fst (create_migration config new_id self))).
Proof.
  split.
  - unfold tables_bounded. cbn. lia.
  - intros total migrated. cbn. intros [= <-]. lia.
Qed.

(** One event: the inductive step of the bounds. *)
Lemma parse_progress_bounded (migration : Migration.t) (fields : list (string * json))
    (now : Z) (p' : MigrationProgress.t) :
  snapshot_bounded (Migration.progress migration) ->
  respects_bounds fields (Migration.progress migration) ->
  _parse_progress (JObj fields) migration now = Ok p' ->
  snapshot_bounded p'
  /\ MigrationProgress.total_tables p'
     = MigrationProgress.total_tables (Migration.progress migration).
Proof.
  intros [Htab Hrows] [Htc Hpr]. unfold _parse_progress. intros Hest.
  apply estimate_counters in Hest as (Htt & Hct & Htr & Hmr).
  unfold snapshot_bounded, tables_bounded, rows_bounded in *.
  rewrite Htt, Hct, Htr, Hmr. clear Htt Hct Htr Hmr.
  unfold apply_message.
  destruct (Migration.progress migration) as [tt ct cur curp tr mr rps eta]. cbn in *.
  set (msg_type := dict_get fields "type" (JStr "")) in *.
  destruct (eq_str msg_type "progress") eqn:Hp; cbn.
  { split; [split; [done|]|done]. by apply Hpr. }
  destruct (eq_str msg_type "table_complete") eqn:Ht; cbn.
  { split; [split; [|done]|done]. specialize (Htc eq_refl). lia. }
  destruct (eq_str msg_type "complete") eqn:Hc; cbn.
  { split; [split; [lia|]|done]. intros total migrated -> [= ->]. lia. }
  done.
Qed.




(** ** Credentials *)

(** The argument list is a function of the non-secret fields: replacing
    the two passwords by any others gives the same list. *)
Lemma migrate_args_ignores_passwords (source_conn : SourceConnection.t)
    (target_conn : SnowflakeConnection.t) (migration : Migration.t)
    (secret secret' : SecretStr) :
  migrate_args (set_source_password secret source_conn)
    (set_target_password secret' target_conn) migration
  = migrate_args source_conn target_conn migration.
Proof. reflexivity. Qed.

Lemma migrate_args_nonsecret (source_conn : SourceConnection.t)
    (target_conn : SnowflakeConnection.t) (migration : Migration.t) (arg : string) :
  arg ∈ migrate_args source_conn target_conn migration ->
  arg ∈ flags \/ arg ∈ nonsecret_values source_conn target_conn migration.
Proof.
  unfold migrate_args. intros Harg.
  repeat (apply elem_of_cons in Harg as [->|Harg]);
    try solve [left; unfold flags; repeat constructor
              |right; unfold nonsecret_values; repeat constructor].
  by apply elem_of_nil in Harg.
Qed.

Lemma migrate_env_lookup (source_conn : SourceConnection.t)
    (target_conn : SnowflakeConnection.t) (key value : string) :
  migrate_env source_conn target_conn !! key = Some value <->
    (key = "SNOWMIGRATE_SOURCE_PASSWORD"
       /\ value = get_secret_value (SourceConnection.password source_conn))
    \/ (key = "SNOWMIGRATE_TARGET_PASSWORD"
       /\ value = get_secret_value (SnowflakeConnection.password target_conn)).
Proof.
  unfold migrate_env.
  destruct (decide (key = "SNOWMIGRATE_TARGET_PASSWORD")) as [->|Hne].
  - rewrite lookup_insert_eq. split.
    + intros [= <-]. by right.
    + intros [[? _]|[_ ->]]; [discriminate|done].
  - rewrite lookup_insert_ne by done.
    destruct (decide (key = "SNOWMIGRATE_SOURCE_PASSWORD")) as [->|Hne'].
    + rewrite lookup_insert_eq. split.
      * intros [= <-]. by left.
      * intros [[_ ->]|[? _]]; [done|discriminate].
    + rewrite lookup_insert_ne by done. rewrite lookup_empty.
      split; [discriminate|]. intros [[-> _]|[-> _]]; done.
Qed.

(** C8. When a start is admitted, the coroutine it schedules is given the
    argument list built from the non-secret fields of the two connections
    and of the job: every argument is a fixed word of the command line or the
    value of one of those fields, and the list is the same whatever the two
    passwords are, so no argument carries a secret.  The passwords travel in
    the environment map, which holds exactly two entries, the source password
    and the target password; the child's environment is that map laid over
    the inherited one. *)
Theorem secrets_only_in_environment (self : MigrationEngine) (migration_id : string)
    (now : Z) (migration : Migration.t) (source_conn : SourceConnection.t)
    (target_conn : SnowflakeConnection.t) :
  _migrations self !! migration_id = Some migration ->
  get_source_connection (_connection_manager self)
    (Migration.source_connection_id migration) = Some source_conn ->
  get_snowflake_connection (_connection_manager self)
    (Migration.target_connection_id migration) = Some target_conn ->
  fst (start_migration migration_id now self) = Ok () ->
  exists inv,
    scheduled (snd (start_migration migration_id now self)) = scheduled self ++ [inv]
    /\ inv_migration_id inv = migration_id
    /\ (forall arg,
          arg ∈ inv_args inv ->
          arg ∈ flags \/ arg ∈ nonsecret_values source_conn target_conn migration)
    /\ (forall secret secret',
          inv_args inv
          = migrate_args (set_source_password secret source_conn)
              (set_target_password secret' target_conn)
              (Migration.set_started_at (Some now)
                 (Migration.set_status RUNNING migration)))
    /\ (forall key value,
          inv_env inv !! key = Some value <->
            (key = "SNOWMIGRATE_SOURCE_PASSWORD"
               /\ value = get_secret_value (SourceConnection.password source_conn))
            \/ (key = "SNOWMIGRATE_TARGET_PASSWORD"
               /\ value = get_secret_value (SnowflakeConnection.password target_conn)))
    /\ (forall os_environ key,
          process_env os_environ (inv_env inv) !! key
          = match inv_env inv !! key with
            | Some value => Some value
            | None => os_environ !! key
            end).
Proof.
  intros Hm Hsrc Htgt. unfold start_migration. rewrite Hm, Hsrc, Htgt.
  destruct (negb (startable (Migration.status migration))); [discriminate|].
  destruct (_ <? _); [discriminate|]. intros _. cbn [snd].
  eexists. split; [reflexivity|]. cbn [inv_migration_id inv_args inv_env].
  split; [reflexivity|]. split; [|split; [|split]].
  - intros arg Harg. by apply migrate_args_nonsecret in Harg.
  - intros secret secret'. by rewrite migrate_args_ignores_passwords.
  - apply migrate_env_lookup.
  - intros os_environ key. unfold process_env. rewrite lookup_union.
    destruct (migrate_env source_conn target_conn !! key);
      by destruct (os_environ !! key).
Qed.

Lemma secrets_only_in_environment_witness :
  exists inv,
    scheduled (snd (start_migration "a" 1000000 Demo.created)) = [inv]
    /\ inv_env inv !! "SNOWMIGRATE_SOURCE_PASSWORD" = Some "s3cr3t-src"
    /\ inv_env inv !! "SNOWMIGRATE_TARGET_PASSWORD" = Some "s3cr3t-tgt".
Proof.
  destruct (secrets_only_in_environment Demo.created "a" 1000000 Demo.job_created
              Demo.source Demo.target demo_created_job eq_refl eq_refl)
    as (inv & Hsched & _ & _ & _ & Henv & _).
  - vm_compute. reflexivity.
  - exists inv. split; [exact Hsched|]. split; apply Henv; [left|right]; done.
Defined.

(** The arguments of the demo job, in full. *)
Example demo_arguments :
  inv_args <$> scheduled Demo.running =
    [[ "migrate"; "--source-type"; "postgres"; "--source-host"; "db.internal";
       "--source-port"; "5432"; "--source-database"; "orders";
       "--source-user"; "etl"; "--tables"; "public.users";
       "--target-account"; "acme-eu"; "--target-warehouse"; "LOAD_WH";
       "--target-database"; "ANALYTICS"; "--target-schema"; "PUBLIC";
       "--target-user"; "loader"; "--staging-id"; "s3-default";
       "--progress-format"; "json" ]].
Proof. vm_compute. reflexivity. Qed.

(** ** Further properties of the engine *)

(** X1. In every engine a program can hold, [_processes] is empty and no
    signal has been delivered: the handle of a launched child is never
    registered, so neither [pause_migration] nor [cancel_migration] ever
    reaches a process. *)
Theorem process_registry_never_filled (self : MigrationEngine) :
  reachable self -> _processes self = ∅ /\ delivered self = [].
Proof. intros Hr. exact (reachable_unbound self Hr). Qed.

Lemma process_registry_never_filled_witness :
  _processes Demo.running = ∅ /\ delivered Demo.running = [].
Proof. exact (process_registry_never_filled Demo.running demo_running_reachable). Defined.

(** X4. A job is listed, and counts against the ceiling, from the moment
    it is created.  [create_migration] with a fresh id adds exactly the job
    it returns to [list_migrations] and to [list_active_migrations] (the
    job is Queued, and Queued jobs are active), gives it an empty progress
    queue and makes [get_migration] find it. *)
Theorem created_job_is_listed_and_active (config : MigrationConfig.t) (new_id : string)
    (self : MigrationEngine) :
  _migrations self !! new_id = None ->
  let migration := fst (create_migration config new_id self) in
  let self' := snd (create_migration config new_id self) in
  get_migration new_id self' = Some migration
  /\ Migration.status migration = QUEUED
  /\ list_migrations self' ≡ₚ migration :: list_migrations self
  /\ list_active_migrations self' ≡ₚ migration :: list_active_migrations self
  /\ _progress_queues self' !! new_id = Some [].
Proof.
  intros Hfresh. cbn zeta. unfold get_migration, list_active_migrations, list_migrations.
  cbn [create_migration fst snd _migrations _progress_queues set_progress_queues
       set_migrations].
  rewrite !lookup_insert_eq. split; [done|]. split; [done|].
  rewrite map_to_list_insert by done. cbn [fmap list_fmap snd].
  split; [done|]. split; [|done].
  rewrite filter_cons. by rewrite decide_True.
Qed.

Lemma created_job_is_listed_and_active_witness :
  length (list_active_migrations
            (snd (create_migration (Demo.spec [Demo.orders]) "b" Demo.running)))
  = 2%nat.
Proof.
  destruct (created_job_is_listed_and_active (Demo.spec [Demo.orders]) "b" Demo.running
              ltac:(vm_compute; reflexivity)) as (_ & _ & _ & Hactive & _).
  rewrite Hactive. vm_compute. reflexivity.
Defined.

(** X5. A child that cannot be launched fails the job at once: the status
    becomes [FAILED], the error message names the path of the missing tool
    (or carries the text of the exception raised by the launch), and
    [completed_at] is set. *)
Theorem launch_failure_fails_job (self : MigrationEngine) (migration_id : string)
    (migration : Migration.t) (now : Z) (e : exn) :
  _migrations self !! migration_id = Some migration ->
  (exists self',
     _run_migration_step migration_id (Launch LaunchNotFound) now self = (false, self')
     /\ _migrations self' !! migration_id
        = Some (Migration.set_completed_at (Some now)
                  (Migration.set_error
                     (JStr ("CLI tool not found at " +:+ path (cli (_config self))))
                     (Migration.set_status FAILED migration))))
  /\ (exists self',
     _run_migration_step migration_id (Launch (LaunchError e)) now self = (false, self')
     /\ _migrations self' !! migration_id
        = Some (Migration.set_completed_at (Some now)
                  (Migration.set_error (JStr (exn_str e))
                     (Migration.set_status FAILED migration)))).
Proof.
  intros Hm. unfold _run_migration_step. rewrite Hm.
  split; eexists; (split; [reflexivity|by apply fail_lookup]).
Qed.

Lemma launch_failure_fails_job_witness :
  exists self',
    _run_migration_step "a" (Launch LaunchNotFound) 1000001
      (snd (start_migration "a" 1000000 Demo.created)) = (false, self')
    /\ status_of "a" self' = Some FAILED
    /\ error_of "a" self'
       = Some (JStr "CLI tool not found at /usr/local/bin/migrate-tool").
Proof.
  destruct (launch_failure_fails_job (snd (start_migration "a" 1000000 Demo.created))
              "a"
              (Migration.set_started_at (Some 1000000)
                 (Migration.set_status RUNNING Demo.job_created))
              1000001 (Raise OtherError "") ltac:(vm_compute; reflexivity))
    as [(self' & Hstep & Hl) _].
  exists self'. split; [exact Hstep|].
  unfold status_of, error_of. rewrite Hl. split; reflexivity.
Defined.

(** ** The job state machine *)

Lemma apply_message_total_tables (msg_type : json) (data : list (string * json))
    (p : MigrationProgress.t) :
  MigrationProgress.total_tables (apply_message msg_type data p)
    = MigrationProgress.total_tables p.
Proof.
  unfold apply_message. destruct p as [tt ct cur curp tr mr rps eta].
  by repeat case_match.
Qed.

Lemma parse_progress_total_tables (data : json) (m : Migration.t) (now : Z)
    (p : MigrationProgress.t) :
  _parse_progress data m now = Ok p ->
  MigrationProgress.total_tables p = MigrationProgress.total_tables (Migration.progress m).
Proof.
  unfold _parse_progress. destruct data; try discriminate.
  intros Hest. apply estimate_counters in Hest as (-> & _).
  apply apply_message_total_tables.
Qed.

Lemma finalize_migrations (migration_id : string) (now : Z) (self : MigrationEngine)
    (m : Migration.t) :
  _migrations self !! migration_id = Some m ->
  _migrations (finalize migration_id now self)
    = <[migration_id := Migration.set_completed_at (Some now) m]> (_migrations self).
Proof. intros Hm. unfold finalize. by rewrite Hm. Qed.

Lemma fail_migrations (migration_id message : string) (now : Z) (self : MigrationEngine)
    (m : Migration.t) :
  _migrations self !! migration_id = Some m ->
  _migrations (fail migration_id message now self)
    = <[migration_id :=
          Migration.set_completed_at (Some now)
            (Migration.set_error (JStr message) (Migration.set_status FAILED m))]>
        (_migrations self).
Proof.
  intros Hm. unfold fail. rewrite Hm.
  erewrite finalize_migrations by (cbn; apply lookup_insert_eq).
  cbn. by rewrite insert_insert_eq.
Qed.

Lemma on_exit_migrations (migration_id : string) (returncode now : Z)
    (self : MigrationEngine) (m : Migration.t) :
  _migrations self !! migration_id = Some m ->
  _migrations (on_exit migration_id returncode now self)
    = <[migration_id := Migration.set_completed_at (Some now) (exited returncode m)]>
        (_migrations self).
Proof.
  intros Hm. unfold on_exit. rewrite Hm.
  erewrite finalize_migrations by (cbn; apply lookup_insert_eq).
  cbn. by rewrite insert_insert_eq.
Qed.

Lemma read_progress_migrations (migration_id : string) (l : line) (now : Z)
    (self : MigrationEngine) (m : Migration.t) :
  _migrations self !! migration_id = Some m ->
  _migrations (snd (read_progress migration_id l now self)) = _migrations self
  \/ exists p,
       MigrationProgress.total_tables p
         = MigrationProgress.total_tables (Migration.progress m)
       /\ fst (read_progress migration_id l now self) = Ok ()
       /\ _migrations (snd (read_progress migration_id l now self))
          = <[migration_id := Migration.set_progress p m]> (_migrations self).
Proof.
  intros Hm. unfold read_progress. rewrite Hm.
  destruct l as [msg| |data]; [by left|by left|].
  destruct (_parse_progress data m now) as [p|e] eqn:Hparse; [|by left].
  right. exists p. split; [by eapply parse_progress_total_tables|].
  cbn [_progress_queues set_migrations].
  by destruct (_progress_queues self !! migration_id).
Qed.

Lemma read_errors_migrations (migration_id : string) (l : line) (self : MigrationEngine)
    (m : Migration.t) :
  _migrations self !! migration_id = Some m ->
  _migrations (snd (read_errors migration_id l self)) = _migrations self
  \/ exists msg,
       fst (read_errors migration_id l self) = Ok ()
       /\ _migrations (snd (read_errors migration_id l self))
          = <[migration_id := Migration.set_error msg m]> (_migrations self).
Proof.
  intros Hm. unfold read_errors. rewrite Hm.
  destruct l as [msg| |[]]; try by left.
  destruct (eq_str _ _); [|by left]. right. by eexists.
Qed.

(** [create_migration] adds the new job; every other operation leaves the
    registry as it is or takes the job it names one step further. *)
Lemma step_registry (o : op) (self : MigrationEngine) :
  match o with
  | Create config new_id =>
      _migrations (step o self)
        = <[new_id := new_job config new_id]> (_migrations self)
      /\ _progress_queues (step o self) = <[new_id := []]> (_progress_queues self)
  | _ => registry_step (_migrations self) (target o) (_migrations (step o self))
  end.
Proof.
  destruct o as [config new_id|id now|id|id now|id now timed_out|manager
                              |id ev now]; cbn [step target].
  - done.
  - unfold start_migration.
    destruct (_migrations self !! id) as [m|] eqn:Hm; [|constructor].
    destruct (startable (Migration.status m)) eqn:Hs; [|constructor]. cbn [negb].
    destruct (get_source_connection _ _); [|constructor].
    destruct (get_snowflake_connection _ _); [|constructor].
    destruct (_ <? _); cbn.
    + rewrite insert_insert_eq. eapply registry_job; [done|by apply job_refused].
    + eapply registry_job; [done|by apply job_started].
  - unfold pause_migration.
    destruct (_migrations self !! id) as [m|] eqn:Hm; [|constructor].
    case_bool_decide as Hs; [|constructor]. cbn [negb].
    destruct (_processes self !! id); cbn;
      (eapply registry_job; [done|by apply job_paused]).
  - unfold resume_migration, start_migration.
    destruct (_migrations self !! id) as [m|] eqn:Hm; [|constructor].
    destruct (startable (Migration.status m)) eqn:Hs; [|constructor]. cbn [negb].
    destruct (get_source_connection _ _); [|constructor].
    destruct (get_snowflake_connection _ _); [|constructor].
    destruct (_ <? _); cbn.
    + rewrite insert_insert_eq. eapply registry_job; [done|by apply job_refused].
    + eapply registry_job; [done|by apply job_started].
  - unfold cancel_migration.
    destruct (_migrations self !! id) as [m|] eqn:Hm; [|constructor].
    destruct (_processes self !! id); [destruct timed_out|]; cbn;
      (eapply registry_job; [done|apply job_cancelled]).
  - constructor.
  - unfold _run_migration_step.
    destruct (_migrations self !! id) as [m|] eqn:Hm; [|constructor].
    destruct ev as [[child_pid| |e]|l|l|returncode|]; cbn [snd].
    + cbn. eapply registry_job; [done|apply job_launched].
    + rewrite (fail_migrations _ _ _ _ m Hm).
      eapply registry_job; [done|apply job_failed].
    + rewrite (fail_migrations _ _ _ _ m Hm).
      eapply registry_job; [done|apply job_failed].
    + destruct (read_progress_migrations id l now self m Hm) as [Hsame|(p & Hp & Hok & Hl)].
      * destruct (read_progress id l now self) as [[[]|e] self'] eqn:Hread;
          cbn [snd] in *.
        -- rewrite Hsame. constructor.
        -- rewrite (fail_migrations _ _ _ _ m) by (by rewrite Hsame).
           rewrite Hsame. eapply registry_job; [done|apply job_failed].
      * destruct (read_progress id l now self) as [[[]|e] self'] eqn:Hread;
          cbn [fst snd] in *; [|discriminate].
        rewrite Hl. eapply registry_job; [done|by apply job_snapshot].
    + destruct (read_errors_migrations id l self m Hm) as [Hsame|(msg & Hok & Hl)].
      * destruct (read_errors id l self) as [[[]|e] self'] eqn:Hread;
          cbn [snd] in *.
        -- rewrite Hsame. constructor.
        -- rewrite (fail_migrations _ _ _ _ m) by (by rewrite Hsame).
           rewrite Hsame. eapply registry_job; [done|apply job_failed].
      * destruct (read_errors id l self) as [[[]|e] self'] eqn:Hread;
          cbn [fst snd] in *; [|discriminate].
        rewrite Hl. eapply registry_job; [done|apply job_error].
    + rewrite (on_exit_migrations _ _ _ _ m Hm).
      eapply registry_job; [done|apply job_exited].
    + rewrite (finalize_migrations _ _ _ m Hm).
      eapply registry_job; [done|apply job_interrupted].
Qed.

Lemma job_step_spec (m m' : Migration.t) : job_step m m' -> spec_of m' = spec_of m.
Proof.
  destruct 1; try reflexivity.
  unfold exited. destruct (returncode =? 0); [done|].
  cbn. by destruct (truthy (Migration.error m)).
Qed.

Lemma exited_status (returncode : Z) (m : Migration.t) :
  Migration.status (exited returncode m) = if returncode =? 0 then COMPLETED else FAILED.
Proof.
  unfold exited. destruct (returncode =? 0); [done|].
  cbn. by destruct (truthy (Migration.error m)).
Qed.

Lemma job_step_terminal (m m' : Migration.t) :
  job_step m m' ->
  terminal (Migration.status m) = true -> terminal (Migration.status m') = true.
Proof.
  destruct 1; cbn; try done.
  - by destruct (Migration.status m).
  - by destruct (Migration.status m).
  - by rewrite H.
  - intros _. rewrite exited_status. by destruct (returncode =? 0).
Qed.

Lemma registry_step_lookup (ms ms' : gmap string Migration.t) (named : option string)
    (migration_id : string) (m : Migration.t) :
  registry_step ms named ms' ->
  ms !! migration_id = Some m ->
  exists m',
    ms' !! migration_id = Some m'
    /\ (m' = m \/ (named = Some migration_id /\ job_step m m')).
Proof.
  intros Hstep Hm. destruct Hstep as [named|other m0 m0' Hother Hjob].
  - exists m. auto.
  - destruct (decide (other = migration_id)) as [->|Hne].
    + exists m0'. rewrite lookup_insert_eq. split; [done|].
      right. split; [done|]. congruence.
    + exists m. rewrite lookup_insert_ne by done. auto.
Qed.

(** The registered jobs after one operation: each is as it was, or is the
    job the operation names, one step further. *)
Lemma step_lookup (o : op) (self : MigrationEngine) (migration_id : string)
    (m : Migration.t) :
  admissible o self ->
  _migrations self !! migration_id = Some m ->
  exists m',
    _migrations (step o self) !! migration_id = Some m'
    /\ (m' = m \/ (target o = Some migration_id /\ job_step m m')).
Proof.
  intros Hadm Hm. pose proof (step_registry o self) as Hstep.
  destruct o as [config new_id| | | | | |];
    try by apply registry_step_lookup with (_migrations self).
  destruct Hstep as [-> _]. cbn in Hadm.
  exists m. rewrite lookup_insert_ne by congruence. auto.
Qed.

(** X6. A registered job is never dropped and its specification never
    changes: after any sequence of operations it is still registered under
    the same id, with the same connections, staging area, tables and target
    schema.  And the terminal statuses are closed: a job that is Completed,
    Failed or Cancelled is in one of these three statuses ever after. *)
Theorem registered_job_keeps_spec (ops : list op) (self : MigrationEngine)
    (migration_id : string) (m : Migration.t) :
  fresh_ids ops self = true ->
  _migrations self !! migration_id = Some m ->
  exists m',
    _migrations (run ops self) !! migration_id = Some m'
    /\ spec_of m' = spec_of m
    /\ (terminal (Migration.status m) = true -> terminal (Migration.status m') = true).
Proof.
  revert self m. induction ops as [|o ops IH]; intros self m Hfresh Hm.
  - exists m. auto.
  - cbn in Hfresh. apply andb_prop in Hfresh as [Ho Hfresh].
    assert (Hadm : admissible o self).
    { destruct o; try exact I. cbn in *. by destruct (_migrations self !! new_id). }
    destruct (step_lookup o self migration_id m Hadm Hm) as (m1 & Hm1 & Hrel).
    destruct (IH (step o self) m1 Hfresh Hm1) as (m' & Hm' & Hspec & Hterm).
    exists m'. split; [exact Hm'|].
    destruct Hrel as [->|[_ Hjob]]; [auto|].
    split.
    + rewrite Hspec. by apply job_step_spec.
    + intros Ht. apply Hterm. by eapply job_step_terminal.
Qed.

Lemma registered_job_keeps_spec_witness :
  exists m',
    _migrations (run [Cancel "a" 9500000 false; Start "a" 9600000;
                      Child "a" (Exit 1) 9700000] Demo.completed) !! "a" = Some m'
    /\ spec_of m' = spec_of Demo.job_completed
    /\ (terminal COMPLETED = true -> terminal (Migration.status m') = true).
Proof.
  exact (registered_job_keeps_spec
           [Cancel "a" 9500000 false; Start "a" 9600000; Child "a" (Exit 1) 9700000]
           Demo.completed "a" Demo.job_completed eq_refl demo_completed_job).
Defined.

(** X7. An operation touches no job but the one it names: every other
    registered job is exactly as it was. *)
Theorem other_jobs_untouched (o : op) (self : MigrationEngine) (migration_id : string) :
  admissible o self ->
  target o <> Some migration_id ->
  _migrations (step o self) !! migration_id = _migrations self !! migration_id.
Proof.
  intros Hadm Hne. pose proof (step_registry o self) as Hstep.
  destruct o as [config new_id| | | | | |];
    try (destruct Hstep as [named|other m0 m0' Hother Hjob];
         [done|apply lookup_insert_ne; congruence]).
  destruct Hstep as [-> _]. apply lookup_insert_ne. cbn in Hne. congruence.
Qed.

Lemma other_jobs_untouched_witness :
  _migrations (step (Cancel "a" 5000000 true) Demo.one_running_one_queued) !! "b"
  = _migrations Demo.one_running_one_queued !! "b".
Proof.
  exact (other_jobs_untouched (Cancel "a" 5000000 true) Demo.one_running_one_queued "b"
           I ltac:(discriminate)).
Defined.

(** ** Consistency of the registry *)

Lemma job_step_consistent (key : string) (m m' : Migration.t) :
  job_step m m' -> job_consistent key m -> job_consistent key m'.
Proof.
  intros Hstep (Hid & Htab & Hdone & Hstart).
  assert (Hspec := job_step_spec m m' Hstep).
  unfold spec_of in Hspec. injection Hspec as Hid' _ _ _ Htables _.
  unfold job_consistent. rewrite Hid', Htables.
  assert (Hprog : forall returncode,
            Migration.progress (exited returncode m) = Migration.progress m).
  { intros returncode. unfold exited. destruct (returncode =? 0); [done|].
    cbn. by destruct (truthy (Migration.error m)). }
  destruct Hstep; cbn -[exited] in *; rewrite ?exited_status, ?Hprog;
    repeat split;
    first [ done
          | by intros [|]
          | by rewrite H
          | intros _; apply Hstart; by left
          | destruct (returncode =? 0); by intros [|] ].
Qed.

Lemma finalize_queues (migration_id : string) (now : Z) (self : MigrationEngine) :
  _progress_queues (finalize migration_id now self) = _progress_queues self.
Proof. unfold finalize. by destruct (_migrations self !! migration_id). Qed.

Lemma fail_queues (migration_id message : string) (now : Z) (self : MigrationEngine) :
  _progress_queues (fail migration_id message now self) = _progress_queues self.
Proof.
  unfold fail. destruct (_migrations self !! migration_id); [|done].
  by rewrite finalize_queues.
Qed.

Lemma on_exit_queues (migration_id : string) (returncode now : Z)
    (self : MigrationEngine) :
  _progress_queues (on_exit migration_id returncode now self) = _progress_queues self.
Proof.
  unfold on_exit. destruct (_migrations self !! migration_id); [|done].
  by rewrite finalize_queues.
Qed.

Lemma start_migration_queues (migration_id : string) (now : Z) (self : MigrationEngine) :
  _progress_queues (snd (start_migration migration_id now self)) = _progress_queues self.
Proof. unfold start_migration. by repeat case_match. Qed.

Lemma pause_migration_queues (migration_id : string) (self : MigrationEngine) :
  _progress_queues (snd (pause_migration migration_id self)) = _progress_queues self.
Proof. unfold pause_migration. by repeat case_match. Qed.

Lemma cancel_migration_queues (migration_id : string) (now : Z) (timed_out : bool)
    (self : MigrationEngine) :
  _progress_queues (snd (cancel_migration migration_id now timed_out self))
    = _progress_queues self.
Proof. unfold cancel_migration. by repeat case_match. Qed.

Lemma read_errors_queues (migration_id : string) (l : line) (self : MigrationEngine) :
  _progress_queues (snd (read_errors migration_id l self)) = _progress_queues self.
Proof. unfold read_errors. by repeat case_match. Qed.

(** What a stdout line does to the snapshot and to the queue of its job:
    nothing at all, or the same new snapshot stored on the job and put at
    the end of the queue. *)
Lemma read_progress_queue (migration_id : string) (l : line) (now : Z)
    (self : MigrationEngine) :
  (_migrations (snd (read_progress migration_id l now self)) = _migrations self
   /\ _progress_queues (snd (read_progress migration_id l now self))
      = _progress_queues self)
  \/ exists m p,
       _migrations self !! migration_id = Some m
       /\ fst (read_progress migration_id l now self) = Ok ()
       /\ _migrations (snd (read_progress migration_id l now self))
          = <[migration_id := Migration.set_progress p m]> (_migrations self)
       /\ _progress_queues (snd (read_progress migration_id l now self))
          = match _progress_queues self !! migration_id with
            | Some queue => <[migration_id := queue ++ [p]]> (_progress_queues self)
            | None => _progress_queues self
            end.
Proof.
  unfold read_progress.
  destruct (_migrations self !! migration_id) as [m|] eqn:Hm; [|by left].
  destruct l as [msg| |data]; [by left|by left|].
  destruct (_parse_progress data m now) as [p|e]; [|by left].
  right. exists m, p. cbn [_progress_queues set_migrations].
  by destruct (_progress_queues self !! migration_id).
Qed.

(** The snapshot and the queue of a job after one operation. *)
Lemma step_snapshot_and_queue (o : op) (self : MigrationEngine) (migration_id : string)
    (m : Migration.t) :
  admissible o self ->
  _migrations self !! migration_id = Some m ->
  (progress_of migration_id (step o self) = Some (Migration.progress m)
   /\ _progress_queues (step o self) !! migration_id
      = _progress_queues self !! migration_id)
  \/ exists p,
       progress_of migration_id (step o self) = Some p
       /\ _progress_queues (step o self) !! migration_id
          = (fun queue => queue ++ [p]) <$> _progress_queues self !! migration_id.
Proof.
  intros Hadm Hm.
  assert (Hsame : progress_of migration_id self = Some (Migration.progress m))
    by (unfold progress_of; by rewrite Hm).
  destruct o as [config new_id|id now|id|id now|id now timed_out|manager|id ev now];
    cbn [step].
  - left. cbn in Hadm. unfold progress_of, create_migration. cbn.
    assert (new_id <> migration_id) by congruence.
    rewrite !lookup_insert_ne by done. by rewrite Hm.
  - left. by rewrite progress_of_start, start_migration_queues.
  - left. by rewrite progress_of_pause, pause_migration_queues.
  - left. unfold resume_migration. by rewrite progress_of_start, start_migration_queues.
  - left. by rewrite progress_of_cancel, cancel_migration_queues.
  - left. done.
  - unfold _run_migration_step.
    destruct (_migrations self !! id) as [m0|] eqn:Hm0; [|by left].
    destruct ev as [[child_pid| |e]|l|l|returncode|]; cbn [snd].
    + left. split; [|done]. rewrite <- Hsame. by apply progress_of_update with m0.
    + left. by rewrite progress_of_fail, fail_queues.
    + left. by rewrite progress_of_fail, fail_queues.
    + destruct (read_progress_queue id l now self)
        as [[Hms Hqs]|(m1 & p & Hm1 & Hok & Hms & Hqs)].
      * left. destruct (read_progress id l now self) as [[[]|e] self'];
          cbn [snd] in *.
        -- unfold progress_of. by rewrite Hms, Hqs, Hm.
        -- rewrite progress_of_fail, fail_queues. unfold progress_of.
           by rewrite Hms, Hqs, Hm.
      * destruct (read_progress id l now self) as [[[]|e] self'];
          cbn [fst snd] in *; [|discriminate].
        unfold progress_of. rewrite Hms, Hqs.
        destruct (decide (id = migration_id)) as [->|Hne].
        -- right. exists p. rewrite lookup_insert_eq. split; [done|].
           destruct (_progress_queues self !! migration_id) as [queue|] eqn:Hq.
           ++ by rewrite lookup_insert_eq.
           ++ by rewrite Hq.
        -- left. rewrite lookup_insert_ne by done. rewrite Hm. split; [done|].
           destruct (_progress_queues self !! id); [|done].
           by rewrite lookup_insert_ne.
    + left. pose proof (progress_of_read_errors self migration_id id l) as Hp.
      pose proof (read_errors_queues id l self) as Hq.
      destruct (read_errors id l self) as [[[]|e] self']; cbn [snd] in *.
      * by rewrite Hp, Hq.
      * by rewrite progress_of_fail, fail_queues, Hp, Hq.
    + left. by rewrite progress_of_on_exit, on_exit_queues.
    + left. by rewrite progress_of_finalize, finalize_queues.
Qed.

Lemma new_job_consistent (config : MigrationConfig.t) (new_id : string) :
  job_consistent new_id (new_job config new_id).
Proof. repeat split; [done|by intros [|]]. Qed.

Lemma step_consistent (o : op) (self : MigrationEngine) :
  admissible o self -> consistent self -> consistent (step o self).
Proof.
  intros Hadm Hcons key m' Hm'.
  destruct (_migrations self !! key) as [m|] eqn:Hm.
  - destruct (Hcons key m Hm) as [Hjob Hqueue].
    destruct (step_lookup o self key m Hadm Hm) as (m1 & Hm1 & Hrel).
    assert (m1 = m') by congruence. subst m1. split.
    + destruct Hrel as [->|[_ Hstep]]; [done|]. by eapply job_step_consistent.
    + destruct (step_snapshot_and_queue o self key m Hadm Hm) as [[_ ->]|(p & _ & ->)];
        [done|]. destruct Hqueue as [queue ->]. by eexists.
  - pose proof (step_registry o self) as Hstep.
    destruct o as [config new_id| | | | | |];
      try (destruct Hstep as [named|other m0 m0' Hother Hjob];
           [congruence|];
           destruct (decide (other = key)) as [->|Hne]; [congruence|];
           rewrite lookup_insert_ne in Hm' by done; congruence).
    destruct Hstep as [Hms Hqs]. rewrite Hms in Hm'. rewrite Hqs.
    destruct (decide (new_id = key)) as [->|Hne].
    + rewrite lookup_insert_eq in Hm'. injection Hm' as <-.
      split; [apply new_job_consistent|]. rewrite lookup_insert_eq. by eexists.
    + rewrite lookup_insert_ne in Hm' by done. congruence.
Qed.

Lemma reachable_is_consistent (self : MigrationEngine) :
  reachable self -> consistent self.
Proof.
  induction 1 as [manager cfg|o self Hr IH Hadm].
  - intros key m Hm. cbn in Hm. by rewrite lookup_empty in Hm.
  - by apply step_consistent.
Qed.

Lemma reachable_consistent_queue (self : MigrationEngine) (migration_id : string)
    (m : Migration.t) :
  reachable self ->
  _migrations self !! migration_id = Some m ->
  is_Some (_progress_queues self !! migration_id).
Proof. intros Hr Hm. by destruct (reachable_is_consistent self Hr migration_id m Hm). Qed.

(** X8. In every engine a program can hold, each job is registered under
    its own id and has a progress queue; the [total_tables] of its snapshot
    is the number of tables of its specification; [completed_at] is set
    once its status is Completed, Failed or Cancelled; and [started_at] is
    set whenever it is Running or Paused. *)
Theorem reachable_consistent (self : MigrationEngine) (key : string) (m : Migration.t) :
  reachable self ->
  _migrations self !! key = Some m ->
  Migration.id m = key
  /\ is_Some (_progress_queues self !! key)
  /\ MigrationProgress.total_tables (Migration.progress m)
     = Z.of_nat (length (Migration.tables m))
  /\ (terminal (Migration.status m) = true -> is_set (Migration.completed_at m) = true)
  /\ (Migration.status m = RUNNING \/ Migration.status m = PAUSED ->
      is_set (Migration.started_at m) = true).
Proof.
  intros Hr Hm.
  destruct (reachable_is_consistent self Hr key m Hm)
    as [(Hid & Htab & Hdone & Hstart) Hqueue]. auto.
Qed.

Lemma reachable_consistent_witness :
  Migration.id Demo.job_completed = "a"
  /\ is_Some (_progress_queues Demo.completed !! "a")
  /\ MigrationProgress.total_tables (Migration.progress Demo.job_completed)
     = Z.of_nat (length (Migration.tables Demo.job_completed))
  /\ is_set (Migration.completed_at Demo.job_completed) = true.
Proof.
  destruct (reachable_consistent Demo.completed "a" Demo.job_completed
              demo_completed_reachable demo_completed_job)
    as (Hid & Hqueue & Htables & Hdone & _).
  split; [exact Hid|]. split; [exact Hqueue|]. split; [exact Htables|].
  exact (Hdone eq_refl).
Defined.

Lemma step_queue_tracks (o : op) (self : MigrationEngine) :
  admissible o self -> queue_tracks_snapshot self -> queue_tracks_snapshot (step o self).
Proof.
  intros Hadm Htracks key m' queue' Hm' Hq'.
  destruct (_migrations self !! key) as [m|] eqn:Hm.
  - destruct (step_snapshot_and_queue o self key m Hadm Hm)
      as [[Hp Hq]|(p & Hp & Hq)].
    + unfold progress_of in Hp. rewrite Hm' in Hp. injection Hp as Hp.
      rewrite Hq in Hq'. rewrite Hp. by apply Htracks with key.
    + unfold progress_of in Hp. rewrite Hm' in Hp. injection Hp as Hp.
      rewrite Hq in Hq'. destruct (_progress_queues self !! key) as [queue|];
        [|discriminate]. injection Hq' as <-. right. by rewrite last_snoc, Hp.
  - pose proof (step_registry o self) as Hstep.
    destruct o as [config new_id| | | | | |];
      try (destruct Hstep as [named|other m0 m0' Hother Hjob];
           [congruence|];
           destruct (decide (other = key)) as [->|Hne]; [congruence|];
           rewrite lookup_insert_ne in Hm' by done; congruence).
    destruct Hstep as [Hms Hqs]. rewrite Hms in Hm'. rewrite Hqs in Hq'.
    destruct (decide (new_id = key)) as [->|Hne].
    + rewrite lookup_insert_eq in Hq'. injection Hq' as <-. by left.
    + rewrite lookup_insert_ne in Hm' by done. congruence.
Qed.

(** X9. Every snapshot the stdout reader stores on a job is put at the end
    of the job's progress queue in the same step, and nothing else writes
    either of them: in every engine a program can hold, the queue of a job is
    empty or ends with the snapshot the job currently holds. *)
Theorem queue_ends_with_current_snapshot (self : MigrationEngine) (migration_id : string)
    (m : Migration.t) (queue : list MigrationProgress.t) :
  reachable self ->
  _migrations self !! migration_id = Some m ->
  _progress_queues self !! migration_id = Some queue ->
  queue = [] \/ last queue = Some (Migration.progress m).
Proof.
  intros Hr. revert migration_id m queue.
  change (queue_tracks_snapshot self).
  induction Hr as [manager cfg|o self Hr IH Hadm].
  - intros key m queue Hm. cbn in Hm. by rewrite lookup_empty in Hm.
  - by apply step_queue_tracks.
Qed.

Lemma queue_ends_with_current_snapshot_witness :
  let event := Decoded (JObj [("type", JStr "table_complete")]) in
  let self := run [Child "a" (Stdout event) 2000000] Demo.running in
  exists m queue,
    _migrations self !! "a" = Some m
    /\ _progress_queues self !! "a" = Some queue
    /\ length queue = 1%nat
    /\ last queue = Some (Migration.progress m).
Proof.
  cbn zeta. eexists _, _.
  split; [vm_compute; reflexivity|]. split; [vm_compute; reflexivity|].
  split; [reflexivity|].
  destruct (queue_ends_with_current_snapshot
              (run [Child "a" (Stdout (Decoded (JObj [("type", JStr "table_complete")])))
                      2000000] Demo.running) "a" _ _
              ltac:(apply reachable_run; [exact demo_running_reachable|reflexivity])
              ltac:(vm_compute; reflexivity) ltac:(vm_compute; reflexivity))
    as [Hnil|Hlast]; [discriminate Hnil|exact Hlast].
Defined.

(** ** Subscriptions *)

Lemma step_queue_unregistered (o : op) (self : MigrationEngine) (migration_id : string) :
  _migrations (step o self) !! migration_id = None ->
  _progress_queues (step o self) !! migration_id
    = _progress_queues self !! migration_id.
Proof.
  destruct o as [config new_id|id now|id|id now|id now timed_out|manager|id ev now];
    cbn [step].
  - cbn. intros Hnone. destruct (decide (new_id = migration_id)) as [->|Hne].
    + by rewrite lookup_insert_eq in Hnone.
    + by rewrite lookup_insert_ne.
  - by rewrite start_migration_queues.
  - by rewrite pause_migration_queues.
  - unfold resume_migration. by rewrite start_migration_queues.
  - by rewrite cancel_migration_queues.
  - done.
  - unfold _run_migration_step.
    destruct (_migrations self !! id) as [m0|] eqn:Hm0; [|done].
    destruct ev as [[child_pid| |e]|l|l|returncode|]; cbn [snd].
    + done.
    + by rewrite fail_queues.
    + by rewrite fail_queues.
    + destruct (read_progress_queue id l now self)
        as [[Hms Hqs]|(m1 & p & Hm1 & Hok & Hms & Hqs)];
        destruct (read_progress id l now self) as [[[]|e] self'];
        cbn [fst snd] in *; rewrite ?fail_queues, ?Hqs; try done.
      rewrite Hms. intros Hnone.
      destruct (decide (id = migration_id)) as [->|Hne];
        [by rewrite lookup_insert_eq in Hnone|].
      destruct (_progress_queues self !! id); [|done].
      by rewrite lookup_insert_ne.
    + pose proof (read_errors_queues id l self) as Hq.
      destruct (read_errors id l self) as [[[]|e] self']; cbn [snd] in *;
        by rewrite ?fail_queues, Hq.
    + by rewrite on_exit_queues.
    + by rewrite finalize_queues.
Qed.

Lemma reachable_queues_of_jobs (self : MigrationEngine) :
  reachable self -> queues_of_jobs self.
Proof.
  induction 1 as [manager cfg|o self Hr IH Hadm]; intros migration_id Hnone.
  - done.
  - rewrite step_queue_unregistered by done. apply IH.
    destruct (_migrations self !! migration_id) as [m|] eqn:Hm; [|done].
    destruct (step_lookup o self migration_id m Hadm Hm) as (m' & Hm' & _).
    congruence.
Qed.

Lemma set_progress_queues_id (self : MigrationEngine) :
  set_progress_queues (_progress_queues self) self = self.
Proof. by destruct self. Qed.

(** A subscription to a job that has left [RUNNING] and [QUEUED], consumed
    while nothing else touches the engine. *)
Lemma subscribe_progress_drain (fuel : nat) (migration_id : string)
    (queue : list MigrationProgress.t) (self : MigrationEngine) (m : Migration.t) :
  _migrations self !! migration_id = Some m ->
  running_or_queued (Migration.status m) = false ->
  _progress_queues self !! migration_id = Some queue ->
  (length queue < fuel)%nat ->
  subscribe_progress fuel migration_id self
    = (queue, true,
       set_progress_queues (<[migration_id := []]> (_progress_queues self)) self).
Proof.
  revert fuel self. induction queue as [|p queue IH]; intros fuel self Hm Hs Hq Hfuel.
  - destruct fuel as [|fuel]; [cbn in Hfuel; lia|].
    cbn [subscribe_progress]. unfold subscribe_turn. rewrite Hq, Hm, Hs. cbn [negb].
    by rewrite insert_id, set_progress_queues_id.
  - destruct fuel as [|fuel]; [cbn in Hfuel; lia|].
    cbn [subscribe_progress]. unfold subscribe_turn. rewrite Hq.
    rewrite (IH fuel
               (set_progress_queues (<[migration_id := queue]> (_progress_queues self))
                  self) Hm Hs);
      [|cbn; by rewrite lookup_insert_eq|cbn in Hfuel; lia].
    cbn. by rewrite insert_insert_eq.
Qed.

(** A subscription to a job that is [RUNNING] or [QUEUED], likewise. *)
Lemma subscribe_progress_waits (fuel : nat) (migration_id : string)
    (queue : list MigrationProgress.t) (self : MigrationEngine) (m : Migration.t) :
  _migrations self !! migration_id = Some m ->
  running_or_queued (Migration.status m) = true ->
  _progress_queues self !! migration_id = Some queue ->
  yielded (subscribe_progress fuel migration_id self) = take fuel queue
  /\ finished (subscribe_progress fuel migration_id self) = false.
Proof.
  revert queue self. induction fuel as [|fuel IH]; intros queue self Hm Hs Hq.
  - done.
  - cbn [subscribe_progress]. unfold subscribe_turn. rewrite Hq.
    destruct queue as [|p queue].
    + rewrite Hm, Hs. cbn [negb]. destruct (IH [] self Hm Hs Hq) as [Hy Hf].
      rewrite Hy, Hf. by rewrite take_nil.
    + destruct (IH queue
                  (set_progress_queues (<[migration_id := queue]> (_progress_queues self))
                     self) Hm Hs) as [Hy Hf];
        [cbn; by rewrite lookup_insert_eq|].
      unfold yielded, finished in *.
      destruct (subscribe_progress fuel migration_id _) as [[ys fin] self'].
      cbn in *. by rewrite Hy, Hf.
Qed.

(** X10. A subscription to a job that is no longer Running or Queued (a
    Paused job included), consumed while nothing else touches the engine,
    yields the snapshots waiting in the job's queue, oldest first, and then
    ends.  It takes them out of the queue: the queue is left empty, the jobs
    are untouched, and a second subscription to the same job ends without
    yielding anything. *)
Theorem subscription_drains_queue_then_ends (fuel : nat) (migration_id : string)
    (queue : list MigrationProgress.t) (self : MigrationEngine) (m : Migration.t) :
  _migrations self !! migration_id = Some m ->
  running_or_queued (Migration.status m) = false ->
  _progress_queues self !! migration_id = Some queue ->
  (length queue < fuel)%nat ->
  exists self',
    subscribe_progress fuel migration_id self = (queue, true, self')
    /\ _progress_queues self' !! migration_id = Some []
    /\ _migrations self' = _migrations self
    /\ subscribe_progress fuel migration_id self' = ([], true, self').
Proof.
  intros Hm Hs Hq Hfuel. eexists. split; [by eapply subscribe_progress_drain|].
  split; [cbn; by rewrite lookup_insert_eq|]. split; [done|].
  rewrite (subscribe_progress_drain fuel migration_id [] _ m); cbn; try done.
  - by rewrite insert_insert_eq.
  - by rewrite lookup_insert_eq.
  - lia.
Qed.

Lemma subscription_drains_queue_then_ends_witness :
  let event := Decoded (JObj [("type", JStr "table_complete")]) in
  let self := run [Child "a" (Stdout event) 2000000; Pause "a"] Demo.running in
  exists p self',
    subscribe_progress 2 "a" self = ([p], true, self')
    /\ MigrationProgress.completed_tables p = 1
    /\ subscribe_progress 2 "a" self' = ([], true, self').
Proof.
  cbn zeta.
  destruct (subscription_drains_queue_then_ends 2 "a"
              [MigrationProgress.Build 1 1 JNull (JFloat 0) (JInt 0) (JInt 0) 0%Q None]
              (run [Child "a" (Stdout (Decoded (JObj [("type", JStr "table_complete")])))
                      2000000; Pause "a"] Demo.running)
              (Migration.Build "a" "src-1" "tgt-1" "s3-default" [Demo.users] None PAUSED
                 (MigrationProgress.Build 1 1 JNull (JFloat 0) (JInt 0) (JInt 0) 0%Q None)
                 (Some 1000000) None JNull (Some 4242))
              ltac:(vm_compute; reflexivity) eq_refl ltac:(vm_compute; reflexivity)
              ltac:(cbn; lia))
    as (self' & Hfirst & _ & _ & Hsecond).
  eexists _, self'. split; [exact Hfirst|]. split; [reflexivity|exact Hsecond].
Defined.

(** X11. In an engine a program can hold, a subscription consumed while
    nothing else touches the engine ends, given enough turns, exactly when
    the id is unknown or the job is neither Running nor Queued.  So a
    subscription to a job that stays Queued never ends, and pausing a job
    ends its subscriptions. *)
Theorem subscription_ends_iff_not_running_or_queued (self : MigrationEngine)
    (migration_id : string) :
  reachable self ->
  (exists fuel, finished (subscribe_progress fuel migration_id self) = true)
  <-> match _migrations self !! migration_id with
      | Some m => running_or_queued (Migration.status m) = false
      | None => True
      end.
Proof.
  intros Hr.
  destruct (_migrations self !! migration_id) as [m|] eqn:Hm.
  - destruct (reachable_consistent_queue self migration_id m Hr Hm) as [queue Hq].
    split.
    + intros [fuel Hfin].
      destruct (running_or_queued (Migration.status m)) eqn:Hs; [|done].
      destruct (subscribe_progress_waits fuel migration_id queue self m Hm Hs Hq)
        as [_ Hwait]. congruence.
    + intros Hs. exists (S (length queue)).
      rewrite (subscribe_progress_drain _ migration_id queue self m); try done. lia.
  - split; [done|]. intros _. exists 1%nat. cbn. unfold subscribe_turn.
    by rewrite (reachable_queues_of_jobs self Hr migration_id Hm).
Qed.

Lemma subscription_ends_iff_not_running_or_queued_witness :
  ~ exists fuel, finished (subscribe_progress fuel "a" Demo.created) = true.
Proof.
  intros Hends.
  apply (subscription_ends_iff_not_running_or_queued Demo.created "a") in Hends.
  - vm_compute in Hends. discriminate.
  - apply reachable_run; [apply reachable_init|reflexivity].
Defined.

(** ** Starting, pausing and resuming *)

Lemma migrate_args_spec_only (source_conn : SourceConnection.t)
    (target_conn : SnowflakeConnection.t) (m m' : Migration.t) :
  spec_of m' = spec_of m ->
  migrate_args source_conn target_conn m' = migrate_args source_conn target_conn m.
Proof.
  unfold spec_of. intros [= _ _ _ Hstaging Htables Hschema].
  unfold migrate_args. by rewrite Hstaging, Htables, Hschema.
Qed.

(** X12. What a call of [start_migration] leaves behind.  A call that
    returns has scheduled exactly one background run, for the job it was
    given, and the job is Running.  A call that raises has scheduled none,
    and it has left the engine exactly as it was, unless what it raises is
    the concurrency-limit error: then the job is Queued and its [started_at]
    holds the time of the refused call. *)
Theorem start_migration_effects (migration_id : string) (now : Z) (self : MigrationEngine) :
  let after := snd (start_migration migration_id now self) in
  match fst (start_migration migration_id now self) with
  | Ok _ =>
      (exists inv,
         scheduled after = scheduled self ++ [inv] /\ inv_migration_id inv = migration_id)
      /\ status_of migration_id after = Some RUNNING
  | Raised e =>
      scheduled after = scheduled self
      /\ (after = self
          \/ (e = ConcurrencyLimitExceeded
                    (max_concurrent_migrations (performance (_config self)))
              /\ status_of migration_id after = Some QUEUED
              /\ Migration.started_at <$> _migrations after !! migration_id
                 = Some (Some now)))
  end.
Proof.
  cbn zeta. unfold start_migration.
  destruct (_migrations self !! migration_id) as [m|]; [|cbn; by auto].
  destruct (startable (Migration.status m)); cbn [negb]; [|cbn; by auto].
  destruct (get_source_connection _ _) as [source_conn|]; [|cbn; by auto].
  destruct (get_snowflake_connection _ _) as [target_conn|]; [|cbn; by auto].
  destruct (_ <? _); cbn [fst snd].
  - split; [reflexivity|]. right. split; [reflexivity|].
    unfold status_of. cbn. by rewrite !lookup_insert_eq.
  - split; [by eexists|]. unfold status_of. cbn. by rewrite lookup_insert_eq.
Qed.

(** X13. Resuming is starting again.  When a start is admitted and the job
    is then paused and resumed, with nothing else in between, both calls
    return, the resume is admitted whatever the ceiling (the job never
    stopped counting against it), and it schedules a second background run
    with exactly the arguments and environment of the first: the external
    tool is launched anew, it is not told to continue.  The job is Running
    and its [started_at] is the time of the resume. *)
Theorem pause_then_resume_restarts (migration_id : string) (now later : Z)
    (self started : MigrationEngine) :
  start_migration migration_id now self = (Ok (), started) ->
  exists paused resumed inv,
    pause_migration migration_id started = (Ok (), paused)
    /\ resume_migration migration_id later paused = (Ok (), resumed)
    /\ scheduled started = scheduled self ++ [inv]
    /\ scheduled resumed = scheduled self ++ [inv; inv]
    /\ status_of migration_id paused = Some PAUSED
    /\ status_of migration_id resumed = Some RUNNING
    /\ Migration.started_at <$> _migrations resumed !! migration_id = Some (Some later).
Proof.
  intros Hstart.
  destruct (_migrations self !! migration_id) as [m|] eqn:Hm;
    [|unfold start_migration in Hstart; by rewrite Hm in Hstart].
  destruct (startable (Migration.status m)) eqn:Hs;
    [|unfold start_migration in Hstart; by rewrite Hm, Hs in Hstart].
  destruct (get_source_connection (_connection_manager self)
              (Migration.source_connection_id m)) as [source_conn|] eqn:Hsrc;
    [|unfold start_migration in Hstart; by rewrite Hm, Hs, Hsrc in Hstart].
  destruct (get_snowflake_connection (_connection_manager self)
              (Migration.target_connection_id m)) as [target_conn|] eqn:Htgt;
    [|unfold start_migration in Hstart; rewrite Hm, Hs, Hsrc, Htgt in Hstart;
      discriminate].
  rewrite (start_migration_admission self migration_id now m source_conn target_conn
             Hm Hs Hsrc Htgt) in Hstart.
  destruct (Z.ltb_spec (max_concurrent_migrations (performance (_config self)))
              (count_status is_active (_migrations self))) as [Hlt|Hle];
    [discriminate|].
  injection Hstart as <-.
  set (running := Migration.set_started_at (Some now) (Migration.set_status RUNNING m)).
  set (inv := {| inv_migration_id := migration_id;
                 inv_args := migrate_args source_conn target_conn running;
                 inv_env := migrate_env source_conn target_conn |}).
  set (started := create_task inv
                    (set_migrations (<[migration_id := running]> (_migrations self)) self)).
  assert (Hpause : exists paused,
    pause_migration migration_id started = (Ok (), paused)
    /\ _migrations paused
       = <[migration_id := Migration.set_status PAUSED running]> (_migrations self)
    /\ scheduled paused = scheduled self ++ [inv]
    /\ _connection_manager paused = _connection_manager self
    /\ _config paused = _config self).
  { unfold pause_migration. cbn [_migrations started create_task set_migrations].
    rewrite lookup_insert_eq. cbn [Migration.status running Migration.set_started_at
      Migration.set_status]. rewrite bool_decide_eq_true_2 by done. cbn [negb].
    eexists. split; [reflexivity|].
    destruct (_processes _ !! migration_id); cbn; by rewrite insert_insert_eq. }
  destruct Hpause as (paused & Hpaused & Hms & Hsched & Hcm & Hcfg).
  assert (Hcount : count_status is_active (_migrations paused)
                   = count_status is_active (_migrations self)).
  { rewrite Hms, count_status_insert.
    rewrite (count_status_delete is_active (_migrations self) migration_id m Hm).
    assert (Ha : is_active (Migration.status m) = true)
      by (by destruct (Migration.status m)).
    by rewrite Ha. }
  exists paused. eexists. exists inv. split; [exact Hpaused|]. split.
  - unfold resume_migration.
    rewrite (start_migration_admission paused migration_id later
               (Migration.set_status PAUSED running) source_conn target_conn);
      [|by rewrite Hms, lookup_insert_eq|done|by rewrite Hcm|by rewrite Hcm].
    rewrite Hcount, Hcfg.
    destruct (Z.ltb_spec (max_concurrent_migrations (performance (_config self)))
                (count_status is_active (_migrations self))); [lia|].
    reflexivity.
  - split; [done|]. split.
    + cbn. rewrite Hsched, <- app_assoc. reflexivity.
    + split; [unfold status_of; by rewrite Hms, lookup_insert_eq|].
      split; [unfold status_of; cbn; by rewrite lookup_insert_eq|].
      cbn. by rewrite lookup_insert_eq.
Qed.

Lemma pause_then_resume_restarts_witness :
  exists started paused resumed inv,
    start_migration "a" 1000000 Demo.created = (Ok (), started)
    /\ pause_migration "a" started = (Ok (), paused)
    /\ resume_migration "a" 5000000 paused = (Ok (), resumed)
    /\ scheduled resumed = [inv; inv].
Proof.
  destruct (pause_then_resume_restarts "a" 1000000 5000000 Demo.created
              (snd (start_migration "a" 1000000 Demo.created))
              ltac:(vm_compute; reflexivity))
    as (paused & resumed & inv & Hpause & Hresume & _ & Hsched & _).
  exists (snd (start_migration "a" 1000000 Demo.created)), paused, resumed, inv.
  split; [vm_compute; reflexivity|]. split; [exact Hpause|].
  split; [exact Hresume|exact Hsched].
Defined.

Lemma count_status_empty (f : MigrationStatus -> bool) : count_status f ∅ = 0.
Proof. unfold count_status. by rewrite map_to_list_empty. Qed.

(** X14. The wizard's last step runs on an engine of its own, so the only
    job the ceiling check sees is the one being started: with both
    connections registered, the start is admitted exactly when the ceiling
    is at least one, however many migrations the application's engine is
    running.  An admitted start leaves the new engine with that single job,
    Running, and one scheduled run; a refused one leaves the job Queued and
    nothing scheduled. *)
Theorem wizard_start_sees_one_job (connection_manager : ConnectionManager)
    (cfg : AppConfig) (config : MigrationConfig.t) (new_id : string) (now : Z)
    (source_conn : SourceConnection.t) (target_conn : SnowflakeConnection.t) :
  get_source_connection connection_manager (MigrationConfig.source_connection_id config)
    = Some source_conn ->
  get_snowflake_connection connection_manager (MigrationConfig.target_connection_id config)
    = Some target_conn ->
  let limit := max_concurrent_migrations (performance cfg) in
  let outcome := fst (_create_and_start_migration connection_manager cfg config new_id now) in
  let engine := snd (_create_and_start_migration connection_manager cfg config new_id now) in
  let running :=
    Migration.set_started_at (Some now)
      (Migration.set_status RUNNING (new_job config new_id)) in
  (1 <= limit ->
     outcome = Ok ()
     /\ list_migrations engine = [running]
     /\ scheduled engine = [invocation_of source_conn target_conn running])
  /\ (limit < 1 ->
     outcome = Raised (ConcurrencyLimitExceeded limit)
     /\ list_migrations engine = [Migration.set_status QUEUED running]
     /\ scheduled engine = []).
Proof.
  intros Hsrc Htgt limit outcome engine running.
  subst outcome engine. unfold _create_and_start_migration.
  cbn [create_migration Migration.id].
  rewrite (start_migration_admission _ new_id now (new_job config new_id)
             source_conn target_conn);
    [|cbn; by rewrite lookup_insert_eq|done|done|done].
  cbn [_migrations set_progress_queues set_migrations __init__ _config].
  rewrite count_status_insert, delete_empty, count_status_empty.
  cbn [new_job Migration.status is_active]. fold limit. fold (new_job config new_id).
  fold running. split; intros Hlimit.
  - destruct (Z.ltb_spec limit (0 + 1)); [lia|]. cbn [fst snd].
    split; [done|]. split; [|done].
    unfold list_migrations. cbn [_migrations create_task set_migrations].
    by rewrite insert_insert_eq, insert_empty, map_to_list_singleton.
  - destruct (Z.ltb_spec limit (0 + 1)); [|lia]. cbn [fst snd].
    split; [done|]. split; [|done].
    unfold list_migrations. cbn [_migrations set_migrations].
    by rewrite !insert_insert_eq, insert_empty, map_to_list_singleton.
Qed.

Lemma wizard_start_sees_one_job_witness :
  fst (_create_and_start_migration Demo.manager (Demo.cfg 1) (Demo.spec [Demo.users])
         "a" 1000000) = Ok ().
Proof.
  destruct (wizard_start_sees_one_job Demo.manager (Demo.cfg 1) (Demo.spec [Demo.users])
              "a" 1000000 Demo.source Demo.target eq_refl eq_refl) as [Hadmitted _].
  destruct Hadmitted as [Hok _]; [cbn; lia|exact Hok].
Defined.

Lemma get_deleted_source_connection (connection_id : string) (self : ConnectionManager) :
  get_source_connection (delete_source_connection connection_id self) connection_id = None.
Proof.
  unfold delete_source_connection, get_source_connection.
  destruct (_source_connections self !! connection_id) eqn:Hc; [|done].
  cbn. by rewrite lookup_delete_eq.
Qed.

Lemma get_deleted_snowflake_connection (connection_id : string)
    (self : ConnectionManager) :
  get_snowflake_connection (delete_snowflake_connection connection_id self) connection_id
    = None.
Proof.
  unfold delete_snowflake_connection, get_snowflake_connection.
  destruct (_snowflake_connections self !! connection_id) eqn:Hc; [|done].
  cbn. by rewrite lookup_delete_eq.
Qed.

(** X15. Deleting a connection blocks the jobs that name it.  Once the
    source connection of a job, or its target connection, has been deleted
    from the connection manager, starting or resuming the job raises the
    connection [ValueError] and leaves the engine as it is: a Paused job
    stays Paused. *)
Theorem deleted_connection_blocks_start (self : MigrationEngine) (migration_id : string)
    (now : Z) (m : Migration.t) :
  _migrations self !! migration_id = Some m ->
  startable (Migration.status m) = true ->
  let without_source :=
    step (Connections (delete_source_connection (Migration.source_connection_id m)
                         (_connection_manager self))) self in
  let without_target :=
    step (Connections (delete_snowflake_connection (Migration.target_connection_id m)
                         (_connection_manager self))) self in
  start_migration migration_id now without_source
    = (Raised ConnectionNotFound, without_source)
  /\ resume_migration migration_id now without_target
    = (Raised ConnectionNotFound, without_target).
Proof.
  intros Hm Hs. cbn zeta. unfold resume_migration, start_migration.
  cbn [step _migrations _connection_manager]. rewrite Hm, Hs. cbn [negb]. split.
  - by rewrite get_deleted_source_connection.
  - rewrite get_deleted_snowflake_connection. by destruct (get_source_connection _ _).
Qed.

Lemma deleted_connection_blocks_start_witness :
  let self := step (Connections (delete_source_connection "src-1" Demo.manager))
                Demo.created in
  start_migration "a" 1000000 self = (Raised ConnectionNotFound, self).
Proof.
  exact (proj1 (deleted_connection_blocks_start Demo.created "a" 1000000 Demo.job_created
                  demo_created_job eq_refl)).
Defined.

(** ** What the events of a run leave on the job *)

(** On integer row counters of 64 bits, and less than [2 ^ 63]
    microseconds after the start, the throughput block never raises. *)
Lemma estimate_int64 (p : MigrationProgress.t) (started_at : option Z) (now : Z)
    (total migrated : Z) :
  MigrationProgress.total_rows p = JInt total ->
  MigrationProgress.migrated_rows p = JInt migrated ->
  int64 total -> int64 migrated -> clock_in_range started_at now ->
  exists p', estimate p started_at now = Ok p'.
Proof.
  intros Ht Hm Htotal Hmigrated Hclock. unfold int64 in *.
  destruct started_at as [started|].
  - destruct (Z.lt_ge_cases 0 migrated) as [Hpos|Hzero].
    + destruct (Z.lt_ge_cases 0 (now - started)) as [Hlater|Hearlier].
      * specialize (Hclock started eq_refl).
        destruct (estimate_in_range p started now total migrated Ht Hm)
          as (rate & eta & Hest & _); [lia..|].
        by eexists.
      * destruct p as [tt ct cur curp tr mr rps eta]. cbn in Ht, Hm. subst tr mr.
        unfold estimate, gt_zero. cbn [as_number].
        destruct (negb (Qle_bool (inject_Z migrated) 0)); cbn [mbind result_bind];
          [|by eexists].
        rewrite total_seconds_nonpos by lia. by eexists.
    + destruct p as [tt ct cur curp tr mr rps eta]. cbn in Ht, Hm. subst tr mr.
      unfold estimate, gt_zero. cbn [as_number].
      assert (Hle : Qle_bool (inject_Z migrated) 0 = true).
      { apply Qle_bool_iff. unfold Qle, inject_Z. cbn. lia. }
      rewrite Hle. by eexists.
  - destruct p as [tt ct cur curp tr mr rps eta]. cbn in Ht, Hm. subst tr mr.
    unfold estimate, gt_zero. cbn [as_number].
    destruct (negb (Qle_bool (inject_Z migrated) 0)); by eexists.
Qed.

(** One [table_complete] on such a job. *)
Lemma table_complete_step (migration_id : string) (now : Z) (self : MigrationEngine)
    (m : Migration.t) (total migrated : Z) :
  _migrations self !! migration_id = Some m ->
  MigrationProgress.total_rows (Migration.progress m) = JInt total ->
  MigrationProgress.migrated_rows (Migration.progress m) = JInt migrated ->
  int64 total -> int64 migrated -> clock_in_range (Migration.started_at m) now ->
  exists self' p,
    _run_migration_step migration_id (Stdout table_complete) now self = (true, self')
    /\ _migrations self' !! migration_id = Some (Migration.set_progress p m)
    /\ MigrationProgress.total_tables p
       = MigrationProgress.total_tables (Migration.progress m)
    /\ MigrationProgress.completed_tables p
       = MigrationProgress.completed_tables (Migration.progress m) + 1
    /\ MigrationProgress.total_rows p = JInt total
    /\ MigrationProgress.migrated_rows p = JInt migrated.
Proof.
  intros Hm Ht Hr Htotal Hmigrated Hclock.
  unfold _run_migration_step, table_complete, read_progress. rewrite Hm.
  unfold _parse_progress.
  change (dict_get [("type", JStr "table_complete")] "type" (JStr ""))
    with (JStr "table_complete").
  set (bumped := apply_message (JStr "table_complete") _ (Migration.progress m)).
  assert (Hb : MigrationProgress.total_tables bumped
               = MigrationProgress.total_tables (Migration.progress m)
             /\ MigrationProgress.completed_tables bumped
               = MigrationProgress.completed_tables (Migration.progress m) + 1
             /\ MigrationProgress.total_rows bumped = JInt total
             /\ MigrationProgress.migrated_rows bumped = JInt migrated).
  { subst bumped. destruct (Migration.progress m). cbn in *. by subst. }
  destruct Hb as (Hbt & Hbc & Hbtr & Hbmr).
  destruct (estimate_int64 bumped (Migration.started_at m) now total migrated
              Hbtr Hbmr Htotal Hmigrated Hclock) as [p Hp].
  rewrite Hp. apply estimate_counters in Hp as (Htt & Hct & Htr & Hmr).
  cbn [_progress_queues set_migrations].
  destruct (_progress_queues self !! migration_id);
    (eexists _, p; split; [reflexivity|]; cbn; rewrite lookup_insert_eq;
     split; [done|]; by rewrite Htt, Hct, Htr, Hmr).
Qed.

(** X3. Counting tables.  On a job whose row counters hold integers of 64
    bits, each [table_complete] line of the child that is read less than
    [2 ^ 63] microseconds after the start adds one to [completed_tables] and
    leaves [total_tables] and the row counters alone; nothing holds the
    count below the total.  So after [k] such lines [completed_tables] is
    [k] more, and while [total_rows] is 0 the overall percentage is
    [(completed_tables + k) / total_tables * 100] as Python computes it. *)
Theorem table_completions_are_counted (times : list Z) (migration_id : string)
    (self : MigrationEngine) (m : Migration.t) (total migrated : Z) :
  _migrations self !! migration_id = Some m ->
  MigrationProgress.total_rows (Migration.progress m) = JInt total ->
  MigrationProgress.migrated_rows (Migration.progress m) = JInt migrated ->
  int64 total ->
  int64 migrated ->
  Forall (clock_in_range (Migration.started_at m)) times ->
  exists p,
    progress_of migration_id
      (_run_migration migration_id (table_completions times) self) = Some p
    /\ MigrationProgress.completed_tables p
       = MigrationProgress.completed_tables (Migration.progress m)
         + Z.of_nat (length times)
    /\ MigrationProgress.total_tables p
       = MigrationProgress.total_tables (Migration.progress m)
    /\ MigrationProgress.total_rows p = JInt total
    /\ MigrationProgress.migrated_rows p = JInt migrated
    /\ (total = 0 ->
        MigrationProgress.total_tables (Migration.progress m) <> 0 ->
        MigrationProgress.percentage p
        = percent (MigrationProgress.completed_tables (Migration.progress m)
                   + Z.of_nat (length times))
            (MigrationProgress.total_tables (Migration.progress m))).
Proof.
  revert self m.
  induction times as [|now times IH]; intros self m Hm Ht Hr Htotal Hmigrated Hclock.
  - exists (Migration.progress m). cbn [table_completions map _run_migration length].
    unfold progress_of. rewrite Hm. rewrite Z.add_0_r. repeat split; try done.
    intros -> Htables. rewrite (percentage_int _ 0 migrated Ht Hr). cbn [Z.eqb].
    by destruct (Z.eqb_spec (MigrationProgress.total_tables (Migration.progress m)) 0).
  - apply Forall_cons in Hclock as [Hnow Hlater].
    destruct (table_complete_step migration_id now self m total migrated Hm Ht Hr
                Htotal Hmigrated Hnow)
      as (self' & p & Hstep & Hm' & Htt & Hct & Htr & Hmr).
    cbn [table_completions map _run_migration]. rewrite Hstep.
    destruct (IH self' (Migration.set_progress p m) Hm' Htr Hmr Htotal Hmigrated Hlater)
      as (p' & Hp' & Hc & Htables & Hrows & Hmig & Hq).
    exists p'. split; [exact Hp'|]. cbn in Hc, Htables, Hq. rewrite Hct, Htt in *.
    cbn [length].
    replace (MigrationProgress.completed_tables (Migration.progress m)
             + Z.of_nat (S (length times)))
      with (MigrationProgress.completed_tables (Migration.progress m) + 1
            + Z.of_nat (length times)) by lia.
    done.
Qed.

Lemma table_completions_are_counted_witness :
  let self :=
    run [Create (Demo.spec [Demo.users; Demo.orders]) "a"; Start "a" 1000000;
         Child "a" (Launch (LaunchOk 4242)) 1000001] (Demo.engine 10) in
  exists p,
    progress_of "a" (_run_migration "a" (table_completions [2000000; 3000000]) self)
      = Some p
    /\ MigrationProgress.completed_tables p = 2
    /\ MigrationProgress.percentage p = Ok (Finite 100).
Proof.
  cbn zeta.
  destruct (table_completions_are_counted [2000000; 3000000] "a"
              (run [Create (Demo.spec [Demo.users; Demo.orders]) "a"; Start "a" 1000000;
                    Child "a" (Launch (LaunchOk 4242)) 1000001] (Demo.engine 10))
              (Migration.Build "a" "src-1" "tgt-1" "s3-default" [Demo.users; Demo.orders]
                 None RUNNING (MigrationProgress.new 2) (Some 1000000) None JNull
                 (Some 4242))
              0 0 ltac:(vm_compute; reflexivity) eq_refl eq_refl
              ltac:(unfold int64; lia) ltac:(unfold int64; lia)
              ltac:(repeat constructor; intros started [= <-]; lia))
    as (p & Hp & Hc & _ & _ & _ & Hq).
  exists p. split; [exact Hp|]. split; [exact Hc|].
  rewrite Hq; [|done|done]. vm_compute. reflexivity.
Defined.

(** X16. An error line does not end the run.  When the child writes an
    object of type ["error"] on stderr, the job takes its [message] (or
    ["Unknown error"] when there is none) as error text and keeps its status,
    its snapshot and its place in the run.  The exit code alone decides the
    final status: after exit 0 the job is Completed and still carries the
    text; after any other exit it is Failed, with the text of the error line
    unless that text is empty or null, in which case the exit-code message
    replaces it. *)
Theorem error_line_then_exit (migration_id : string) (self : MigrationEngine)
    (m : Migration.t) (fields : list (string * json)) (returncode t1 t2 : Z) :
  _migrations self !! migration_id = Some m ->
  eq_str (dict_get fields "type" JNull) "error" = true ->
  let message := dict_get fields "message" (JStr "Unknown error") in
  let reported := snd (_run_migration_step migration_id
                         (Stderr (Decoded (JObj fields))) t1 self) in
  let exited :=
    _run_migration migration_id
      [(Stderr (Decoded (JObj fields)), t1); (Exit returncode, t2)] self in
  _migrations reported !! migration_id = Some (Migration.set_error message m)
  /\ status_of migration_id exited = Some (if returncode =? 0 then COMPLETED else FAILED)
  /\ error_of migration_id exited
     = Some (if (returncode =? 0) || truthy message then message
             else JStr ("CLI exited with code " +:+ pretty returncode))
  /\ completed_at_of migration_id exited = Some (Some t2).
Proof.
  intros Hm Htype. cbn zeta.
  assert (Hstep : _run_migration_step migration_id (Stderr (Decoded (JObj fields))) t1 self
                  = (true,
                     set_migrations
                       (<[migration_id :=
                            Migration.set_error
                              (dict_get fields "message" (JStr "Unknown error")) m]>
                          (_migrations self)) self)).
  { unfold _run_migration_step, read_errors. by rewrite Hm, Htype. }
  cbn [_run_migration]. rewrite Hstep. cbn [snd].
  split; [cbn; by rewrite lookup_insert_eq|].
  set (reported := set_migrations _ self).
  assert (Hreported : _migrations reported !! migration_id
                      = Some (Migration.set_error
                                (dict_get fields "message" (JStr "Unknown error")) m))
    by (cbn; by rewrite lookup_insert_eq).
  assert (Hexit : _run_migration_step migration_id (Exit returncode) t2 reported
                  = (false, on_exit migration_id returncode t2 reported))
    by (unfold _run_migration_step; by rewrite Hreported).
  rewrite Hexit.
  destruct (on_exit_lookup reported migration_id returncode t2 _ Hreported)
    as (m' & Hl & Hs & He & _).
  unfold status_of, error_of, completed_at_of. rewrite Hl. cbn.
  by rewrite Hs, He.
Qed.

Lemma error_line_then_exit_witness :
  let fields := [("type", JStr "error"); ("message", JStr "disk full")] in
  let exited :=
    _run_migration "a" [(Stderr (Decoded (JObj fields)), 2000000); (Exit 0, 3000000)]
      Demo.running in
  status_of "a" exited = Some COMPLETED
  /\ error_of "a" exited = Some (JStr "disk full").
Proof.
  destruct (error_line_then_exit "a" Demo.running Demo.job_running
              [("type", JStr "error"); ("message", JStr "disk full")] 0 2000000 3000000
              demo_running_job eq_refl) as (_ & Hs & He & _).
  split; [exact Hs|exact He].
Defined.

(** X17. The overall percentage of a snapshot whose counters are counts
    within their totals lies between 0 and 100, and its computation does not
    raise: the division is guarded by the test on the total it divides by,
    and rounding does not carry a quotient past 1 or a product past 100. *)
Theorem percentage_between_0_and_100 (p : MigrationProgress.t) (total migrated : Z) :
  MigrationProgress.total_rows p = JInt total ->
  MigrationProgress.migrated_rows p = JInt migrated ->
  0 <= migrated <= total ->
  0 <= MigrationProgress.completed_tables p <= MigrationProgress.total_tables p ->
  exists q : Q,
    MigrationProgress.percentage p = Ok (Finite q) /\ (0 <= q)%Q /\ (q <= 100)%Q.
Proof.
  intros Ht Hm Hrows Htables. rewrite (percentage_int p total migrated Ht Hm).
  assert (Hratio : forall a b : Z, 0 <= a <= b -> 0 < b ->
            exists q : Q, percent a b = Ok (Finite q) /\ (0 <= q)%Q /\ (q <= 100)%Q).
  { intros a b Hab Hb. unfold percent, number_truediv.
    destruct (Z.eqb_spec b 0) as [|_]; [lia|].
    destruct (binary64_bounded (inject_Z a / inject_Z b) 1) as (Hr & Hr0 & Hr1).
    { apply Qle_shift_div_l; [unfold Qlt, inject_Z; cbn; lia|].
      unfold Qle, Qmult, inject_Z. cbn. lia. }
    { apply Qle_shift_div_r; [unfold Qlt, inject_Z; cbn; lia|].
      unfold Qle, Qmult, inject_Z. cbn. lia. }
    { split; [lia|]. by apply Z.pow_gt_1. }
    rewrite Hr. cbn [mbind result_bind]. set (r := nearest_double _) in *.
    unfold float_times.
    change (to_float (Int 100)) with (Ok (Finite 100) : result float).
    cbn [mbind result_bind float_mul].
    destruct (binary64_bounded (r * 100) 100) as (Hq & Hq0 & Hq1).
    { change (inject_Z 1) with 1%Q in Hr1. nra. }
    { change (inject_Z 1) with 1%Q in Hr1. change (inject_Z 100) with 100%Q. nra. }
    { split; [lia|]. assert (2 ^ 7 <= 2 ^ 53) by (apply Z.pow_le_mono_r; lia).
      change (2 ^ 7) with 128 in *. lia. }
    rewrite Hq. eexists. split; [reflexivity|]. split; [done|].
    by change (inject_Z 100) with 100%Q in Hq1. }
  destruct (Z.eqb_spec total 0) as [->|Hne].
  - destruct (Z.eqb_spec (MigrationProgress.total_tables p) 0) as [Hz|Hnz].
    + exists 0%Q. split; [done|]. split; unfold Qle; cbn; lia.
    + apply Hratio; lia.
  - apply Hratio; lia.
Qed.

Lemma percentage_between_0_and_100_witness :
  exists q : Q,
    MigrationProgress.percentage
      (MigrationProgress.Build 4 1 JNull (JFloat 0) (JInt 300) (JInt 100) 0%Q None)
    = Ok (Finite q)
    /\ (0 <= q)%Q /\ (q <= 100)%Q.
Proof.
  exact (percentage_between_0_and_100
           (MigrationProgress.Build 4 1 JNull (JFloat 0) (JInt 300) (JInt 100) 0%Q None)
           300 100 eq_refl eq_refl ltac:(lia) ltac:(cbn; lia)).
Defined.

(** X2. The throughput and the ETA of a snapshot, as Python computes them
    in doubles.  On integer row counters of 64 bits, less than [2 ^ 63]
    microseconds after the start, the block that closes [_parse_progress]
    never raises and leaves the counters alone.  With no row migrated, no
    start time, or a clock that has not advanced, it returns the snapshot
    as it was.  Otherwise [rows_per_second] is the double nearest to
    [migrated_rows / elapsed] (the rows first converted to a double, the
    elapsed time being [total_seconds()] of the difference), it is finite
    and positive, and [eta_seconds] is [int] of the double nearest to
    [(total_rows - migrated_rows) / rows_per_second], of the sign of the
    rows that remain. *)
Theorem estimate_rate_and_eta (p : MigrationProgress.t) (started_at : option Z)
    (now total migrated : Z) :
  MigrationProgress.total_rows p = JInt total ->
  MigrationProgress.migrated_rows p = JInt migrated ->
  int64 total -> int64 migrated -> clock_in_range started_at now ->
  exists p',
    estimate p started_at now = Ok p'
    /\ MigrationProgress.total_tables p' = MigrationProgress.total_tables p
    /\ MigrationProgress.completed_tables p' = MigrationProgress.completed_tables p
    /\ MigrationProgress.total_rows p' = JInt total
    /\ MigrationProgress.migrated_rows p' = JInt migrated
    /\ (migrated <= 0 \/ started_at = None
        \/ (exists started, started_at = Some started /\ now <= started) ->
        p' = p)
    /\ (forall started, started_at = Some started -> 0 < migrated -> started < now ->
        let elapsed := total_seconds (now - started) in
        let rate := nearest_double (nearest_double (inject_Z migrated) / elapsed) in
        let eta :=
          int_of_float
            (nearest_double (nearest_double (inject_Z (total - migrated)) / rate)) in
        MigrationProgress.rows_per_second p' = Finite rate
        /\ MigrationProgress.eta_seconds p' = Some eta
        /\ (0 < elapsed)%Q /\ (0 < rate)%Q
        /\ (migrated <= total -> 0 <= eta)
        /\ (total <= migrated -> eta <= 0)).
Proof.
  intros Ht Hm Htotal Hmigrated Hclock.
  destruct (estimate_int64 p started_at now total migrated Ht Hm Htotal Hmigrated Hclock)
    as [p' Hest].
  exists p'. split; [exact Hest|].
  destruct (estimate_counters p p' started_at now Hest) as (Htt & Hct & Htr & Hmr).
  rewrite Ht in Htr. rewrite Hm in Hmr.
  do 4 (split; [done|]). unfold int64 in *. split.
  - intros Hidle. revert Hest.
    destruct p as [tt ct cur curp tr mr rps eta0]. cbn in Ht, Hm. subst tr mr.
    unfold estimate, gt_zero. cbn [as_number].
    destruct Hidle as [Hzero|[->|(started & -> & Hearlier)]].
    + assert (Hle : Qle_bool (inject_Z migrated) 0 = true).
      { apply Qle_bool_iff. unfold Qle, inject_Z. cbn. lia. }
      rewrite Hle. cbn. by intros [= <-].
    + destruct (negb (Qle_bool (inject_Z migrated) 0)); cbn; by intros [= <-].
    + destruct (negb (Qle_bool (inject_Z migrated) 0)); cbn [mbind result_bind];
        [|by intros [= <-]].
      rewrite total_seconds_nonpos by lia. cbn. by intros [= <-].
  - intros started -> Hpos Hlater. specialize (Hclock started eq_refl).
    destruct (estimate_in_range p started now total migrated Ht Hm)
      as (rate & eta & Hest' & Hrate & Heta & Hrate_pos & Hnonneg & Hnonpos); [lia..|].
    rewrite Hest in Hest'. injection Hest' as ->. cbn zeta.
    cbn [MigrationProgress.rows_per_second MigrationProgress.eta_seconds].
    rewrite <- Hrate, <- Heta.
    destruct (total_seconds_range (now - started) ltac:(lia)) as [Hel _].
    repeat split; try done. lra.
Qed.

Lemma estimate_rate_and_eta_witness :
  exists p',
    estimate (MigrationProgress.Build 1 0 JNull (JInt 0) (JInt 42) (JInt 7) (Finite 0) None)
      (Some 1000000) 4000000 = Ok p'
    /\ MigrationProgress.rows_per_second p'
       = Finite (5254199565265579 # 2251799813685248)
    /\ MigrationProgress.eta_seconds p' = Some 14.
Proof.
  destruct (estimate_rate_and_eta
              (MigrationProgress.Build 1 0 JNull (JInt 0) (JInt 42) (JInt 7) (Finite 0) None)
              (Some 1000000) 4000000 42 7 eq_refl eq_refl
              ltac:(unfold int64; lia) ltac:(unfold int64; lia)
              ltac:(intros started [= <-]; lia))
    as (p' & Hest & _ & _ & _ & _ & _ & Hblock).
  exists p'. split; [exact Hest|].
  destruct (Hblock 1000000 eq_refl ltac:(lia) ltac:(lia)) as (Hrate & Heta & _).
  rewrite Hrate, Heta. split; vm_compute; reflexivity.
Defined.

(** ** What the dashboard shows and offers *)

(** X18. The clock of a job stops when the job ends.  In an engine a
    program can hold, the duration shown for a job that is Completed, Failed
    or Cancelled does not depend on the time of the look.  A job that is
    Running or Paused has a start time, and as long as no completion time
    has been written on it its duration is the whole seconds elapsed since
    [started_at]: pausing does not stop the clock. *)
Theorem clock_stops_when_job_ends (self : MigrationEngine) (migration_id : string)
    (m : Migration.t) :
  reachable self ->
  _migrations self !! migration_id = Some m ->
  (terminal (Migration.status m) = true ->
     forall now now', duration_display m now = duration_display m now')
  /\ (Migration.status m = RUNNING \/ Migration.status m = PAUSED ->
      exists started_at,
        Migration.started_at m = Some started_at
        /\ (Migration.completed_at m = None ->
            forall now,
              duration_seconds m now
              = Some (int_of_float (total_seconds (now - started_at))))).
Proof.
  intros Hr Hm.
  destruct (reachable_is_consistent self Hr migration_id m Hm)
    as [(_ & _ & Hdone & Hstarted) _].
  split.
  - intros Hterminal now now'. specialize (Hdone Hterminal).
    unfold duration_display, duration_seconds.
    destruct (Migration.completed_at m); [|discriminate]. done.
  - intros Hstatus. specialize (Hstarted Hstatus). unfold duration_seconds.
    destruct (Migration.started_at m) as [started_at|]; [|discriminate].
    exists started_at. split; [done|]. by intros ->.
Qed.

Lemma clock_stops_when_job_ends_witness :
  duration_display Demo.job_completed 9000000 = "00:08"
  /\ duration_display Demo.job_completed 86400000000 = "00:08".
Proof.
  split; [vm_compute; reflexivity|].
  rewrite (proj1 (clock_stops_when_job_ends Demo.completed "a" Demo.job_completed
                    demo_completed_reachable demo_completed_job) eq_refl
             86400000000 9000000).
  vm_compute. reflexivity.
Defined.

(** X19. From one hour on, the ETA is shown in hours and minutes and the
    seconds are dropped: two estimates of at least an hour that fall in the
    same minute are shown alike. *)
Theorem eta_display_drops_seconds (p p' : MigrationProgress.t) (eta eta' : Z) :
  MigrationProgress.eta_seconds p = Some eta ->
  MigrationProgress.eta_seconds p' = Some eta' ->
  3600 <= eta ->
  3600 <= eta' ->
  eta / 60 = eta' / 60 ->
  eta_display p = eta_display p'.
Proof.
  intros Hp Hp' Heta Heta' Hminute. unfold eta_display. rewrite Hp, Hp'.
  destruct (Z.ltb_spec eta 60); [lia|]. destruct (Z.ltb_spec eta' 60); [lia|].
  destruct (Z.ltb_spec eta 3600); [lia|]. destruct (Z.ltb_spec eta' 3600); [lia|].
  assert (Hhours : eta / 3600 = eta' / 3600).
  { change 3600 with (60 * 60). rewrite <- !Z.div_div by lia. by rewrite Hminute. }
  assert (Hminutes : eta mod 3600 / 60 = eta' mod 3600 / 60).
  { rewrite !Z.mod_eq by lia. rewrite <- Hhours.
    replace (eta - 3600 * (eta / 3600)) with (eta + (- (60 * (eta / 3600))) * 60) by lia.
    replace (eta' - 3600 * (eta / 3600)) with (eta' + (- (60 * (eta / 3600))) * 60)
      by lia.
    rewrite !Z.div_add by lia. by rewrite Hminute. }
  by rewrite Hhours, Hminutes.
Qed.

Lemma eta_display_drops_seconds_witness :
  eta_display (MigrationProgress.Build 1 0 JNull (JFloat 0) (JInt 0) (JInt 0) 0%Q
                 (Some 7320))
  = eta_display (MigrationProgress.Build 1 0 JNull (JFloat 0) (JInt 0) (JInt 0) 0%Q
                   (Some 7379)).
Proof.
  exact (eta_display_drops_seconds
           (MigrationProgress.Build 1 0 JNull (JFloat 0) (JInt 0) (JInt 0) 0%Q (Some 7320))
           (MigrationProgress.Build 1 0 JNull (JFloat 0) (JInt 0) (JInt 0) 0%Q (Some 7379))
           7320 7379 eq_refl eq_refl ltac:(lia) ltac:(lia) eq_refl).
Defined.

(** X20. The buttons of a row agree with the guards of the engine.  For a
    registered job, whatever button the row offers in the job's status, the
    call the dashboard makes when it is pressed raises neither the
    unknown-job error nor a status error: Pause and Cancel return, and
    Resume returns unless a connection is missing or the ceiling is
    reached.  The row of a Queued job offers Cancel only. *)
Theorem offered_controls_pass_guards (self : MigrationEngine) (migration_id : string)
    (m : Migration.t) (button : control) (now : Z) (timed_out : bool) :
  _migrations self !! migration_id = Some m ->
  In button (controls (Migration.status m)) ->
  (Migration.status m = QUEUED -> button = CancelButton)
  /\ match fst (press button migration_id now timed_out self) with
     | Ok _ => True
     | Raised e =>
         button = ResumeButton
         /\ (e = ConnectionNotFound
             \/ e = ConcurrencyLimitExceeded
                      (max_concurrent_migrations (performance (_config self))))
     end.
Proof.
  intros Hm Hin. split.
  - intros Hs. rewrite Hs in Hin. cbn in Hin. by destruct Hin as [<-|[]].
  - destruct button; cbn [press].
    + unfold pause_migration. rewrite Hm.
      destruct (Migration.status m); cbn in Hin; try (by intuition discriminate).
      done.
    + unfold resume_migration, start_migration. rewrite Hm.
      destruct (Migration.status m); cbn in Hin; try (by intuition discriminate).
      cbn [startable negb].
      destruct (get_source_connection _ _); [|cbn; by auto].
      destruct (get_snowflake_connection _ _); [|cbn; by auto].
      destruct (_ <? _); cbn; by auto.
    + unfold cancel_migration. by rewrite Hm.
    + done.
Qed.

Lemma offered_controls_pass_guards_witness :
  fst (press PauseButton "a" 2000000 false Demo.running) = Ok ().
Proof.
  destruct (offered_controls_pass_guards Demo.running "a" Demo.job_running PauseButton
              2000000 false demo_running_job ltac:(cbn; auto)) as [_ Hpress].
  destruct (fst (press PauseButton "a" 2000000 false Demo.running)) as [[]|e] eqn:Hfst.
  - reflexivity.
  - destruct Hpress as [Hb _]. discriminate Hb.
Defined.

(** ** Staging areas *)

Section StagingProperties.
Variable loads : string -> option json.
Variable validate_bool : json -> option bool.

(** X21. Once a call of [list_staging_areas] has completed and no call is
    waiting for the tool, the tool is not run again on that engine: whatever
    calls begin, resume or are cancelled afterwards, every list returned is
    the cached one, the cache keeps it and the number of runs of the tool
    stays as it is, without regard to what the tool would answer by then.
    Before that it is otherwise: every call that begins while the cache is
    empty runs the tool, so [n] calls that overlap run it [n] times. *)
Theorem staging_areas_asked_once (ops : list staging_op) (self : staging)
    (areas : list StagingArea.t) :
  cached self = Some areas ->
  waiting self = 0%nat ->
  (Forall (fun returned => returned = areas) (fst (staging_run loads validate_bool ops self))
   /\ cached (snd (staging_run loads validate_bool ops self)) = Some areas
   /\ tool_runs (snd (staging_run loads validate_bool ops self)) = tool_runs self)
  /\ (forall n,
        tool_runs (snd (staging_run loads validate_bool (replicate n CallBegins)
                          (Staging None 0 0))) = n).
Proof.
  intros Hcached Hwaiting. split.
  - revert self Hcached Hwaiting.
    induction ops as [|o ops IH]; intros self Hcached Hwaiting; [done|].
    cbn [staging_run].
    assert (Hstep : exists self',
              (staging_step loads validate_bool o self = (Some areas, self')
               \/ staging_step loads validate_bool o self = (None, self'))
              /\ cached self' = Some areas /\ waiting self' = 0%nat
              /\ tool_runs self' = tool_runs self).
    { destruct o as [|tool|]; cbn [staging_step].
      - unfold list_staging_areas_begin. rewrite Hcached. exists self. by auto.
      - rewrite Hwaiting. exists self. by auto.
      - eexists. split; [by right|]. cbn. by rewrite Hwaiting. }
    destruct Hstep as (self' & Hstep & Hcached' & Hwaiting' & Hruns).
    specialize (IH self' Hcached' Hwaiting').
    destruct Hstep as [-> | ->];
      destruct (staging_run loads validate_bool ops self') as [later final];
      cbn [fst snd] in *; destruct IH as (Hall & Hfinal & Hcount);
      rewrite Hcount, Hruns; by auto.
  - intros n.
    assert (Hgen : forall runs pending,
              tool_runs (snd (staging_run loads validate_bool (replicate n CallBegins)
                                (Staging None runs pending))) = (n + runs)%nat).
    { induction n as [|n IH]; intros runs pending; [done|].
      cbn [replicate staging_run staging_step list_staging_areas_begin cached
           tool_runs waiting].
      specialize (IH (S runs) (S pending)).
      destruct (staging_run _ _ _ _) as [later final]. cbn [snd] in *. lia. }
    rewrite Hgen. lia.
Qed.

(** X22. The listing of the tool is taken whole or not at all.  On an
    engine that has not listed yet, [list_staging_areas] returns either the
    two default areas, or one area per item of the tool's listing, in order,
    each built from its item; the second only if the tool exited with code
    0 and wrote a JSON object.  Any failure on the way (the tool not
    launched, a non-zero exit, undecodable or malformed output, one item
    that does not validate) gives the defaults; a listing without the
    ["staging_areas"] key gives no area at all. *)
Theorem staging_areas_all_or_nothing (tool : cli_run) :
  let areas := fst (list_staging_areas loads validate_bool tool None) in
  (areas = default_staging_areas
   \/ exists text stderr fields items,
        tool = CliExited 0 (Some text) stderr
        /\ loads text = Some (JObj fields)
        /\ iterate (dict_get fields "staging_areas" (JArr [])) = Some items
        /\ Forall2 (fun s area => staging_area_of validate_bool s = Some area) items areas)
  /\ (forall returncode stdout stderr,
        tool = CliExited returncode stdout stderr -> returncode <> 0 ->
        areas = default_staging_areas)
  /\ (forall e, tool = CliNotLaunched e -> areas = default_staging_areas)
  /\ (forall text stderr fields,
        tool = CliExited 0 (Some text) stderr ->
        loads text = Some (JObj fields) ->
        dict_lookup fields "staging_areas" = None ->
        areas = []).
Proof.
  cbn zeta. unfold list_staging_areas, list_staging_areas_begin, list_staging_areas_resume.
  cbn [fst]. repeat split.
  - destruct tool as [e|returncode stdout stderr]; [by left|]. cbn.
    destruct (Z.eqb_spec returncode 0) as [->|Hne]; cbn [negb];
      [|destruct stderr; by left].
    destruct stdout as [text|]; [|by left].
    unfold parse_staging_areas.
    destruct (loads text) as [data|] eqn:Hloads; [|by left]. cbn.
    destruct data as [| | | | | |fields]; try by left.
    destruct (iterate _) as [items|] eqn:Hitems; [|by left]. cbn.
    destruct (mapM _ items) as [areas|] eqn:Hareas; [|by left].
    right. exists text, stderr, fields, items. repeat split; try done.
    by apply mapM_Some.
  - intros returncode stdout stderr -> Hne. cbn.
    destruct (Z.eqb_spec returncode 0); [done|]. by destruct stderr.
  - by intros e ->.
  - intros text stderr fields -> Hloads Hkey. cbn. unfold parse_staging_areas.
    rewrite Hloads. cbn. unfold dict_get. by rewrite Hkey.
Qed.
End StagingProperties.

Lemma staging_areas_asked_once_witness :
  let ops := [CallBegins; CallResumes (CliExited 0 (Some "{}") (Some "")); CallBegins] in
  let result :=
    staging_run (fun _ => None) (fun _ => None) ops
      (Staging (Some default_staging_areas) 1 0) in
  Forall (fun returned => returned = default_staging_areas) (fst result)
  /\ cached (snd result) = Some default_staging_areas
  /\ tool_runs (snd result) = 1%nat.
Proof.
  exact (proj1 (staging_areas_asked_once (fun _ => None) (fun _ => None)
                  [CallBegins; CallResumes (CliExited 0 (Some "{}") (Some "")); CallBegins]
                  (Staging (Some default_staging_areas) 1 0) default_staging_areas
                  eq_refl eq_refl)).
Defined.

(** ** A whole background run *)

(** One step of a run on a registered job, other than the cancellation of
    its task: the job stays registered, and a step that ends the run leaves
    it Failed, or Completed after exit 0, with its completion time set. *)
Lemma run_step_outcome (migration_id : string) (ev : child_event) (now : Z)
    (self : MigrationEngine) (m : Migration.t) :
  _migrations self !! migration_id = Some m ->
  ev <> TaskCancelled ->
  exists m',
    _migrations (snd (_run_migration_step migration_id ev now self)) !! migration_id
      = Some m'
    /\ (fst (_run_migration_step migration_id ev now self) = false ->
        (Migration.status m' = FAILED
         \/ (Migration.status m' = COMPLETED /\ ev = Exit 0))
        /\ is_set (Migration.completed_at m') = true)
    /\ (fst (_run_migration_step migration_id ev now self) = true ->
        forall returncode, ev <> Exit returncode).
Proof.
  intros Hm Hev. unfold _run_migration_step. rewrite Hm.
  destruct ev as [[child_pid| |e]|l|l|returncode|]; cbn [fst snd]; [..|done].
  - eexists. split; [cbn; by rewrite lookup_insert_eq|]. by split.
  - eexists. split; [by apply fail_lookup|]. split; [by auto|done].
  - eexists. split; [by apply fail_lookup|]. split; [by auto|done].
  - unfold read_progress. rewrite Hm.
    destruct l as [msg| |data].
    + eexists. split; [by apply fail_lookup|]. split; [by auto|done].
    + exists m. by split.
    + destruct (_parse_progress data m now) as [p|e].
      * cbn [_progress_queues set_migrations].
        destruct (_progress_queues self !! migration_id);
          (eexists; split; [cbn; by rewrite lookup_insert_eq|]; by split).
      * eexists. split; [by apply fail_lookup|]. split; [by auto|done].
  - unfold read_errors. rewrite Hm.
    destruct l as [msg| |data].
    + eexists. split; [by apply fail_lookup|]. split; [by auto|done].
    + exists m. by split.
    + destruct data as [| | | | | |fields];
        try (eexists; split; [by apply fail_lookup|]; split; [by auto|done]).
      destruct (eq_str _ _).
      * eexists. split; [cbn; by rewrite lookup_insert_eq|]. by split.
      * exists m. by split.
  - destruct (on_exit_lookup self migration_id returncode now m Hm)
      as (m' & Hl & Hs & _).
    eexists. split; [exact Hl|]. split; [|done]. intros _. cbn. rewrite Hs.
    split; [|done]. destruct (Z.eqb_spec returncode 0) as [->|]; auto.
Qed.

(** X23. A run that sees its child exit never leaves the job Running.
    Whatever the child does before it exits, and whatever status the job had
    when the run began, at the end of a [_run_migration] whose task is not
    cancelled the job is Failed or Completed and its [completed_at] is set;
    it is Completed only if the child exited with code 0. *)
Theorem run_ends_completed_or_failed (events : list (child_event * Z))
    (migration_id : string) (self : MigrationEngine) (m : Migration.t)
    (returncode at_exit : Z) :
  _migrations self !! migration_id = Some m ->
  In (Exit returncode, at_exit) events ->
  Forall (fun event => fst event <> TaskCancelled) events ->
  exists m',
    _migrations (_run_migration migration_id events self) !! migration_id = Some m'
    /\ (Migration.status m' = FAILED
        \/ (Migration.status m' = COMPLETED /\ exists now, In (Exit 0, now) events))
    /\ is_set (Migration.completed_at m') = true.
Proof.
  revert self m. induction events as [|[ev now] events IH]; intros self m Hm Hin Hlive.
  - destruct Hin.
  - apply Forall_cons in Hlive as [Hev Hlive]. cbn [fst] in Hev.
    destruct (run_step_outcome migration_id ev now self m Hm Hev)
      as (m' & Hm' & Hstop & Hgo).
    cbn [_run_migration].
    destruct (_run_migration_step migration_id ev now self) as [[] self'];
      cbn [fst snd] in *.
    + destruct Hin as [[= -> _]|Hin]; [by destruct (Hgo eq_refl returncode)|].
      destruct (IH self' m' Hm' Hin Hlive) as (m'' & Hm'' & Hstatus & Hdone).
      exists m''. split; [done|]. split; [|done].
      destruct Hstatus as [?|[? [now' ?]]]; [by left|].
      right. split; [done|]. exists now'. by right.
    + destruct (Hstop eq_refl) as [Hstatus Hdone].
      exists m'. split; [done|]. split; [|done].
      destruct Hstatus as [?|[? ->]]; [by left|].
      right. split; [done|]. exists now. by left.
Qed.

Lemma run_ends_completed_or_failed_witness :
  status_of "a"
    (_run_migration "a"
       [(Stdout (Decoded (JArr [])), 2000000); (Exit 0, 3000000)] Demo.running)
  = Some FAILED.
Proof.
  destruct (run_ends_completed_or_failed
              [(Stdout (Decoded (JArr [])), 2000000); (Exit 0, 3000000)] "a"
              Demo.running Demo.job_running 0 3000000 demo_running_job
              ltac:(cbn; auto) ltac:(repeat constructor; discriminate))
    as (m' & Hm' & _ & _).
  unfold status_of. rewrite Hm'. vm_compute in Hm'. by injection Hm' as <-.
Defined.
